(** * CRI / zakat dashboard: valuation derivation and tabular presentation

    A shallow embedding of the pure logic of the dashboard page
    ([Home] in the page component): the ticker ledgers, the zakat
    calculator, the fund-level extrapolation, the column registry, the
    CSV exporter, the presentation order of fund holdings and the
    request handlers' effect on the page state.

    Conventions of the embedding:
    - a JavaScript [number] is an IEEE 754 binary64 value: Rocq's primitive
      [float], whose operations are specified by [FloatAxioms];
    - [T | null | undefined] is [option T];
    - a JavaScript string is a [string] of 8-bit code units; case mapping
      and white space are those of the ASCII range (ticker symbols are
      ASCII), other code units are left unchanged;
    - [Map<string, number>] and [Record<string, ColumnConfig>] are
      [gmap string _];
    - what the platform provides and depends on the locale
      ([Intl.NumberFormat], [toFixed]) is an interface, [Runtime]. *)

From Stdlib Require Import ZArith Floats Uint63 String Ascii DecimalString.
From stdpp Require Import gmap strings list sorting.

Local Open Scope Z_scope.

(** ** JavaScript strings *)

Module JsString.

(** [WhiteSpace] and [LineTerminator] code points of the ASCII range:
    TAB, LF, VT, FF, CR and SP. *)
Definition isWhiteSpace (c : ascii) : bool :=
  let n := Z.of_N (N_of_ascii c) in
  ((9 <=? n) && (n <=? 13)) || (n =? 32).

Fixpoint trimStart (s : string) : string :=
  match s with
  | EmptyString => EmptyString
  | String c rest => if isWhiteSpace c then trimStart rest else s
  end.

Fixpoint trimEnd (s : string) : string :=
  match s with
  | EmptyString => EmptyString
  | String c rest =>
      match trimEnd rest with
      | EmptyString => if isWhiteSpace c then EmptyString else String c EmptyString
      | kept => String c kept
      end
  end.

(** [String.prototype.trim] *)
Definition trim (s : string) : string := trimEnd (trimStart s).

Definition upperChar (c : ascii) : ascii :=
  let n := N_of_ascii c in
  if ((97 <=? n) && (n <=? 122))%N then ascii_of_N (n - 32) else c.

Definition lowerChar (c : ascii) : ascii :=
  let n := N_of_ascii c in
  if ((65 <=? n) && (n <=? 90))%N then ascii_of_N (n + 32) else c.

Fixpoint mapChars (f : ascii -> ascii) (s : string) : string :=
  match s with
  | EmptyString => EmptyString
  | String c rest => String (f c) (mapChars f rest)
  end.

(** [String.prototype.toUpperCase] and [toLowerCase] *)
Definition toUpperCase (s : string) : string := mapChars upperChar s.
Definition toLowerCase (s : string) : string := mapChars lowerChar s.

(** [Array.prototype.join] on an array of strings *)
Definition join (sep : string) (parts : list string) : string :=
  String.concat sep parts.

(** [s.includes(c)] for a single code unit *)
Fixpoint includes (c : ascii) (s : string) : bool :=
  match s with
  | EmptyString => false
  | String d rest => Ascii.eqb c d || includes c rest
  end.

(** [s.replace(/c/g, by)]: every occurrence of one code unit replaced *)
Fixpoint replaceAll (c : ascii) (by_ : string) (s : string) : string :=
  match s with
  | EmptyString => EmptyString
  | String d rest =>
      if Ascii.eqb c d then by_ +:+ replaceAll c by_ rest
      else String d (replaceAll c by_ rest)
  end.

(** Truthiness of a string: the empty string is falsy. *)
Definition truthy (s : string) : bool :=
  match s with EmptyString => false | _ => true end.

End JsString.

(** ** JavaScript numbers *)

Module JsNumber.

(** The binary64 value nearest to the positive rational [n / d], ties to
    even; both arguments are positive. *)
Definition round_ratio (n d : Z) : float :=
  let l0 := Z.log2 n - Z.log2 d in
  let ge := if 0 <=? l0 then d * 2 ^ l0 <=? n else d <=? n * 2 ^ (- l0) in
  let l := if ge then l0 else l0 - 1 in
  let ex := Z.max (l - 52) (-1074) in
  let num := if 0 <=? ex then n else n * 2 ^ (- ex) in
  let den := if 0 <=? ex then d * 2 ^ ex else d in
  let q := num / den in
  let r := num mod den in
  let q' := match 2 * r ?= den with
            | Lt => q
            | Gt => q + 1
            | Eq => if Z.even q then q else q + 1
            end in
  Z.ldexp (PrimFloat.of_uint63 (Uint63.of_Z q')) ex.

(** The number denoted by [m * 10 ^ e], with the sign given apart (so that
    "-0" denotes the negative zero). *)
Definition ofDecimal (negative : bool) (m e : Z) : float :=
  let magnitude :=
    if m =? 0 then PrimFloat.zero
    else if 0 <=? e then round_ratio (m * 10 ^ e) 1
    else round_ratio m (10 ^ (- e)) in
  if negative then (- magnitude)%float else magnitude.

Definition digitValue (radix : Z) (c : ascii) : option Z :=
  let n := Z.of_N (N_of_ascii c) in
  let v := if (48 <=? n) && (n <=? 57) then n - 48
           else if (97 <=? n) && (n <=? 102) then n - 87
           else if (65 <=? n) && (n <=? 70) then n - 55
           else radix in
  if v <? radix then Some v else None.

(** Reads the longest prefix of digits; returns the accumulated value, the
    number of digits read and the rest of the input. *)
Fixpoint readDigits (radix : Z) (s : string) (acc count : Z) : Z * Z * string :=
  match s with
  | EmptyString => (acc, count, s)
  | String c rest =>
      match digitValue radix c with
      | Some d => readDigits radix rest (radix * acc + d) (count + 1)
      | None => (acc, count, s)
      end
  end.

Definition readSign (s : string) : bool * string :=
  match s with
  | String "-"%char rest => (true, rest)
  | String "+"%char rest => (false, rest)
  | _ => (false, s)
  end.

(** [ExponentPart] without its indicator: an optional sign and at least one
    digit, up to the end of the input. *)
Definition parseExponent (s : string) : option Z :=
  let '(negative, digits) := readSign s in
  match readDigits 10 digits 0 0 with
  | (v, n, EmptyString) =>
      if 0 <? n then Some (if negative then - v else v) else None
  | _ => None
  end.

(** [StrUnsignedDecimalLiteral] other than [Infinity]: the decimal mantissa
    and exponent it denotes. *)
Definition parseUnsignedDecimal (s : string) : option (Z * Z) :=
  let '(ip, ni, s1) := readDigits 10 s 0 0 in
  let '(m, nf, s2) :=
    match s1 with
    | String "."%char rest => readDigits 10 rest ip 0
    | _ => (ip, 0, s1)
    end in
  if ni + nf =? 0 then None
  else match s2 with
       | EmptyString => Some (m, - nf)
       | String c rest =>
           if Ascii.eqb c "e" || Ascii.eqb c "E"
           then match parseExponent rest with
                | Some e => Some (m, e - nf)
                | None => None
                end
           else None
       end.

(** [StrDecimalLiteral] *)
Definition parseDecimalLiteral (s : string) : option float :=
  let '(negative, body) := readSign s in
  if String.eqb body "Infinity"
  then Some (if negative then PrimFloat.neg_infinity else PrimFloat.infinity)
  else match parseUnsignedDecimal body with
       | Some (m, e) => Some (ofDecimal negative m e)
       | None => None
       end.

(** [NonDecimalIntegerLiteral]: 0x, 0o and 0b forms, which take no sign. *)
Definition parseNonDecimal (s : string) : option float :=
  match s with
  | String "0"%char (String p digits) =>
      let radix :=
        if Ascii.eqb p "x" || Ascii.eqb p "X" then Some 16
        else if Ascii.eqb p "o" || Ascii.eqb p "O" then Some 8
        else if Ascii.eqb p "b" || Ascii.eqb p "B" then Some 2
        else None in
      match radix with
      | Some r =>
          match readDigits r digits 0 0 with
          | (v, n, EmptyString) =>
              if 0 <? n then Some (ofDecimal false v 0) else None
          | _ => None
          end
      | None => None
      end
  | _ => None
  end.

(** [Number(s)] for a string argument (the StringToNumber operation): white
    space is trimmed, the empty string is [+0], and what is not a numeric
    literal is [NaN]. *)
Definition Number (s : string) : float :=
  match JsString.trim s with
  | EmptyString => PrimFloat.zero
  | t => match parseNonDecimal t with
         | Some f => f
         | None => match parseDecimalLiteral t with
                   | Some f => f
                   | None => PrimFloat.nan
                   end
         end
  end.

(** [Number.isFinite] on a number; [Number.isNaN] likewise. *)
Definition isFinite (x : float) : bool := PrimFloat.is_finite x.
Definition isNaN (x : float) : bool := PrimFloat.is_nan x.

(** The comparison a sort makes of a comparator's result [v]: positive,
    negative, or neither (zero and [NaN] alike). *)
Definition positive (v : float) : bool := (PrimFloat.zero <? v)%float.
Definition negative (v : float) : bool := (v <? PrimFloat.zero)%float.

End JsNumber.

(** ** Data model *)

Module CompanyValuation.
Record t := mk {
  ticker : string;
  company_name : option string;
  currency : option string;
  data_date : option string;
  price_date : option string;
  cash_and_equivalents : option float;
  receivables : option float;
  inventories : option float;
  market_price : option float;
  shares_outstanding : option float;
  cri_per_share : option float;
  cri_to_market_price_ratio : option float;
  shares : option float;
  warnings : list string
}.
End CompanyValuation.

Module FundHoldingValuation.
Record t := mk {
  ticker : option string;
  name : option string;
  isin : option string;
  cusip : option string;
  weight : option float;
  company : option CompanyValuation.t;
  warnings : list string
}.
End FundHoldingValuation.

Module FundValuation.
Record t := mk {
  ticker : string;
  fund_name : option string;
  currency : option string;
  market_price : option float;
  price_date : option string;
  aggregate_cri_per_share : option float;
  aggregate_cri_to_market_price_ratio : option float;
  total_weight_covered : option float;
  holdings : list FundHoldingValuation.t;
  warnings : list string
}.
End FundValuation.

Module ValuationResponse.
Record t := mk {
  generated_at : string;
  as_of_date : string;
  portfolio : list CompanyValuation.t;
  funds : list FundValuation.t
}.
End ValuationResponse.

Module PortfolioInputRow.
Record t := mk { ticker : string; shares : string; amount : string }.
End PortfolioInputRow.

Module FundInputRow.
Record t := mk { ticker : string; amount : string }.
End FundInputRow.

Module ColumnConfig.
Record t := mk { visible : bool; width : float }.
End ColumnConfig.

(** A column definition; the styling class names of the source play no part
    in what is shown or exported and are left out. Every [renderCell] of the
    page returns a string. *)
Module PortfolioColumn.
Record t := mk {
  id : string;
  label : string;
  tooltip : option string;
  defaultWidth : float;
  renderCell : CompanyValuation.t -> string;
  getExportValue : CompanyValuation.t -> string;
  cellTooltip : option (CompanyValuation.t -> option string)
}.
End PortfolioColumn.

Module FundHoldingColumn.
Record t := mk {
  id : string;
  label : string;
  tooltip : option string;
  defaultWidth : float;
  renderCell : FundHoldingValuation.t -> string;
  getExportValue : FundHoldingValuation.t -> string;
  cellTooltip : option (FundHoldingValuation.t -> option string)
}.
End FundHoldingColumn.

(** ** Formatting *)

(** [Intl.NumberFormatOptions], as far as the page sets them. *)
Record NumberFormatOptions := {
  minimumFractionDigits : option nat;
  maximumFractionDigits : option nat
}.

Definition noOptions : NumberFormatOptions :=
  {| minimumFractionDigits := None; maximumFractionDigits := None |}.

(** What the platform provides: [numberFormat min max v] is
    [new Intl.NumberFormat(undefined, {minimumFractionDigits: min,
    maximumFractionDigits: max}).format(v)] in the locale of the browser,
    [toFixed digits v] is [v.toFixed(digits)], and [filenameTimestamp] is
    the page's [buildFilenameTimestamp], which reads the clock when its
    argument is absent or not a date. *)
Class Runtime := {
  numberFormat : nat -> nat -> float -> string;
  toFixed : nat -> float -> string;
  filenameTimestamp : option string -> string
}.

(** The placeholders of the page: an em dash, a hyphen and "N/A". *)
Definition EM_DASH : string := "—".

Definition LF : ascii := ascii_of_nat 10.
Definition QUOTE : ascii := ascii_of_nat 34.
Definition COMMA : ascii := ","%char.

Definition formatNumber `{Runtime}
    (value : option float) (options : NumberFormatOptions) : string :=
  match value with
  | None => EM_DASH
  | Some v =>
      if JsNumber.isNaN v then EM_DASH
      else numberFormat (default 0%nat (minimumFractionDigits options))
                        (default 2%nat (maximumFractionDigits options)) v
  end.

Definition formatRatio `{Runtime} (value : option float) : string :=
  match value with
  | None => EM_DASH
  | Some v =>
      if JsNumber.isNaN v then EM_DASH
      else toFixed 2 (v * 100)%float +:+ "%"
  end.

(** ** CSV serialization *)

Definition sanitizeCsvValue (value : option string) : string :=
  match value with
  | None => EmptyString
  | Some stringValue =>
      let escaped :=
        JsString.replaceAll QUOTE (String QUOTE (String QUOTE EmptyString)) stringValue in
      if JsString.includes QUOTE escaped
         || JsString.includes COMMA escaped
         || JsString.includes LF escaped
      then String QUOTE escaped +:+ String QUOTE EmptyString
      else escaped
  end.

Definition createCsvContent (headers : list string) (rows : list (list string)) : string :=
  let csvRows := headers :: rows in
  JsString.join (String LF EmptyString)
    ((fun row => JsString.join "," ((fun v => sanitizeCsvValue (Some v)) <$> row)) <$> csvRows).

(** [triggerCsvDownload filename csvContent]: the download the browser is
    asked to make. *)
Record Download := { filename : string; csvContent : string }.

Definition ZAKAT_RATE : float := 0x1.999999999999ap-6%float.

(** ** Ticker ledgers

    The two [useMemo] blocks of the page; each depends on its own input
    rows only. *)

Definition fundAmountMap (fundRows : list FundInputRow.t) : gmap string float :=
  foldl (fun (map : gmap string float) row =>
    let ticker := JsString.toUpperCase (JsString.trim (FundInputRow.ticker row)) in
    if negb (JsString.truthy ticker) then map
    else
      let amountValue := JsNumber.Number (FundInputRow.amount row) in
      if negb (JsNumber.isFinite amountValue) then map
      else <[ticker := (default PrimFloat.zero (map !! ticker) + amountValue)%float]> map)
    ∅ fundRows.

Definition portfolioAmountMap (portfolioRows : list PortfolioInputRow.t) : gmap string float :=
  foldl (fun (map : gmap string float) row =>
    let ticker := JsString.toUpperCase (JsString.trim (PortfolioInputRow.ticker row)) in
    if negb (JsString.truthy ticker) then map
    else
      let amountValue := JsNumber.Number (PortfolioInputRow.amount row) in
      if negb (JsNumber.isFinite amountValue) then map
      else <[ticker := (default PrimFloat.zero (map !! ticker) + amountValue)%float]> map)
    ∅ portfolioRows.

(** ** Zakat calculator (direct holdings) *)

Definition computePortfolioZakatableAmount
    (portfolioAmountMap : gmap string float) (company : CompanyValuation.t) : option float :=
  if negb (JsString.truthy (CompanyValuation.ticker company)) then None
  else
    let investedAmount :=
      portfolioAmountMap !! JsString.toUpperCase (CompanyValuation.ticker company) in
    let ratio := CompanyValuation.cri_to_market_price_ratio company in
    match investedAmount, ratio with
    | Some investedAmount, Some ratio => Some (investedAmount * ratio)%float
    | _, _ => None
    end.

Definition computePortfolioZakatDue
    (portfolioAmountMap : gmap string float) (company : CompanyValuation.t) : option float :=
  match computePortfolioZakatableAmount portfolioAmountMap company with
  | None => None
  | Some zakatableAmount => Some (zakatableAmount * ZAKAT_RATE)%float
  end.

(** ** Fund-level figures

    The values the page derives for each fund before it renders the fund's
    card. *)

Record FundFigures := {
  aggregateCriRatio : option float;
  totalWeightCovered : option float;
  extrapolatedCriRatio : option float;
  investedAmount : option float;
  zakatableAmount : option float;
  zakatDue : option float;
  zakatableAmountDisplay : string;
  zakatDueDisplay : string
}.

Definition fundFigures `{Runtime}
    (fundAmountMap : gmap string float) (fund : FundValuation.t) : FundFigures :=
  let aggregateCriRatio := FundValuation.aggregate_cri_to_market_price_ratio fund in
  let totalWeightCovered := FundValuation.total_weight_covered fund in
  let extrapolatedCriRatio :=
    match aggregateCriRatio, totalWeightCovered with
    | Some aggregate, Some covered =>
        if (PrimFloat.zero <? covered)%float then Some (aggregate / covered)%float
        else None
    | _, _ => None
    end in
  let investedAmount := fundAmountMap !! JsString.toUpperCase (FundValuation.ticker fund) in
  let zakatableAmount :=
    match investedAmount, extrapolatedCriRatio with
    | Some invested, Some ratio => Some (invested * ratio)%float
    | _, _ => None
    end in
  let zakatDue :=
    match zakatableAmount with
    | Some amount => Some (amount * ZAKAT_RATE)%float
    | None => None
    end in
  let twoDigits :=
    {| minimumFractionDigits := Some 2%nat; maximumFractionDigits := Some 2%nat |} in
  {| aggregateCriRatio := aggregateCriRatio;
     totalWeightCovered := totalWeightCovered;
     extrapolatedCriRatio := extrapolatedCriRatio;
     investedAmount := investedAmount;
     zakatableAmount := zakatableAmount;
     zakatDue := zakatDue;
     zakatableAmountDisplay := formatNumber zakatableAmount twoDigits;
     zakatDueDisplay := formatNumber zakatDue twoDigits |}.

(** ** Column definitions

    Each column carries the two closures of the source, [renderCell] for
    the table and [getExportValue] for the CSV file, written out as they
    are there. *)

Definition fractionDigits (minimum maximum : option nat) : NumberFormatOptions :=
  {| minimumFractionDigits := minimum; maximumFractionDigits := maximum |}.

Definition CRI_PER_SHARE_TIP : string :=
  "Cash + Receivables + Inventories ÷ Shares outstanding".
Definition CRI_RATIO_TIP : string := "CRI per share ÷ Market price".
Definition ZAKATABLE_TIP : string := "Invested amount x CRI / Price ratio".
Definition ZAKAT_DUE_TIP : string := "Zakatable amount x 2.5%".
Definition WEIGHT_TIP : string :=
  "Holding weight in the fund as reported in SEC filings".

Definition portfolioColumns `{Runtime}
    (portfolioAmountMap : gmap string float) : list PortfolioColumn.t :=
  [
    {| PortfolioColumn.id := "ticker";
       PortfolioColumn.label := "Ticker";
       PortfolioColumn.tooltip := None;
       PortfolioColumn.defaultWidth := 140%float;
       PortfolioColumn.renderCell := fun company =>
         CompanyValuation.ticker company;
       PortfolioColumn.getExportValue := fun company =>
         CompanyValuation.ticker company;
       PortfolioColumn.cellTooltip := None |};
    {| PortfolioColumn.id := "company";
       PortfolioColumn.label := "Company";
       PortfolioColumn.tooltip := None;
       PortfolioColumn.defaultWidth := 220%float;
       PortfolioColumn.renderCell := fun company =>
         default "-"%string (CompanyValuation.company_name company);
       PortfolioColumn.getExportValue := fun company =>
         default "-"%string (CompanyValuation.company_name company);
       PortfolioColumn.cellTooltip := None |};
    {| PortfolioColumn.id := "currency";
       PortfolioColumn.label := "Currency";
       PortfolioColumn.tooltip := None;
       PortfolioColumn.defaultWidth := 120%float;
       PortfolioColumn.renderCell := fun company =>
         default "-"%string (CompanyValuation.currency company);
       PortfolioColumn.getExportValue := fun company =>
         default "-"%string (CompanyValuation.currency company);
       PortfolioColumn.cellTooltip := None |};
    {| PortfolioColumn.id := "cash";
       PortfolioColumn.label := "Cash";
       PortfolioColumn.tooltip := None;
       PortfolioColumn.defaultWidth := 140%float;
       PortfolioColumn.renderCell := fun company =>
         formatNumber (CompanyValuation.cash_and_equivalents company) noOptions;
       PortfolioColumn.getExportValue := fun company =>
         formatNumber (CompanyValuation.cash_and_equivalents company) noOptions;
       PortfolioColumn.cellTooltip := None |};
    {| PortfolioColumn.id := "receivables";
       PortfolioColumn.label := "Receivables";
       PortfolioColumn.tooltip := None;
       PortfolioColumn.defaultWidth := 140%float;
       PortfolioColumn.renderCell := fun company =>
         formatNumber (CompanyValuation.receivables company) noOptions;
       PortfolioColumn.getExportValue := fun company =>
         formatNumber (CompanyValuation.receivables company) noOptions;
       PortfolioColumn.cellTooltip := None |};
    {| PortfolioColumn.id := "inventories";
       PortfolioColumn.label := "Inventories";
       PortfolioColumn.tooltip := None;
       PortfolioColumn.defaultWidth := 140%float;
       PortfolioColumn.renderCell := fun company =>
         formatNumber (CompanyValuation.inventories company) noOptions;
       PortfolioColumn.getExportValue := fun company =>
         formatNumber (CompanyValuation.inventories company) noOptions;
       PortfolioColumn.cellTooltip := None |};
    {| PortfolioColumn.id := "market_price";
       PortfolioColumn.label := "Market Price";
       PortfolioColumn.tooltip := None;
       PortfolioColumn.defaultWidth := 160%float;
       PortfolioColumn.renderCell := fun company =>
         formatNumber (CompanyValuation.market_price company)
           (fractionDigits (Some 2%nat) (Some 4%nat));
       PortfolioColumn.getExportValue := fun company =>
         formatNumber (CompanyValuation.market_price company)
           (fractionDigits (Some 2%nat) (Some 4%nat));
       PortfolioColumn.cellTooltip := None |};
    {| PortfolioColumn.id := "shares";
       PortfolioColumn.label := "Shares Used";
       PortfolioColumn.tooltip := None;
       PortfolioColumn.defaultWidth := 150%float;
       PortfolioColumn.renderCell := fun company =>
         formatNumber (CompanyValuation.shares_outstanding company)
           (fractionDigits None (Some 0%nat));
       PortfolioColumn.getExportValue := fun company =>
         formatNumber (CompanyValuation.shares_outstanding company)
           (fractionDigits None (Some 0%nat));
       PortfolioColumn.cellTooltip := None |};
    {| PortfolioColumn.id := "cri_per_share";
       PortfolioColumn.label := "CRI per Share";
       PortfolioColumn.tooltip := (Some CRI_PER_SHARE_TIP);
       PortfolioColumn.defaultWidth := 160%float;
       PortfolioColumn.renderCell := fun company =>
         formatNumber (CompanyValuation.cri_per_share company)
           (fractionDigits (Some 4%nat) (Some 6%nat));
       PortfolioColumn.getExportValue := fun company =>
         formatNumber (CompanyValuation.cri_per_share company)
           (fractionDigits (Some 4%nat) (Some 6%nat));
       PortfolioColumn.cellTooltip := (Some (fun _ => Some CRI_PER_SHARE_TIP)) |};
    {| PortfolioColumn.id := "cri_ratio";
       PortfolioColumn.label := "CRI / Price";
       PortfolioColumn.tooltip := (Some CRI_RATIO_TIP);
       PortfolioColumn.defaultWidth := 140%float;
       PortfolioColumn.renderCell := fun company =>
         formatRatio (CompanyValuation.cri_to_market_price_ratio company);
       PortfolioColumn.getExportValue := fun company =>
         formatRatio (CompanyValuation.cri_to_market_price_ratio company);
       PortfolioColumn.cellTooltip := (Some (fun _ => Some CRI_RATIO_TIP)) |};
    {| PortfolioColumn.id := "zakatable_amount";
       PortfolioColumn.label := "Zakatable Amount";
       PortfolioColumn.tooltip := (Some ZAKATABLE_TIP);
       PortfolioColumn.defaultWidth := 180%float;
       PortfolioColumn.renderCell := fun company =>
         let zakatableAmount := computePortfolioZakatableAmount portfolioAmountMap company in
         formatNumber zakatableAmount (fractionDigits (Some 2%nat) (Some 2%nat));
       PortfolioColumn.getExportValue := fun company =>
         let zakatableAmount := computePortfolioZakatableAmount portfolioAmountMap company in
         formatNumber zakatableAmount (fractionDigits (Some 2%nat) (Some 2%nat));
       PortfolioColumn.cellTooltip := (Some (fun _ => Some ZAKATABLE_TIP)) |};
    {| PortfolioColumn.id := "zakat_due";
       PortfolioColumn.label := "Zakat Due";
       PortfolioColumn.tooltip := (Some ZAKAT_DUE_TIP);
       PortfolioColumn.defaultWidth := 160%float;
       PortfolioColumn.renderCell := fun company =>
         let zakatDue := computePortfolioZakatDue portfolioAmountMap company in
         formatNumber zakatDue (fractionDigits (Some 2%nat) (Some 2%nat));
       PortfolioColumn.getExportValue := fun company =>
         let zakatDue := computePortfolioZakatDue portfolioAmountMap company in
         formatNumber zakatDue (fractionDigits (Some 2%nat) (Some 2%nat));
       PortfolioColumn.cellTooltip := (Some (fun _ => Some ZAKAT_DUE_TIP)) |} ].

Definition getFundHoldingLabel (holding : FundHoldingValuation.t) : string :=
  let ticker := FundHoldingValuation.ticker holding in
  let name := FundHoldingValuation.name holding in
  match ticker, name with
  | Some t, Some n =>
      if JsString.truthy t && JsString.truthy n
         && negb (String.eqb (JsString.toLowerCase n) (JsString.toLowerCase t))
      then t +:+ " (" +:+ n +:+ ")"
      else t
  | Some t, None => t
  | None, Some n => n
  | None, None => "N/A"
  end.

(** [holding.company?.field ?? null] *)
Definition companyField {A} (field : CompanyValuation.t -> option A)
    (holding : FundHoldingValuation.t) : option A :=
  match FundHoldingValuation.company holding with
  | Some company => field company
  | None => None
  end.

Definition fundHoldingColumns `{Runtime} : list FundHoldingColumn.t :=
  [
    {| FundHoldingColumn.id := "holding";
       FundHoldingColumn.label := "Holding";
       FundHoldingColumn.tooltip := None;
       FundHoldingColumn.defaultWidth := 220%float;
       FundHoldingColumn.renderCell := fun holding =>
         getFundHoldingLabel holding;
       FundHoldingColumn.getExportValue := fun holding =>
         getFundHoldingLabel holding;
       FundHoldingColumn.cellTooltip := None |};
    {| FundHoldingColumn.id := "weight";
       FundHoldingColumn.label := "Weight";
       FundHoldingColumn.tooltip := (Some WEIGHT_TIP);
       FundHoldingColumn.defaultWidth := 120%float;
       FundHoldingColumn.renderCell := fun holding =>
         match FundHoldingValuation.weight holding with
         | Some w => formatRatio (Some w)
         | None => "N/A"
         end;
       FundHoldingColumn.getExportValue := fun holding =>
         match FundHoldingValuation.weight holding with
         | Some w => formatRatio (Some w)
         | None => "N/A"
         end;
       FundHoldingColumn.cellTooltip := (Some (fun _ => Some WEIGHT_TIP)) |};
    {| FundHoldingColumn.id := "cash";
       FundHoldingColumn.label := "Cash";
       FundHoldingColumn.tooltip := None;
       FundHoldingColumn.defaultWidth := 140%float;
       FundHoldingColumn.renderCell := fun holding =>
         formatNumber (companyField CompanyValuation.cash_and_equivalents holding) noOptions;
       FundHoldingColumn.getExportValue := fun holding =>
         formatNumber (companyField CompanyValuation.cash_and_equivalents holding) noOptions;
       FundHoldingColumn.cellTooltip := None |};
    {| FundHoldingColumn.id := "receivables";
       FundHoldingColumn.label := "Receivables";
       FundHoldingColumn.tooltip := None;
       FundHoldingColumn.defaultWidth := 150%float;
       FundHoldingColumn.renderCell := fun holding =>
         formatNumber (companyField CompanyValuation.receivables holding) noOptions;
       FundHoldingColumn.getExportValue := fun holding =>
         formatNumber (companyField CompanyValuation.receivables holding) noOptions;
       FundHoldingColumn.cellTooltip := None |};
    {| FundHoldingColumn.id := "inventories";
       FundHoldingColumn.label := "Inventories";
       FundHoldingColumn.tooltip := None;
       FundHoldingColumn.defaultWidth := 150%float;
       FundHoldingColumn.renderCell := fun holding =>
         formatNumber (companyField CompanyValuation.inventories holding) noOptions;
       FundHoldingColumn.getExportValue := fun holding =>
         formatNumber (companyField CompanyValuation.inventories holding) noOptions;
       FundHoldingColumn.cellTooltip := None |};
    {| FundHoldingColumn.id := "market_price";
       FundHoldingColumn.label := "Market Price";
       FundHoldingColumn.tooltip := None;
       FundHoldingColumn.defaultWidth := 150%float;
       FundHoldingColumn.renderCell := fun holding =>
         formatNumber (companyField CompanyValuation.market_price holding) noOptions;
       FundHoldingColumn.getExportValue := fun holding =>
         formatNumber (companyField CompanyValuation.market_price holding) noOptions;
       FundHoldingColumn.cellTooltip := None |};
    {| FundHoldingColumn.id := "shares";
       FundHoldingColumn.label := "Shares Used";
       FundHoldingColumn.tooltip := None;
       FundHoldingColumn.defaultWidth := 150%float;
       FundHoldingColumn.renderCell := fun holding =>
         formatNumber (companyField CompanyValuation.shares_outstanding holding)
           (fractionDigits None (Some 0%nat));
       FundHoldingColumn.getExportValue := fun holding =>
         formatNumber (companyField CompanyValuation.shares_outstanding holding)
           (fractionDigits None (Some 0%nat));
       FundHoldingColumn.cellTooltip := None |};
    {| FundHoldingColumn.id := "cri_per_share";
       FundHoldingColumn.label := "CRI per Share";
       FundHoldingColumn.tooltip := (Some CRI_PER_SHARE_TIP);
       FundHoldingColumn.defaultWidth := 160%float;
       FundHoldingColumn.renderCell := fun holding =>
         formatNumber (companyField CompanyValuation.cri_per_share holding)
           (fractionDigits (Some 4%nat) (Some 6%nat));
       FundHoldingColumn.getExportValue := fun holding =>
         formatNumber (companyField CompanyValuation.cri_per_share holding)
           (fractionDigits (Some 4%nat) (Some 6%nat));
       FundHoldingColumn.cellTooltip := (Some (fun _ => Some CRI_PER_SHARE_TIP)) |};
    {| FundHoldingColumn.id := "cri_ratio";
       FundHoldingColumn.label := "CRI / Price";
       FundHoldingColumn.tooltip := (Some CRI_RATIO_TIP);
       FundHoldingColumn.defaultWidth := 140%float;
       FundHoldingColumn.renderCell := fun holding =>
         match companyField CompanyValuation.cri_to_market_price_ratio holding with
         | Some ratio => formatRatio (Some ratio)
         | None => "N/A"
         end;
       FundHoldingColumn.getExportValue := fun holding =>
         match companyField CompanyValuation.cri_to_market_price_ratio holding with
         | Some ratio => formatRatio (Some ratio)
         | None => "N/A"
         end;
       FundHoldingColumn.cellTooltip := (Some (fun _ => Some CRI_RATIO_TIP)) |} ].

(** ** Column configuration (visibility and width, keyed by column id) *)

Definition defaultColumnConfig (defaultWidth : float) : ColumnConfig.t :=
  {| ColumnConfig.visible := true; ColumnConfig.width := defaultWidth |}.

(** The initial state: [Object.fromEntries] over the column definitions. *)
Definition initialPortfolioColumnConfig
    (portfolioColumns : list PortfolioColumn.t) : gmap string ColumnConfig.t :=
  foldl (fun config column =>
           <[PortfolioColumn.id column :=
               defaultColumnConfig (PortfolioColumn.defaultWidth column)]> config)
        ∅ portfolioColumns.

(** The effect that gives a column without an entry its default entry. *)
Definition healPortfolioColumnConfig (portfolioColumns : list PortfolioColumn.t)
    (prev : gmap string ColumnConfig.t) : gmap string ColumnConfig.t :=
  foldl (fun next column =>
           match next !! PortfolioColumn.id column with
           | Some _ => next
           | None => <[PortfolioColumn.id column :=
                         defaultColumnConfig (PortfolioColumn.defaultWidth column)]> next
           end)
        prev portfolioColumns.

Definition handlePortfolioColumnVisibilityChange
    (portfolioColumns : list PortfolioColumn.t) (columnId : string) (visible : bool)
    (prev : gmap string ColumnConfig.t) : gmap string ColumnConfig.t :=
  let column :=
    List.find (fun col => String.eqb (PortfolioColumn.id col) columnId) portfolioColumns in
  let fallbackWidth := default 160%float (PortfolioColumn.defaultWidth <$> column) in
  <[columnId := {| ColumnConfig.visible := visible;
                   ColumnConfig.width :=
                     default fallbackWidth (ColumnConfig.width <$> prev !! columnId) |}]> prev.

Definition handlePortfolioColumnWidthChange (columnId : string) (width : float)
    (prev : gmap string ColumnConfig.t) : gmap string ColumnConfig.t :=
  <[columnId := {| ColumnConfig.visible :=
                     default true (ColumnConfig.visible <$> prev !! columnId);
                   ColumnConfig.width := width |}]> prev.

Definition initialFundHoldingColumnConfig
    (fundHoldingColumns : list FundHoldingColumn.t) : gmap string ColumnConfig.t :=
  foldl (fun config column =>
           <[FundHoldingColumn.id column :=
               defaultColumnConfig (FundHoldingColumn.defaultWidth column)]> config)
        ∅ fundHoldingColumns.

Definition handleFundColumnVisibilityChange
    (fundHoldingColumns : list FundHoldingColumn.t) (columnId : string) (visible : bool)
    (prev : gmap string ColumnConfig.t) : gmap string ColumnConfig.t :=
  let column :=
    List.find (fun col => String.eqb (FundHoldingColumn.id col) columnId) fundHoldingColumns in
  let fallbackWidth := default 160%float (FundHoldingColumn.defaultWidth <$> column) in
  <[columnId := {| ColumnConfig.visible := visible;
                   ColumnConfig.width :=
                     default fallbackWidth (ColumnConfig.width <$> prev !! columnId) |}]> prev.

(** [config[id]?.visible ?? true] *)
Definition isVisible (config : gmap string ColumnConfig.t) (id : string) : bool :=
  default true (ColumnConfig.visible <$> config !! id).

Definition visiblePortfolioColumns (portfolioColumns : list PortfolioColumn.t)
    (portfolioColumnConfig : gmap string ColumnConfig.t) : list PortfolioColumn.t :=
  List.filter (fun column => isVisible portfolioColumnConfig (PortfolioColumn.id column))
    portfolioColumns.

Definition visibleFundHoldingColumns (fundHoldingColumns : list FundHoldingColumn.t)
    (fundHoldingColumnConfig : gmap string ColumnConfig.t) : list FundHoldingColumn.t :=
  List.filter (fun column => isVisible fundHoldingColumnConfig (FundHoldingColumn.id column))
    fundHoldingColumns.

(** ** CSV export *)

(** The download made by the portfolio table's button, if any. *)
Definition handleDownloadPortfolio `{Runtime}
    (portfolioResult : list CompanyValuation.t)
    (portfolioColumns : list PortfolioColumn.t)
    (portfolioColumnConfig : gmap string ColumnConfig.t)
    (portfolioGeneratedAt : option string) : option Download :=
  if (length portfolioResult =? 0)%nat then None
  else
    let exportColumns :=
      List.filter (fun column => isVisible portfolioColumnConfig (PortfolioColumn.id column))
        portfolioColumns in
    let headers := (PortfolioColumn.label <$> exportColumns) ++ ["Warnings"%string] in
    let rows :=
      (fun company =>
         ((fun column => PortfolioColumn.getExportValue column company) <$> exportColumns)
         ++ [JsString.join " " (CompanyValuation.warnings company)])
      <$> portfolioResult in
    let timestamp := filenameTimestamp portfolioGeneratedAt in
    let csvContent := createCsvContent headers rows in
    Some {| filename := "portfolio-valuations-" +:+ timestamp +:+ ".csv";
            csvContent := csvContent |}.

Definition fundHoldingsExportHeaders : list string :=
  [ "Holding"; "Ticker"; "Name"; "ISIN"; "CUSIP"; "Weight"; "Cash"; "Receivables";
    "Inventories"; "Market Price"; "Shares"; "CRI per Share"; "CRI / Price";
    "Holding Warnings"; "Company Warnings" ]%string.

Definition fundHoldingsExportRow `{Runtime} (holding : FundHoldingValuation.t) : list string :=
  let company := FundHoldingValuation.company holding in
  let ticker := FundHoldingValuation.ticker holding in
  let name := FundHoldingValuation.name holding in
  let label :=
    match ticker, name with
    | Some t, Some n =>
        if JsString.truthy t && JsString.truthy n
           && negb (String.eqb (JsString.toLowerCase n) (JsString.toLowerCase t))
        then t +:+ " (" +:+ n +:+ ")"
        else t
    | Some t, None => t
    | None, Some n => n
    | None, None => "N/A"%string
    end in
  let criRatio := companyField CompanyValuation.cri_to_market_price_ratio holding in
  [ label;
    default EM_DASH (FundHoldingValuation.ticker holding);
    default EM_DASH (FundHoldingValuation.name holding);
    default EM_DASH (FundHoldingValuation.isin holding);
    default EM_DASH (FundHoldingValuation.cusip holding);
    match FundHoldingValuation.weight holding with
    | Some w => formatRatio (Some w)
    | None => "N/A"%string
    end;
    formatNumber (companyField CompanyValuation.cash_and_equivalents holding) noOptions;
    formatNumber (companyField CompanyValuation.receivables holding) noOptions;
    formatNumber (companyField CompanyValuation.inventories holding) noOptions;
    formatNumber (companyField CompanyValuation.market_price holding) noOptions;
    formatNumber (companyField CompanyValuation.shares_outstanding holding)
      (fractionDigits None (Some 0%nat));
    formatNumber (companyField CompanyValuation.cri_per_share holding)
      (fractionDigits (Some 4%nat) (Some 6%nat));
    match criRatio with
    | Some ratio => formatRatio (Some ratio)
    | None => "N/A"%string
    end;
    JsString.join " " (FundHoldingValuation.warnings holding);
    match company with
    | Some c => JsString.join " " (CompanyValuation.warnings c)
    | None => EmptyString
    end ].

(** The download made by a fund card's button, if any. *)
Definition handleDownloadFundHoldings `{Runtime}
    (fund : FundValuation.t) (fundGeneratedAt : option string) : option Download :=
  if (length (FundValuation.holdings fund) =? 0)%nat then None
  else
    let headers := fundHoldingsExportHeaders in
    let rows := fundHoldingsExportRow <$> FundValuation.holdings fund in
    let timestamp := filenameTimestamp fundGeneratedAt in
    let prefix :=
      if JsString.truthy (FundValuation.ticker fund) then FundValuation.ticker fund
      else "fund"%string in
    let filename := JsString.toLowerCase (prefix +:+ "-holdings-" +:+ timestamp +:+ ".csv") in
    let csvContent := createCsvContent headers rows in
    Some {| filename := filename; csvContent := csvContent |}.

(** ** Tables as rendered *)

(** What the table area shows: a table (header cells, then one row of cells
    per entity) or a notice in its place. *)
Inductive TableView :=
| Table (head : list string) (body : list (list string))
| Notice (text : string).

Definition portfolioTable
    (visiblePortfolioColumns : list PortfolioColumn.t)
    (portfolioResult : list CompanyValuation.t) : TableView :=
  if (0 <? length visiblePortfolioColumns)%nat
  then Table (PortfolioColumn.label <$> visiblePortfolioColumns)
         ((fun company =>
             (fun column => PortfolioColumn.renderCell column company)
             <$> visiblePortfolioColumns)
          <$> portfolioResult)
  else Notice "Select at least one column to display results.".

(** ** Presentation order of a fund's holdings *)

(** [Array.prototype.sort(comparefn)] is a stable sort: for a consistent
    comparator the result is determined, and it is the one computed here by
    insertion. An element moves behind its neighbour only when the comparator
    is positive; zero and [NaN] leave the two in their order. *)
Fixpoint sortInsert {A} (comparefn : A -> A -> float) (x : A) (sorted : list A) : list A :=
  match sorted with
  | [] => [x]
  | y :: rest =>
      if JsNumber.positive (comparefn x y) then y :: sortInsert comparefn x rest
      else x :: y :: rest
  end.

Definition sorted {A} (comparefn : A -> A -> float) (items : list A) : list A :=
  foldr (sortInsert comparefn) [] items.

(** The comparator of the holdings table. *)
Definition compareHoldings (a b : FundHoldingValuation.t) : float :=
  let weightA := default PrimFloat.neg_infinity (FundHoldingValuation.weight a) in
  let weightB := default PrimFloat.neg_infinity (FundHoldingValuation.weight b) in
  (weightB - weightA)%float.

(** Arrays are objects: [slice] allocates a copy and [sort] reorders the
    array it is called on, in place. The store maps array references to
    their contents. *)
Module ArrayStore.

Definition ref := nat.

Definition slice {A} (r : ref) (store : gmap ref (list A)) : option (ref * gmap ref (list A)) :=
  items ← store !! r;
  let copy := fresh (dom store) in
  Some (copy, <[copy := items]> store).

Definition sort {A} (comparefn : A -> A -> float) (r : ref) (store : gmap ref (list A))
    : option (ref * gmap ref (list A)) :=
  items ← store !! r;
  Some (r, <[r := sorted comparefn items]> store).

End ArrayStore.

(** [fund.holdings.slice().sort(...)], with [fund.holdings] at [holdings]:
    the rows in the order shown, and the store afterwards. *)
Definition holdingRows (holdings : ArrayStore.ref)
    (store : gmap ArrayStore.ref (list FundHoldingValuation.t))
    : option (list FundHoldingValuation.t * gmap ArrayStore.ref (list FundHoldingValuation.t)) :=
  '(copy, store1) ← ArrayStore.slice holdings store;
  '(result, store2) ← ArrayStore.sort compareHoldings copy store1;
  rows ← store2 !! result;
  Some (rows, store2).

Definition fundHoldingsTable
    (visibleFundHoldingColumns : list FundHoldingColumn.t)
    (rows : list FundHoldingValuation.t) : TableView :=
  if (0 <? length visibleFundHoldingColumns)%nat
  then Table (FundHoldingColumn.label <$> visibleFundHoldingColumns)
         ((fun holding =>
             (fun column => FundHoldingColumn.renderCell column holding)
             <$> visibleFundHoldingColumns)
          <$> rows)
  else Notice "Select at least one column to display holdings.".

(** ** Page state and request handlers *)

Inductive Tab := PortfolioTab | FundsTab.

Module State.
Record t := mk {
  asOfDate : string;
  portfolioRows : list PortfolioInputRow.t;
  fundRows : list FundInputRow.t;
  portfolioResult : list CompanyValuation.t;
  fundResult : list FundValuation.t;
  portfolioGeneratedAt : option string;
  fundGeneratedAt : option string;
  portfolioLoading : bool;
  fundLoading : bool;
  error : option string;
  activeTab : Tab
}.

Definition setError (v : option string) (s : t) : t :=
  mk (asOfDate s) (portfolioRows s) (fundRows s) (portfolioResult s) (fundResult s)
     (portfolioGeneratedAt s) (fundGeneratedAt s) (portfolioLoading s) (fundLoading s)
     v (activeTab s).
Definition setPortfolioLoading (v : bool) (s : t) : t :=
  mk (asOfDate s) (portfolioRows s) (fundRows s) (portfolioResult s) (fundResult s)
     (portfolioGeneratedAt s) (fundGeneratedAt s) v (fundLoading s)
     (error s) (activeTab s).
Definition setFundLoading (v : bool) (s : t) : t :=
  mk (asOfDate s) (portfolioRows s) (fundRows s) (portfolioResult s) (fundResult s)
     (portfolioGeneratedAt s) (fundGeneratedAt s) (portfolioLoading s) v
     (error s) (activeTab s).
Definition setPortfolioResult (v : list CompanyValuation.t) (s : t) : t :=
  mk (asOfDate s) (portfolioRows s) (fundRows s) v (fundResult s)
     (portfolioGeneratedAt s) (fundGeneratedAt s) (portfolioLoading s) (fundLoading s)
     (error s) (activeTab s).
Definition setFundResult (v : list FundValuation.t) (s : t) : t :=
  mk (asOfDate s) (portfolioRows s) (fundRows s) (portfolioResult s) v
     (portfolioGeneratedAt s) (fundGeneratedAt s) (portfolioLoading s) (fundLoading s)
     (error s) (activeTab s).
Definition setPortfolioGeneratedAt (v : option string) (s : t) : t :=
  mk (asOfDate s) (portfolioRows s) (fundRows s) (portfolioResult s) (fundResult s)
     v (fundGeneratedAt s) (portfolioLoading s) (fundLoading s)
     (error s) (activeTab s).
Definition setFundGeneratedAt (v : option string) (s : t) : t :=
  mk (asOfDate s) (portfolioRows s) (fundRows s) (portfolioResult s) (fundResult s)
     (portfolioGeneratedAt s) v (portfolioLoading s) (fundLoading s)
     (error s) (activeTab s).

Definition setActiveTab (v : Tab) (s : t) : t :=
  mk (asOfDate s) (portfolioRows s) (fundRows s) (portfolioResult s) (fundResult s)
     (portfolioGeneratedAt s) (fundGeneratedAt s) (portfolioLoading s) (fundLoading s)
     (error s) v.

(** The state of a freshly mounted page. *)
Definition initial : t :=
  mk EmptyString [PortfolioInputRow.mk EmptyString EmptyString EmptyString]
     [FundInputRow.mk EmptyString EmptyString] [] [] None None false false None
     PortfolioTab.
End State.

(** How the request of a handler ends: the response is ok and its body is
    the payload; the response is not ok and carries a text body; or the
    fetch (or the decoding) throws, an [Error] with a message or another
    value. *)
Inductive FetchOutcome :=
| Fulfilled (payload : ValuationResponse.t)
| NotOk (body : string)
| Thrown (message : option string).

(** The message a handler's [catch] block reports. *)
Definition failureMessage (fallbackNotOk fallbackThrown : string)
    (outcome : FetchOutcome) : option string :=
  match outcome with
  | Fulfilled _ => None
  | NotOk body => Some (if JsString.truthy body then body else fallbackNotOk)
  | Thrown (Some message) => Some message
  | Thrown None => Some fallbackThrown
  end.

(** [handlePortfolioSubmit] up to its [await]: the state after the
    synchronous part, and whether a request was sent. *)
Definition handlePortfolioSubmit_begin (s : State.t) : State.t * bool :=
  match State.activeTab s with
  | FundsTab => (s, false)
  | PortfolioTab =>
      if negb (JsString.truthy (State.asOfDate s))
      then (State.setError (Some "Select an as-of date before requesting valuations."%string) s,
            false)
      else
        let portfolioPayload :=
          List.filter (fun row => JsString.truthy (JsString.trim (PortfolioInputRow.ticker row)))
            (State.portfolioRows s) in
        if (length portfolioPayload =? 0)%nat
        then (State.setError (Some "Add at least one company ticker."%string) s, false)
        else (State.setPortfolioLoading true (State.setError None s), true)
  end.

(** [handlePortfolioSubmit] from the point its request settles. *)
Definition handlePortfolioSubmit_settle (outcome : FetchOutcome) (s : State.t) : State.t :=
  let s1 :=
    match outcome with
    | Fulfilled payload =>
        State.setPortfolioGeneratedAt (Some (ValuationResponse.generated_at payload))
          (State.setPortfolioResult (ValuationResponse.portfolio payload) s)
    | _ =>
        State.setError
          (failureMessage "Unable to fetch valuations."
             "Unexpected error requesting valuations." outcome) s
    end in
  State.setPortfolioLoading false s1.

Definition handleFundFetch_begin (s : State.t) : State.t * bool :=
  if negb (JsString.truthy (State.asOfDate s))
  then (State.setError (Some "Select an as-of date before requesting fund holdings."%string) s,
        false)
  else
    let fundPayload :=
      List.filter (fun row => JsString.truthy (JsString.trim (FundInputRow.ticker row)))
        (State.fundRows s) in
    if (length fundPayload =? 0)%nat
    then (State.setError (Some "Add at least one fund or ETF ticker."%string) s, false)
    else (State.setFundLoading true (State.setError None s), true).

Definition handleFundFetch_settle (outcome : FetchOutcome) (s : State.t) : State.t :=
  let s1 :=
    match outcome with
    | Fulfilled payload =>
        State.setFundGeneratedAt (Some (ValuationResponse.generated_at payload))
          (State.setFundResult (ValuationResponse.funds payload) s)
    | _ =>
        State.setError
          (failureMessage "Unable to fetch fund holdings."
             "Unexpected error requesting fund holdings." outcome) s
    end in
  State.setFundLoading false s1.

(** What happens to the page, one event at a time. *)
Inductive Event :=
| TabSelected (tab : Tab)
| PortfolioSubmitted
| PortfolioSettled (outcome : FetchOutcome)
| FundFetchClicked
| FundSettled (outcome : FetchOutcome).

Definition step (s : State.t) (e : Event) : State.t :=
  match e with
  | TabSelected tab => State.setActiveTab tab s
  | PortfolioSubmitted => fst (handlePortfolioSubmit_begin s)
  | PortfolioSettled outcome => handlePortfolioSubmit_settle outcome s
  | FundFetchClicked => fst (handleFundFetch_begin s)
  | FundSettled outcome => handleFundFetch_settle outcome s
  end.

Definition run (events : list Event) (s : State.t) : State.t := foldl step s events.

(** ** A reference runtime

    One implementation of [Runtime], used to run the definitions on
    examples: numbers are rendered from their exact binary value, rounded
    half away from zero to the requested digits, with the grouping and the
    signs of the en-US locale. [toFixed] follows the algorithm of the
    language for magnitudes below 1e21 (above, the language switches to
    exponent notation, which is not reproduced). Timestamps are expected in
    the form [toISOString] emits, and the clock is fixed. *)

Module ReferenceRuntime.

Definition digitsOf (n : Z) : string :=
  DecimalString.NilZero.string_of_uint (N.to_uint (Z.to_N n)).

Fixpoint zeros (n : nat) : string :=
  match n with
  | O => EmptyString
  | S k => String "0" (zeros k)
  end.

Definition padLeft (width : nat) (s : string) : string :=
  zeros (width - String.length s) +:+ s.

(** [round (|x| * 10 ^ digits)], half away from zero, for a finite [x]. *)
Definition scaled (digits : nat) (x : float) : Z :=
  match Prim2SF x with
  | S754_finite _ m e =>
      let num := Z.pos m * 10 ^ Z.of_nat digits * (if 0 <=? e then 2 ^ e else 1) in
      let den := if 0 <=? e then 1 else 2 ^ (- e) in
      (2 * num + den) / (2 * den)
  | _ => 0
  end.

Definition integerPart (digits : nat) (n : Z) : string :=
  let s := padLeft (S digits) (digitsOf n) in
  substring 0 (String.length s - digits) s.

Definition fractionPart (digits : nat) (n : Z) : string :=
  let s := padLeft (S digits) (digitsOf n) in
  substring (String.length s - digits) digits s.

(** Commas between groups of three digits, from the right. *)
Fixpoint group (s : string) : string :=
  match s with
  | EmptyString => EmptyString
  | String c rest =>
      if (0 <? String.length rest)%nat && (String.length rest mod 3 =? 0)%nat
      then String c (String "," (group rest))
      else String c (group rest)
  end.

(** Trailing zeros removed, down to [keep] characters. *)
Fixpoint stripZeros (keep : nat) (s : string) : string :=
  match keep, s with
  | S k, String c rest => String c (stripZeros k rest)
  | _, EmptyString => EmptyString
  | O, String c rest =>
      match stripZeros O rest with
      | EmptyString => if Ascii.eqb c "0" then EmptyString else String c EmptyString
      | kept => String c kept
      end
  end.

Definition withFraction (whole fraction : string) : string :=
  match fraction with
  | EmptyString => whole
  | _ => whole +:+ "." +:+ fraction
  end.

Definition numberFormat (minimum maximum : nat) (x : float) : string :=
  if PrimFloat.is_nan x then "NaN"
  else
    let sign := if PrimFloat.get_sign x then "-"%string else EmptyString in
    if PrimFloat.is_infinity x then sign +:+ "∞"
    else
      let n := scaled maximum x in
      sign +:+ withFraction (group (integerPart maximum n))
                 (stripZeros minimum (fractionPart maximum n)).

Definition toFixed (digits : nat) (x : float) : string :=
  if PrimFloat.is_nan x then "NaN"
  else
    let sign := if (x <? PrimFloat.zero)%float then "-"%string else EmptyString in
    if PrimFloat.is_infinity x then sign +:+ "Infinity"
    else
      let n := scaled digits x in
      sign +:+ withFraction (integerPart digits n) (fractionPart digits n).

Definition EPOCH : string := "1970-01-01T00:00:00.000Z".

Definition filenameTimestamp (value : option string) : string :=
  JsString.replaceAll ":" "-" (default EPOCH value).

End ReferenceRuntime.

Definition referenceRuntime : Runtime :=
  {| numberFormat := ReferenceRuntime.numberFormat;
     toFixed := ReferenceRuntime.toFixed;
     filenameTimestamp := ReferenceRuntime.filenameTimestamp |}.

(** ** Notions used to state the properties *)

(** The key under which a ledger files a row. *)
Definition ledgerKey (ticker : string) : string :=
  JsString.toUpperCase (JsString.trim ticker).

(** The amount a ledger takes from a row, if it takes one. *)
Definition usableAmount (amount : string) : option float :=
  let v := JsNumber.Number amount in
  if JsNumber.isFinite v then Some v else None.

(** The amounts entered for [key], in row order. *)
Fixpoint amountsFor (key : string) (entries : list (string * string)) : list float :=
  match entries with
  | [] => []
  | (ticker, amount) :: rest =>
      if String.eqb (ledgerKey ticker) key
      then match usableAmount amount with
           | Some a => a :: amountsFor key rest
           | None => amountsFor key rest
           end
      else amountsFor key rest
  end.

(** Their sum, taken from zero in row order (addition of binary64 numbers
    is not associative). *)
Definition total (amounts : list float) : float :=
  foldl PrimFloat.add PrimFloat.zero amounts.

(** What a ledger is expected to hold for [key]. *)
Definition ledgerEntry (key : string) (entries : list (string * string)) : option float :=
  if JsString.truthy key
  then match amountsFor key entries with
       | [] => None
       | amounts => Some (total amounts)
       end
  else None.

Definition portfolioEntries (rows : list PortfolioInputRow.t) : list (string * string) :=
  (fun row => (PortfolioInputRow.ticker row, PortfolioInputRow.amount row)) <$> rows.

Definition fundEntries (rows : list FundInputRow.t) : list (string * string) :=
  (fun row => (FundInputRow.ticker row, FundInputRow.amount row)) <$> rows.

(** A string of white space only (the empty string included). *)
Fixpoint isBlank (s : string) : bool :=
  match s with
  | EmptyString => true
  | String c rest => JsString.isWhiteSpace c && isBlank rest
  end.

(** What the portfolio mode shows of its own (its spinner, its table and
    the time of its results) together with what its handler reads, and the
    same for the fund mode. *)
Definition portfolioSide (s : State.t) :=
  (State.asOfDate s, State.activeTab s, State.portfolioRows s,
   State.portfolioLoading s, State.portfolioResult s, State.portfolioGeneratedAt s).

Definition fundSide (s : State.t) :=
  (State.asOfDate s, State.fundRows s,
   State.fundLoading s, State.fundResult s, State.fundGeneratedAt s).

(** The same number, up to the sign of zero: what [===] decides on numbers
    other than [NaN]. *)
Definition sameNumber (x y : float) : Prop :=
  x = y \/ (PrimFloat.is_zero x = true /\ PrimFloat.is_zero y = true).

(** The integers with two infinities, and the position of a binary64 value
    among them: a finite value [m * 2 ^ e] is placed at [m * 2 ^ (e + 1074)],
    an integer since no exponent is below -1074. *)
Inductive Ext := NegInf | Fin (z : Z) | PosInf.

Definition Ext_compare (a b : Ext) : comparison :=
  match a, b with
  | NegInf, NegInf => Eq
  | NegInf, _ => Lt
  | _, NegInf => Gt
  | PosInf, PosInf => Eq
  | PosInf, _ => Gt
  | _, PosInf => Lt
  | Fin x, Fin y => Z.compare x y
  end.

Definition position (x : spec_float) : Ext :=
  match x with
  | S754_nan => Fin 0
  | S754_zero _ => Fin 0
  | S754_infinity s => if s then NegInf else PosInf
  | S754_finite s m e => Fin (cond_Zopp s (Z.pos m * 2 ^ (e + 1074)))
  end.

Definition notNaN (x : float) : Prop := Prim2SF x <> S754_nan.

(** The weight a holding is compared by, and the holdings a fund may
    present in the order [a], [b]. *)
Definition weightKey (holding : FundHoldingValuation.t) : float :=
  default PrimFloat.neg_infinity (FundHoldingValuation.weight holding).

Definition mayPrecede (a b : FundHoldingValuation.t) : Prop :=
  (weightKey b <=? weightKey a)%float = true.

Definition knownWeightsFinite (holdings : list FundHoldingValuation.t) : bool :=
  forallb (fun holding =>
             match FundHoldingValuation.weight holding with
             | Some w => PrimFloat.is_finite w
             | None => true
             end) holdings.

(** A value that is finite or infinite with sign [s]: the shape of a
    rounded non-zero number. *)
Definition signed (s : bool) (r : spec_float) : Prop :=
  match r with
  | S754_finite s' _ _ | S754_infinity s' => s' = s
  | _ => False
  end.


(** One turn of the loop that builds a ledger, on the ticker and the
    amount of a row. *)
Definition ledgerStep (map : gmap string float) (entry : string * string) : gmap string float :=
  let key := ledgerKey entry.1 in
  if JsString.truthy key
  then match usableAmount entry.2 with
       | Some a => <[key := (default PrimFloat.zero (map !! key) + a)%float]> map
       | None => map
       end
  else map.

(** ** Sample data *)

Module Sample.

(** Numbers as they arrive in a JSON body: the value nearest the decimal
    literal. *)
Definition json (literal : string) : option float := Some (JsNumber.Number literal).

Definition AAPL : CompanyValuation.t :=
  {| CompanyValuation.ticker := "AAPL";
     CompanyValuation.company_name := Some "Apple Inc."%string;
     CompanyValuation.currency := Some "USD"%string;
     CompanyValuation.data_date := Some "2024-09-28"%string;
     CompanyValuation.price_date := Some "2024-12-31"%string;
     CompanyValuation.cash_and_equivalents := json "100";
     CompanyValuation.receivables := json "50";
     CompanyValuation.inventories := json "25";
     CompanyValuation.market_price := json "17.5";
     CompanyValuation.shares_outstanding := json "1000";
     CompanyValuation.cri_per_share := json "0.175";
     CompanyValuation.cri_to_market_price_ratio := json "0.01";
     CompanyValuation.shares := None;
     CompanyValuation.warnings := ["Shares outstanding are stale."; "Price delayed."]%string |}.

(** A company whose ratio arrived as the literal 1e999, which decodes to
    [Infinity]. *)
Definition OVERFLOW : CompanyValuation.t :=
  {| CompanyValuation.ticker := "OVFL";
     CompanyValuation.company_name := None;
     CompanyValuation.currency := None;
     CompanyValuation.data_date := None;
     CompanyValuation.price_date := None;
     CompanyValuation.cash_and_equivalents := None;
     CompanyValuation.receivables := None;
     CompanyValuation.inventories := None;
     CompanyValuation.market_price := None;
     CompanyValuation.shares_outstanding := None;
     CompanyValuation.cri_per_share := None;
     CompanyValuation.cri_to_market_price_ratio := json "1e999";
     CompanyValuation.shares := None;
     CompanyValuation.warnings := [] |}.

Definition portfolioRows : list PortfolioInputRow.t :=
  [ PortfolioInputRow.mk "aapl" EmptyString "100000";
    PortfolioInputRow.mk "ovfl" EmptyString "100" ].

Definition twiceRows : list PortfolioInputRow.t :=
  [ PortfolioInputRow.mk " aapl" EmptyString "100";
    PortfolioInputRow.mk "AAPL " EmptyString "250.5" ].

Definition blankRow : PortfolioInputRow.t := PortfolioInputRow.mk "aapl" "10" "  ".
Definition blankFundRow : FundInputRow.t := FundInputRow.mk "voo" " ".

Definition holdingAAPL : FundHoldingValuation.t :=
  {| FundHoldingValuation.ticker := Some "AAPL"%string;
     FundHoldingValuation.name := Some "Apple Inc."%string;
     FundHoldingValuation.isin := Some "US0378331005"%string;
     FundHoldingValuation.cusip := Some "037833100"%string;
     FundHoldingValuation.weight := json "0.07";
     FundHoldingValuation.company := Some AAPL;
     FundHoldingValuation.warnings := [] |}.

Definition holdingMSFT : FundHoldingValuation.t :=
  {| FundHoldingValuation.ticker := Some "MSFT"%string;
     FundHoldingValuation.name := Some "msft"%string;
     FundHoldingValuation.isin := None;
     FundHoldingValuation.cusip := None;
     FundHoldingValuation.weight := json "0.065";
     FundHoldingValuation.company := None;
     FundHoldingValuation.warnings := ["No financial data matched."%string] |}.

Definition holdingCash : FundHoldingValuation.t :=
  {| FundHoldingValuation.ticker := None;
     FundHoldingValuation.name := Some "Cash and other"%string;
     FundHoldingValuation.isin := None;
     FundHoldingValuation.cusip := None;
     FundHoldingValuation.weight := None;
     FundHoldingValuation.company := None;
     FundHoldingValuation.warnings := ["Holding has no ticker."%string] |}.

Definition VOO : FundValuation.t :=
  {| FundValuation.ticker := "VOO";
     FundValuation.fund_name := Some "Vanguard S&P 500 ETF"%string;
     FundValuation.currency := Some "USD"%string;
     FundValuation.market_price := json "500";
     FundValuation.price_date := Some "2024-12-31"%string;
     FundValuation.aggregate_cri_per_share := None;
     FundValuation.aggregate_cri_to_market_price_ratio := json "0.008";
     FundValuation.total_weight_covered := json "0.8";
     FundValuation.holdings := [holdingCash; holdingMSFT; holdingAAPL];
     FundValuation.warnings := [] |}.

Definition fundRows : list FundInputRow.t := [FundInputRow.mk "voo" "50000"].

(** A store in which the holdings of the fund are the array at 0. *)
Definition store : gmap ArrayStore.ref (list FundHoldingValuation.t) :=
  {[ 0%nat := FundValuation.holdings VOO ]}.

(** A field value with a comma and quotation marks, and its CSV form. *)
Definition acme : string :=
  "Acme, Inc. " +:+ String QUOTE ("East" +:+ String QUOTE EmptyString).

Definition acmeQuoted : string :=
  String QUOTE ("Acme, Inc. " +:+ String QUOTE (String QUOTE
    ("East" +:+ String QUOTE (String QUOTE (String QUOTE EmptyString))))).

(** A page with a date and both kinds of tickers entered, and a response
    of the service. *)
Definition page : State.t :=
  State.mk "2024-12-31" portfolioRows fundRows [] [] None None false false None
    PortfolioTab.

Definition response : ValuationResponse.t :=
  ValuationResponse.mk "2025-01-02T03:04:05.000Z" "2024-12-31" [AAPL] [VOO].

Definition generatedAt : option string := Some "2025-01-02T03:04:05.000Z"%string.

(** The portfolio column configuration after every column was switched
    off, and the fund holdings configuration after "weight" was. *)
Definition allHidden `{Runtime} : gmap string ColumnConfig.t :=
  foldr (fun column config =>
           handlePortfolioColumnVisibilityChange (portfolioColumns ∅)
             (PortfolioColumn.id column) false config)
        (initialPortfolioColumnConfig (portfolioColumns ∅))
        (portfolioColumns ∅).

Definition weightHidden `{Runtime} : gmap string ColumnConfig.t :=
  handleFundColumnVisibilityChange fundHoldingColumns "weight" false
    (initialFundHoldingColumnConfig fundHoldingColumns).

End Sample.

(** * More of the page *)

(** ** Editing the input rows *)

Inductive PortfolioField := PortfolioTicker | PortfolioShares | PortfolioAmount.
Inductive FundField := FundTicker | FundAmount.

(** [{...row, [key]: key === "ticker" ? value.toUpperCase() : value}] *)
Definition withPortfolioField (key : PortfolioField) (value : string)
    (row : PortfolioInputRow.t) : PortfolioInputRow.t :=
  match key with
  | PortfolioTicker =>
      PortfolioInputRow.mk (JsString.toUpperCase value)
        (PortfolioInputRow.shares row) (PortfolioInputRow.amount row)
  | PortfolioShares =>
      PortfolioInputRow.mk (PortfolioInputRow.ticker row) value (PortfolioInputRow.amount row)
  | PortfolioAmount =>
      PortfolioInputRow.mk (PortfolioInputRow.ticker row) (PortfolioInputRow.shares row) value
  end.

Definition withFundField (key : FundField) (value : string)
    (row : FundInputRow.t) : FundInputRow.t :=
  match key with
  | FundTicker => FundInputRow.mk (JsString.toUpperCase value) (FundInputRow.amount row)
  | FundAmount => FundInputRow.mk (FundInputRow.ticker row) value
  end.

(** The update a change of an input makes to the rows. The page calls it
    with the index of a rendered row; for an index beyond the rows the
    source would store an object that has the one field only, which is no
    row, and the model has no result ([None]). *)
Definition handlePortfolioChange (index : nat) (key : PortfolioField) (value : string)
    (prev : list PortfolioInputRow.t) : option (list PortfolioInputRow.t) :=
  match prev !! index with
  | Some row => Some (<[index := withPortfolioField key value row]> prev)
  | None => None
  end.

Definition handleFundChange (index : nat) (key : FundField) (value : string)
    (prev : list FundInputRow.t) : option (list FundInputRow.t) :=
  match prev !! index with
  | Some row => Some (<[index := withFundField key value row]> prev)
  | None => None
  end.

Definition addPortfolioRow (prev : list PortfolioInputRow.t) : list PortfolioInputRow.t :=
  prev ++ [PortfolioInputRow.mk EmptyString EmptyString EmptyString].

(** [prev.filter((_, idx) => idx !== index)] *)
Definition removePortfolioRow (index : nat) (prev : list PortfolioInputRow.t)
    : list PortfolioInputRow.t :=
  snd <$> List.filter (fun entry => negb (fst entry =? index)%nat) (imap pair prev).

Definition addFundRow (prev : list FundInputRow.t) : list FundInputRow.t :=
  prev ++ [FundInputRow.mk EmptyString EmptyString].

Definition removeFundRow (index : nat) (prev : list FundInputRow.t) : list FundInputRow.t :=
  snd <$> List.filter (fun entry => negb (fst entry =? index)%nat) (imap pair prev).

(** ** The request bodies *)

Module PortfolioPayloadItem.
Record t := mk { ticker : string; shares : option float; amount : option float }.
End PortfolioPayloadItem.

Module FundPayloadItem.
Record t := mk { ticker : string; amount : option float }.
End FundPayloadItem.

(** [text ? Number(text) : undefined] *)
Definition optionalNumber (text : string) : option float :=
  if JsString.truthy text then Some (JsNumber.Number text) else None.

Definition portfolioPayload (portfolioRows : list PortfolioInputRow.t)
    : list PortfolioPayloadItem.t :=
  (fun row =>
     PortfolioPayloadItem.mk (JsString.trim (PortfolioInputRow.ticker row))
       (optionalNumber (PortfolioInputRow.shares row))
       (optionalNumber (PortfolioInputRow.amount row)))
  <$> List.filter (fun row => JsString.truthy (JsString.trim (PortfolioInputRow.ticker row)))
        portfolioRows.

Definition fundPayload (fundRows : list FundInputRow.t) : list FundPayloadItem.t :=
  (fun row =>
     FundPayloadItem.mk (JsString.trim (FundInputRow.ticker row))
       (optionalNumber (FundInputRow.amount row)))
  <$> List.filter (fun row => JsString.truthy (JsString.trim (FundInputRow.ticker row)))
        fundRows.

(** ** More of the column configuration *)

Definition healFundHoldingColumnConfig (fundHoldingColumns : list FundHoldingColumn.t)
    (prev : gmap string ColumnConfig.t) : gmap string ColumnConfig.t :=
  foldl (fun next column =>
           match next !! FundHoldingColumn.id column with
           | Some _ => next
           | None => <[FundHoldingColumn.id column :=
                         defaultColumnConfig (FundHoldingColumn.defaultWidth column)]> next
           end)
        prev fundHoldingColumns.

Definition handleFundColumnWidthChange (columnId : string) (width : float)
    (prev : gmap string ColumnConfig.t) : gmap string ColumnConfig.t :=
  <[columnId := {| ColumnConfig.visible :=
                     default true (ColumnConfig.visible <$> prev !! columnId);
                   ColumnConfig.width := width |}]> prev.

(** The width a column is rendered with:
    [config[column.id]?.width ?? column.defaultWidth]. *)
Definition portfolioColumnWidth (portfolioColumnConfig : gmap string ColumnConfig.t)
    (column : PortfolioColumn.t) : float :=
  default (PortfolioColumn.defaultWidth column)
    (ColumnConfig.width <$> portfolioColumnConfig !! PortfolioColumn.id column).

Definition fundHoldingColumnWidth (fundHoldingColumnConfig : gmap string ColumnConfig.t)
    (column : FundHoldingColumn.t) : float :=
  default (FundHoldingColumn.defaultWidth column)
    (ColumnConfig.width <$> fundHoldingColumnConfig !! FundHoldingColumn.id column).

(** ** The timestamp in file names *)

(** What the platform provides for dates: [dateOf v] is [new Date(v)],
    [now] is [new Date()], [invalid d] is [Number.isNaN(d.getTime())] and
    [toISOString d] is [d.toISOString()]. *)
Class DateRuntime := {
  Date : Type;
  dateOf : string -> Date;
  now : Date;
  invalid : Date -> bool;
  toISOString : Date -> string
}.

Definition buildFilenameTimestamp `{DateRuntime} (value : option string) : string :=
  let base :=
    match value with
    | Some v => if JsString.truthy v then dateOf v else now
    | None => now
    end in
  let safeDate := if invalid base then now else base in
  JsString.replaceAll ":" "-" (toISOString safeDate).

(** ** Reading a CSV text

    A reader of the usual kind: fields are separated by commas and records
    by line feeds, a field may stand between quotation marks, and inside
    such a field two quotation marks stand for one. It is not part of the
    page; it serves to show that what the exporter writes can be read
    back. The field being read is the first of the first record. *)
Module CsvReader.

Definition push (c : ascii) (table : list (list string)) : list (list string) :=
  match table with
  | (field :: fields) :: records => (String c field :: fields) :: records
  | [] :: records => [String c EmptyString] :: records
  | [] => [[String c EmptyString]]
  end.

Definition endField (table : list (list string)) : list (list string) :=
  match table with
  | fields :: records => (EmptyString :: fields) :: records
  | [] => [[EmptyString; EmptyString]]
  end.

Definition endRecord (table : list (list string)) : list (list string) :=
  [EmptyString] :: table.

Fixpoint read (quoted : bool) (text : string) : list (list string) :=
  match text with
  | EmptyString => [[EmptyString]]
  | String c rest =>
      if quoted then
        if Ascii.eqb c QUOTE then
          match rest with
          | String d rest' =>
              if Ascii.eqb d QUOTE then push QUOTE (read true rest')
              else read false rest
          | EmptyString => read false rest
          end
        else push c (read true rest)
      else if Ascii.eqb c QUOTE then read true rest
      else if Ascii.eqb c COMMA then endField (read false rest)
      else if Ascii.eqb c LF then endRecord (read false rest)
      else push c (read false rest)
  end.

(** The text after a field: nothing, or something that does not begin with
    a quotation mark. *)
Definition afterField (tail : string) : Prop :=
  match tail with
  | EmptyString => True
  | String d _ => d <> QUOTE
  end.

End CsvReader.

(** ** The theme provider *)

Module ThemeProvider.

Inductive Theme := light | mid | dark.

(** A theme is the string of its name. *)
Definition name (theme : Theme) : string :=
  match theme with
  | light => "light"
  | mid => "mid"
  | dark => "dark"
  end.

Definition Theme_eqb (a b : Theme) : bool := String.eqb (name a) (name b).

Definition KNOWN_THEMES : list Theme := [light; mid; dark].

(** The theme a stored string names, if [KNOWN_THEMES.includes] it. *)
Definition known (stored : string) : option Theme :=
  List.find (fun theme => String.eqb (name theme) stored) KNOWN_THEMES.

(** What the provider reads of the browser: the item kept in local
    storage and whether the system prefers a dark scheme. *)
Record Window := { stored : option string; prefersDark : bool }.

Definition getPreferredTheme (window : option Window) : Theme :=
  match window with
  | None => dark
  | Some w =>
      let fromStorage :=
        match stored w with
        | Some text => if JsString.truthy text then known text else None
        | None => None
        end in
      match fromStorage with
      | Some theme => theme
      | None => if prefersDark w then dark else light
      end
  end.

(** [Array.prototype.indexOf]: -1 when the element is absent. *)
Fixpoint indexOfFrom (start : Z) (theme : Theme) (themes : list Theme) : Z :=
  match themes with
  | [] => -1
  | t :: rest => if Theme_eqb t theme then start else indexOfFrom (start + 1) theme rest
  end.

Definition indexOf (theme : Theme) (themes : list Theme) : Z := indexOfFrom 0 theme themes.

(** The update [toggleTheme] makes: the next known theme, in a cycle. An
    index outside the array would give [undefined] ([None]). *)
Definition toggleTheme (previous : Theme) : option Theme :=
  let index := indexOf previous KNOWN_THEMES in
  let nextIndex := Z.rem (index + 1) (Z.of_nat (length KNOWN_THEMES)) in
  if nextIndex <? 0 then None else KNOWN_THEMES !! Z.to_nat nextIndex.

(** The provider in a browser: its state, the item it keeps in local
    storage and the attribute it sets on the document. *)
Record State := {
  theme : Theme;
  storage : option string;
  attribute : option string
}.

(** The effect that follows every change of the theme: it sets the
    attribute and stores the theme. *)
Definition commit (next : Theme) : State :=
  {| theme := next; storage := Some (name next); attribute := Some (name next) |}.

(** [setThemeState next]: a state equal to the current one renders nothing
    anew, and no effect runs. *)
Definition setThemeState (next : Theme) (s : State) : State :=
  if Theme_eqb next (theme s) then s else commit next.

(** Mounting in a browser window. The first render has the theme "dark";
    its effects run in order: the first reads the preferred theme and asks
    for it, the second sets the attribute and stores "dark"; then the
    preferred theme is rendered and stored in turn. *)
Definition mount (window : Window) : State :=
  let preferred := getPreferredTheme (Some window) in
  setThemeState preferred (commit dark).

Inductive Event :=
| SetTheme (next : Theme)
| ToggleTheme
| SchemeChanged (matchesDark : bool).

Definition step (s : State) (e : Event) : State :=
  match e with
  | SetTheme next => setThemeState next s
  | ToggleTheme =>
      match toggleTheme (theme s) with
      | Some next => setThemeState next s
      | None => s
      end
  | SchemeChanged matchesDark =>
      let fromStorage :=
        match storage s with
        | Some text => if JsString.truthy text then known text else None
        | None => None
        end in
      match fromStorage with
      | Some _ => s
      | None => setThemeState (if matchesDark then dark else light) s
      end
  end.

Definition run (events : list Event) (s : State) : State := foldl step s events.

(** The stored item and the attribute of the document name the theme of
    the state. *)
Definition synced (s : State) : Prop :=
  storage s = Some (name (theme s)) /\ attribute s = Some (name (theme s)).

Definition isSchemeChanged (e : Event) : bool :=
  match e with SchemeChanged _ => true | _ => false end.

End ThemeProvider.

(** ** Predicates on runs of the request handlers *)

(** The events that store a result of the portfolio mode, and those of the
    fund mode. *)
Definition storesPortfolioResult (e : Event) : bool :=
  match e with PortfolioSettled (Fulfilled _) => true | _ => false end.

Definition storesFundResult (e : Event) : bool :=
  match e with FundSettled (Fulfilled _) => true | _ => false end.

Definition stamped (s : State.t) : Prop :=
  (State.portfolioResult s <> [] -> is_Some (State.portfolioGeneratedAt s))
  /\ (State.fundResult s <> [] -> is_Some (State.fundGeneratedAt s)).


(** ** Holdings of the same rank *)

(** Two holdings neither of which is compared as greater than the
    other. *)
Definition sameRank (a b : FundHoldingValuation.t) : bool :=
  ((weightKey b <=? weightKey a) && (weightKey a <=? weightKey b))%float.

Definition withoutWeight (holding : FundHoldingValuation.t) : bool :=
  match FundHoldingValuation.weight holding with
  | Some _ => false
  | None => true
  end.

(** ** A reference date runtime

    For examples: a date is its ISO string, taken to be valid when it has
    the 24 characters of one, and the clock is fixed. *)
Definition referenceDateRuntime : DateRuntime :=
  {| Date := string;
     dateOf := fun text => text;
     now := ReferenceRuntime.EPOCH;
     invalid := fun date => negb (String.length date =? 24)%nat;
     toISOString := fun date => date |}.

(** ** Numbers that are zero or above *)

(** A value that is neither [NaN] nor below zero (a zero of either sign
    included). *)
Definition nonNegative (r : spec_float) : Prop :=
  match r with
  | S754_zero _ => True
  | S754_infinity s | S754_finite s _ _ => s = false
  | S754_nan => False
  end.


(** * Properties *)

(** ** Binary64 arithmetic

    Facts about the primitive operations, derived from their specification
    in [FloatAxioms]: comparison agrees with the position of the values, a
    difference has the sign of the comparison of its operands, and zero
    behaves as expected in sums and products. *)

Module Binary64.

Lemma digits2_size p : digits2_pos p = Pos.size p.
Proof. induction p; simpl; congruence. Qed.

Lemma digits_bounds p :
  2 ^ (Z.pos (digits2_pos p) - 1) <= Z.pos p < 2 ^ Z.pos (digits2_pos p).
Proof.
  rewrite digits2_size. split.
  - pose proof (Pos.size_le p) as H.
    apply Pos2Z.pos_le_pos in H. rewrite Pos2Z.inj_pow in H.
    replace (Z.pos (Pos.size p)) with (Z.succ (Z.pos (Pos.size p) - 1)) in H by lia.
    rewrite Z.pow_succ_r in H by lia. lia.
  - pose proof (Pos.size_gt p) as H.
    apply Pos2Z.pos_lt_pos in H. now rewrite Pos2Z.inj_pow in H.
Qed.

Lemma bounded_exponent m e :
  bounded prec emax m e = true ->
  -1074 <= e /\ Z.pos (digits2_pos m) <= 53 /\ (-1074 < e -> Z.pos (digits2_pos m) = 53).
Proof.
  unfold bounded, canonical_mantissa, fexp, SpecFloat.emin, prec, emax.
  intros H. apply andb_prop in H as [H _]. apply Z.eqb_eq in H. lia.
Qed.

Lemma canonical_order m1 e1 m2 e2 :
  bounded prec emax m1 e1 = true -> bounded prec emax m2 e2 = true -> e1 < e2 ->
  Z.pos m1 * 2 ^ (e1 + 1074) < Z.pos m2 * 2 ^ (e2 + 1074).
Proof.
  intros H1 H2 Hlt.
  apply bounded_exponent in H1 as (Ha & Hd1 & _).
  apply bounded_exponent in H2 as (_ & _ & Hd2).
  assert (He2 : -1074 < e2) by lia. specialize (Hd2 He2).
  pose proof (digits_bounds m1) as [_ Hm1].
  pose proof (digits_bounds m2) as [Hm2 _].
  rewrite Hd2 in Hm2.
  assert (Hp : Z.pos m1 < 2 ^ 53).
  { eapply Z.lt_le_trans; [exact Hm1|]. apply Z.pow_le_mono_r; lia. }
  replace (e2 + 1074) with ((e1 + 1074) + (e2 - e1)) by lia.
  rewrite (Z.pow_add_r 2 (e1 + 1074) (e2 - e1)) by lia.
  assert (Hk : 2 <= 2 ^ (e2 - e1)).
  { change 2 with (2 ^ 1) at 1. apply Z.pow_le_mono_r; lia. }
  assert (Hc : 0 < 2 ^ (e1 + 1074)) by (apply Z.pow_pos_nonneg; lia).
  apply Z.lt_le_trans with (2 ^ 53 * 2 ^ (e1 + 1074)).
  - apply Z.mul_lt_mono_pos_r; assumption.
  - replace (Z.pos m2 * (2 ^ (e1 + 1074) * 2 ^ (e2 - e1)))
      with ((Z.pos m2 * 2 ^ (e2 - e1)) * 2 ^ (e1 + 1074)) by ring.
    apply Z.mul_le_mono_nonneg_r; [lia|].
    change (2 ^ 53) with (2 ^ (53 - 1) * 2).
    apply Z.mul_le_mono_nonneg; lia.
Qed.

Lemma scaled_pos m e : 0 < Z.pos m * 2 ^ (e + 1074) \/ e + 1074 < 0.
Proof.
  destruct (Z_lt_le_dec (e + 1074) 0); [now right|left].
  apply Z.mul_pos_pos; [lia|]. apply Z.pow_pos_nonneg; lia.
Qed.

Lemma SFcompare_position x y :
  valid_binary x = true -> valid_binary y = true ->
  x <> S754_nan -> y <> S754_nan ->
  SFcompare x y = Some (Ext_compare (position x) (position y)).
Proof.
  intros Vx Vy Nx Ny.
  destruct x as [sx|sx| |sx mx ex], y as [sy|sy| |sy my ey];
    try congruence; cbn [SFcompare position Ext_compare cond_Zopp SpecFloat.valid_binary] in *;
    try (destruct sx; reflexivity); try (destruct sy; reflexivity);
    try (destruct sx, sy; reflexivity).
  - pose proof (bounded_exponent _ _ Vy) as (He & _).
    destruct (scaled_pos my ey) as [H|H]; [|lia].
    destruct sy; cbn [cond_Zopp]; f_equal; symmetry;
      [apply Z.compare_gt_iff | apply Z.compare_lt_iff]; lia.
  - pose proof (bounded_exponent _ _ Vx) as (He & _).
    destruct (scaled_pos mx ex) as [H|H]; [|lia].
    destruct sx; cbn [cond_Zopp]; f_equal; symmetry;
      [apply Z.compare_lt_iff | apply Z.compare_gt_iff]; lia.
  - pose proof (bounded_exponent _ _ Vx) as (Hex & _).
    pose proof (bounded_exponent _ _ Vy) as (Hey & _).
    destruct (scaled_pos mx ex) as [Hx|Hx]; [|lia].
    destruct (scaled_pos my ey) as [Hy|Hy]; [|lia].
    f_equal.
    assert (Hsame : ex = ey ->
              (Z.pos mx * 2 ^ (ex + 1074) ?= Z.pos my * 2 ^ (ey + 1074))
              = Pos.compare_cont Eq mx my).
    { intros ->. rewrite <- Zmult_compare_compat_r by lia. reflexivity. }
    destruct sx, sy; cbn [cond_Zopp].
    + destruct (Z.compare_spec ex ey) as [E|E|E].
      * rewrite <- (Hsame E), Z.compare_opp. symmetry. apply Z.compare_antisym.
      * pose proof (canonical_order _ _ _ _ Vx Vy E).
        symmetry. apply Z.compare_gt_iff. lia.
      * pose proof (canonical_order _ _ _ _ Vy Vx E).
        symmetry. apply Z.compare_lt_iff. lia.
    + symmetry. apply Z.compare_lt_iff. lia.
    + symmetry. apply Z.compare_gt_iff. lia.
    + destruct (Z.compare_spec ex ey) as [E|E|E].
      * now rewrite (Hsame E).
      * pose proof (canonical_order _ _ _ _ Vx Vy E).
        symmetry. apply Z.compare_lt_iff. lia.
      * pose proof (canonical_order _ _ _ _ Vy Vx E).
        symmetry. apply Z.compare_gt_iff. lia.
Qed.

Lemma shr_1_m mrs : 0 <= shr_m mrs -> shr_m (shr_1 mrs) = shr_m mrs / 2.
Proof.
  destruct mrs as [m r s]. cbn [shr_m]. intros Hm.
  destruct m as [|[p|p|]|p]; cbn [shr_1 shr_m]; try reflexivity; try lia.
  - rewrite Pos2Z.inj_xI. apply Z.div_unique with 1; lia.
  - rewrite Pos2Z.inj_xO. apply Z.div_unique with 0; lia.
Qed.

Lemma shr_m_nonneg n : forall mrs, 0 <= shr_m mrs -> 0 <= shr_m (SpecFloat.iter_pos shr_1 n mrs).
Proof.
  assert (H1 : forall mrs, 0 <= shr_m mrs -> 0 <= shr_m (shr_1 mrs)).
  { intros mrs Hm. rewrite shr_1_m by assumption. apply Z.div_pos; lia. }
  induction n; intros mrs Hm; cbn [SpecFloat.iter_pos]; auto.
Qed.

Lemma shr_iter n : forall mrs,
  0 <= shr_m mrs -> shr_m (SpecFloat.iter_pos shr_1 n mrs) = shr_m mrs / 2 ^ Z.pos n.
Proof.
  induction n as [n IH|n IH|]; intros mrs Hm; cbn [SpecFloat.iter_pos].
  - assert (Hp : 0 < 2 ^ Z.pos n) by (apply Z.pow_pos_nonneg; lia).
    assert (H1 : 0 <= shr_m (shr_1 mrs)).
    { rewrite shr_1_m by assumption. apply Z.div_pos; lia. }
    rewrite IH by (apply shr_m_nonneg; assumption).
    rewrite IH, shr_1_m by assumption.
    rewrite !Z.div_div by lia. f_equal.
    replace (Z.pos n~1) with (1 + Z.pos n + Z.pos n) by lia.
    rewrite !Z.pow_add_r by lia. change (2 ^ 1) with 2. ring.
  - assert (Hp : 0 < 2 ^ Z.pos n) by (apply Z.pow_pos_nonneg; lia).
    rewrite IH by (apply shr_m_nonneg; assumption).
    rewrite IH by assumption.
    rewrite !Z.div_div by lia. f_equal.
    replace (Z.pos n~0) with (Z.pos n + Z.pos n) by lia.
    rewrite !Z.pow_add_r by lia. change (2 ^ 1) with 2. ring.
  - rewrite shr_1_m by assumption. reflexivity.
Qed.

Lemma shr_fexp_positive p e l :
  -1074 <= e ->
  0 < shr_m (fst (shr_fexp prec emax (Z.pos p) e l)) /\
  -1074 <= snd (shr_fexp prec emax (Z.pos p) e l).
Proof.
  intros He. unfold shr_fexp, shr, Zdigits2, fexp, SpecFloat.emin, prec, emax.
  assert (Hrec : shr_m (shr_record_of_loc (Z.pos p) l) = Z.pos p)
    by (destruct l as [|[]]; reflexivity).
  destruct (Z.max (Z.pos (digits2_pos p) + e - 53) (3 - 1024 - 53) - e) as [|k|k] eqn:Hn;
    cbn [fst snd]; rewrite ?Hrec; try lia.
  split; [|lia].
  rewrite shr_iter by (rewrite Hrec; lia). rewrite Hrec.
  pose proof (digits_bounds p) as [Hlo _].
  assert (Hk : 2 ^ Z.pos k <= Z.pos p).
  { eapply Z.le_trans; [|exact Hlo]. apply Z.pow_le_mono_r; lia. }
  assert (Hp : 0 < 2 ^ Z.pos k) by (apply Z.pow_pos_nonneg; lia).
  apply Z.div_str_pos. lia.
Qed.

Lemma binary_round_aux_signed s p e :
  -1074 <= e -> signed s (binary_round_aux prec emax s (Z.pos p) e loc_Exact).
Proof.
  intros He. unfold binary_round_aux.
  pose proof (shr_fexp_positive p e loc_Exact He) as [Hm He'].
  destruct (shr_fexp prec emax (Z.pos p) e loc_Exact) as [mrs' e'].
  cbn [fst snd] in Hm, He'.
  assert (Hr : 0 < round_nearest_even (shr_m mrs') (loc_of_shr_record mrs')).
  { unfold round_nearest_even.
    destruct (loc_of_shr_record mrs') as [|[]]; try lia.
    destruct (Z.even (shr_m mrs')); lia. }
  destruct (round_nearest_even (shr_m mrs') (loc_of_shr_record mrs')) as [|q|q]; try lia.
  pose proof (shr_fexp_positive q e' loc_Exact He') as [Hm2 _].
  destruct (shr_fexp prec emax (Z.pos q) e' loc_Exact) as [mrs2 e2].
  cbn [fst] in Hm2.
  destruct (shr_m mrs2) as [|m2|m2]; try lia.
  destruct (e2 <=? emax - prec); reflexivity.
Qed.

Lemma binary_normalize_signed d e :
  -1074 <= e -> d <> 0 -> signed (d <? 0) (binary_normalize prec emax d e false).
Proof.
  intros He Hd.
  assert (Hround : forall s p, signed s (binary_round prec emax s p e)).
  { intros s p. unfold binary_round.
    destruct (shl_align p e (fexp prec emax (Z.pos (digits2_pos p) + e))) as [mz ez] eqn:Hal.
    apply binary_round_aux_signed.
    unfold shl_align, fexp, SpecFloat.emin, prec, emax in Hal.
    destruct (Z.max (Z.pos (digits2_pos p) + e - 53) (3 - 1024 - 53) - e);
      injection Hal as _ <-; lia. }
  destruct d as [|p|p]; [congruence| |]; apply Hround.
Qed.

Lemma shl_align_value m e e' :
  e' <= e -> Z.pos (fst (shl_align m e e')) = Z.pos m * 2 ^ (e - e').
Proof.
  intros Hle. unfold shl_align.
  destruct (e' - e) as [|d|d] eqn:Hd; cbn [fst]; try lia.
  - replace (e - e') with 0 by lia. lia.
  - replace (e - e') with (Z.pos d) by lia. clear.
    induction d using Pos.peano_ind.
    + change (Z.pos m~0 = Z.pos m * 2). lia.
    + rewrite Pos.iter_succ, Pos2Z.inj_xO, IHd, Pos2Z.inj_succ, Z.pow_succ_r by lia. ring.
Qed.

Lemma SFltb_zero_signed s r : signed s r -> SFltb (S754_zero false) r = negb s.
Proof.
  destruct r as [| | |s' m e]; cbn [signed]; try tauto; intros ->; destruct s; reflexivity.
Qed.

Lemma cond_Zopp_mul s a c : cond_Zopp s a * c = cond_Zopp s (a * c).
Proof. destruct s; cbn [cond_Zopp]; ring. Qed.

Lemma SFsub_positive x y :
  valid_binary x = true -> valid_binary y = true ->
  x <> S754_nan -> y <> S754_nan ->
  SFltb (S754_zero false) (SFsub prec emax y x) = SFltb x y.
Proof.
  intros Vx Vy Nx Ny.
  destruct x as [sx|sx| |sx mx ex], y as [sy|sy| |sy my ey]; try congruence;
    try (destruct sx; reflexivity); try (destruct sy; reflexivity);
    try (destruct sx, sy; reflexivity).
  unfold SFltb at 2.
  rewrite (SFcompare_position _ _ Vx Vy Nx Ny).
  cbn [position Ext_compare SFsub SpecFloat.valid_binary] in *.
  pose proof (bounded_exponent _ _ Vx) as (Hex & _).
  pose proof (bounded_exponent _ _ Vy) as (Hey & _).
  rewrite !shl_align_value by lia.
  set (ez := Z.min ey ex).
  set (D := cond_Zopp sy (Z.pos my * 2 ^ (ey - ez)) - cond_Zopp sx (Z.pos mx * 2 ^ (ex - ez))).
  assert (Hc : 0 < 2 ^ (ez + 1074)) by (apply Z.pow_pos_nonneg; lia).
  assert (Hrel : cond_Zopp sy (Z.pos my * 2 ^ (ey + 1074))
                 - cond_Zopp sx (Z.pos mx * 2 ^ (ex + 1074)) = D * 2 ^ (ez + 1074)).
  { unfold D. rewrite Z.mul_sub_distr_r, !cond_Zopp_mul, <- !Z.mul_assoc.
    rewrite <- !Z.pow_add_r by lia.
    replace (ey - ez + (ez + 1074)) with (ey + 1074) by lia.
    replace (ex - ez + (ez + 1074)) with (ex + 1074) by lia.
    reflexivity. }
  destruct (Z.eq_dec D 0) as [HD|HD].
  - rewrite HD in *. cbn [binary_normalize].
    replace (cond_Zopp sx (Z.pos mx * 2 ^ (ex + 1074)))
      with (cond_Zopp sy (Z.pos my * 2 ^ (ey + 1074))) by lia.
    now rewrite Z.compare_refl.
  - rewrite (SFltb_zero_signed (D <? 0)) by (apply binary_normalize_signed; lia).
    destruct (Z.ltb_spec D 0) as [Hneg|Hpos]; cbn [negb].
    + assert (D * 2 ^ (ez + 1074) < 0) by (apply Z.mul_neg_pos; lia).
      destruct (Z.compare_spec (cond_Zopp sx (Z.pos mx * 2 ^ (ex + 1074)))
                  (cond_Zopp sy (Z.pos my * 2 ^ (ey + 1074)))); try reflexivity; lia.
    + assert (0 < D * 2 ^ (ez + 1074)) by (apply Z.mul_pos_pos; lia).
      destruct (Z.compare_spec (cond_Zopp sx (Z.pos mx * 2 ^ (ex + 1074)))
                  (cond_Zopp sy (Z.pos my * 2 ^ (ey + 1074)))); try reflexivity; lia.
Qed.

Lemma Prim2SF_zero : Prim2SF PrimFloat.zero = S754_zero false.
Proof. reflexivity. Qed.

Lemma Prim2SF_infinity : Prim2SF PrimFloat.infinity = S754_infinity false.
Proof. reflexivity. Qed.

Lemma Prim2SF_neg_infinity : Prim2SF PrimFloat.neg_infinity = S754_infinity true.
Proof. reflexivity. Qed.

Lemma ltb_position a b :
  notNaN a -> notNaN b ->
  (a <? b)%float =
  match Ext_compare (position (Prim2SF a)) (position (Prim2SF b)) with
  | Lt => true
  | _ => false
  end.
Proof.
  intros Na Nb. rewrite FloatAxioms.ltb_spec. unfold SFltb.
  now rewrite (SFcompare_position _ _ (Prim2SF_valid a) (Prim2SF_valid b) Na Nb).
Qed.

Lemma leb_position a b :
  notNaN a -> notNaN b ->
  (a <=? b)%float =
  match Ext_compare (position (Prim2SF a)) (position (Prim2SF b)) with
  | Gt => false
  | _ => true
  end.
Proof.
  intros Na Nb. rewrite FloatAxioms.leb_spec. unfold SFleb.
  rewrite (SFcompare_position _ _ (Prim2SF_valid a) (Prim2SF_valid b) Na Nb).
  now destruct (Ext_compare _ _).
Qed.

Lemma Ext_compare_trans a b c :
  Ext_compare a b <> Gt -> Ext_compare b c <> Gt -> Ext_compare a c <> Gt.
Proof.
  destruct a as [|x|], b as [|y|], c as [|z|]; cbn [Ext_compare]; try congruence.
  intros H1 H2.
  destruct (Z.compare_spec x y), (Z.compare_spec y z), (Z.compare_spec x z);
    congruence || lia.
Qed.

Lemma Ext_compare_total a b : Ext_compare a b <> Lt -> Ext_compare b a <> Gt.
Proof.
  destruct a as [|x|], b as [|y|]; cbn [Ext_compare]; try congruence.
  destruct (Z.compare_spec x y), (Z.compare_spec y x); congruence || lia.
Qed.

(** [<=] is transitive on numbers. *)
Lemma leb_trans a b c :
  notNaN a -> notNaN b -> notNaN c ->
  (a <=? b)%float = true -> (b <=? c)%float = true -> (a <=? c)%float = true.
Proof.
  intros Na Nb Nc. rewrite !leb_position by assumption.
  intros H1 H2.
  pose proof (Ext_compare_trans (position (Prim2SF a)) (position (Prim2SF b))
                (position (Prim2SF c))) as Ht.
  destruct (Ext_compare (position (Prim2SF a)) (position (Prim2SF b))); try discriminate;
    destruct (Ext_compare (position (Prim2SF b)) (position (Prim2SF c))); try discriminate;
    destruct (Ext_compare (position (Prim2SF a)) (position (Prim2SF c)));
    try reflexivity; exfalso; apply Ht; congruence.
Qed.

(** Two numbers are comparable one way or the other. *)
Lemma ltb_false_leb a b :
  notNaN a -> notNaN b -> (a <? b)%float = false -> (b <=? a)%float = true.
Proof.
  intros Na Nb. rewrite ltb_position, leb_position by assumption.
  intros H.
  pose proof (Ext_compare_total (position (Prim2SF a)) (position (Prim2SF b))) as Ht.
  destruct (Ext_compare (position (Prim2SF a)) (position (Prim2SF b))); try discriminate;
    destruct (Ext_compare (position (Prim2SF b)) (position (Prim2SF a)));
    try reflexivity; exfalso; apply Ht; congruence.
Qed.

Lemma ltb_leb a b : (a <? b)%float = true -> (a <=? b)%float = true.
Proof.
  rewrite FloatAxioms.ltb_spec, FloatAxioms.leb_spec. unfold SFltb, SFleb.
  now destruct (SFcompare (Prim2SF a) (Prim2SF b)) as [[]|].
Qed.

(** The sign of a difference is the comparison of its operands: what makes
    [(a, b) => b - a] a descending comparator. *)
Lemma sub_positive a b :
  notNaN a -> notNaN b -> JsNumber.positive (b - a)%float = (a <? b)%float.
Proof.
  intros Na Nb. unfold JsNumber.positive.
  rewrite !FloatAxioms.ltb_spec, FloatAxioms.sub_spec, Prim2SF_zero.
  apply SFsub_positive; auto using Prim2SF_valid.
Qed.

Lemma is_finite_shape x :
  PrimFloat.is_finite x = true ->
  match Prim2SF x with
  | S754_zero _ | S754_finite _ _ _ => True
  | _ => False
  end.
Proof.
  unfold PrimFloat.is_finite, PrimFloat.is_nan, PrimFloat.is_infinity.
  rewrite !FloatAxioms.eqb_spec, FloatAxioms.abs_spec, Prim2SF_infinity.
  destruct (Prim2SF x) as [s|s| |s m e]; cbn; try discriminate; auto.
  destruct s; discriminate.
Qed.

Lemma finite_notNaN x : PrimFloat.is_finite x = true -> notNaN x.
Proof.
  intros H E. apply is_finite_shape in H. now rewrite E in H.
Qed.

Lemma neg_infinity_notNaN : notNaN PrimFloat.neg_infinity.
Proof. unfold notNaN. now rewrite Prim2SF_neg_infinity. Qed.

(** A finite number is above negative infinity. *)
Lemma finite_above_neg_infinity x :
  PrimFloat.is_finite x = true -> (x <=? PrimFloat.neg_infinity)%float = false.
Proof.
  intros H. rewrite leb_position by auto using finite_notNaN, neg_infinity_notNaN.
  apply is_finite_shape in H. rewrite Prim2SF_neg_infinity.
  destruct (Prim2SF x); try contradiction; reflexivity.
Qed.

(** Zero times a finite number is a zero. *)
Lemma mul_zero_finite r :
  PrimFloat.is_finite r = true -> PrimFloat.is_zero (PrimFloat.zero * r)%float = true.
Proof.
  intros H. apply is_finite_shape in H.
  unfold PrimFloat.is_zero. rewrite FloatAxioms.eqb_spec, FloatAxioms.mul_spec, Prim2SF_zero.
  destruct (Prim2SF r) as [s|s| |s m e]; try contradiction; reflexivity.
Qed.

Lemma is_zero_shape x :
  PrimFloat.is_zero x = true <-> exists s, Prim2SF x = S754_zero s.
Proof.
  unfold PrimFloat.is_zero. rewrite FloatAxioms.eqb_spec, Prim2SF_zero.
  destruct (Prim2SF x) as [s|s| |s m e]; cbn.
  - split; eauto.
  - split; [destruct s; discriminate | intros [? ?]; discriminate].
  - split; [discriminate | intros [? ?]; discriminate].
  - split; [destruct s; discriminate | intros [? ?]; discriminate].
Qed.

Lemma SFadd_zero_l s y :
  (forall s', y <> S754_zero s') -> SF64add (S754_zero s) y = y.
Proof.
  intros H. destruct y as [s'| | |]; try reflexivity. now destruct (H s').
Qed.

(** Starting a sum from zero changes at most the sign of a zero result. *)
Lemma add_from_zero a1 a2 :
  sameNumber ((PrimFloat.zero + a1) + a2)%float (a1 + a2)%float.
Proof.
  unfold sameNumber.
  assert (Hspec : Prim2SF ((PrimFloat.zero + a1) + a2)%float
                  = SF64add (SF64add (S754_zero false) (Prim2SF a1)) (Prim2SF a2))
    by now rewrite !FloatAxioms.add_spec, Prim2SF_zero.
  destruct (Prim2SF a1) as [s1| | |] eqn:E1.
  - assert (Hin : SF64add (S754_zero false) (S754_zero s1) = S754_zero false)
      by (destruct s1; reflexivity).
    rewrite Hin in Hspec.
    destruct (Prim2SF a2) as [s2| | |] eqn:E2.
    + right. split; apply is_zero_shape.
      * rewrite Hspec. destruct s2; eexists; reflexivity.
      * rewrite FloatAxioms.add_spec, E1, E2. destruct s1, s2; eexists; reflexivity.
    + left. apply Prim2SF_inj.
      rewrite Hspec, FloatAxioms.add_spec, E1, E2, !SFadd_zero_l; congruence.
    + left. apply Prim2SF_inj.
      rewrite Hspec, FloatAxioms.add_spec, E1, E2, !SFadd_zero_l; congruence.
    + left. apply Prim2SF_inj.
      rewrite Hspec, FloatAxioms.add_spec, E1, E2, !SFadd_zero_l; congruence.
  - left. apply Prim2SF_inj.
    rewrite Hspec, FloatAxioms.add_spec, E1, SFadd_zero_l; congruence.
  - left. apply Prim2SF_inj.
    rewrite Hspec, FloatAxioms.add_spec, E1, SFadd_zero_l; congruence.
  - left. apply Prim2SF_inj.
    rewrite Hspec, FloatAxioms.add_spec, E1, SFadd_zero_l; congruence.
Qed.

End Binary64.

(** ** Strings and numbers read from them *)

Lemma trimStart_blank s : isBlank s = true -> JsString.trimStart s = EmptyString.
Proof.
  induction s as [|c s IH]; cbn [isBlank JsString.trimStart]; [reflexivity|].
  intros [Hc Hs]%andb_prop. rewrite Hc. auto.
Qed.

Lemma trim_blank s : isBlank s = true -> JsString.trim s = EmptyString.
Proof. intros H. unfold JsString.trim. now rewrite trimStart_blank. Qed.

(** An empty or white-space-only string is the number zero. *)
Lemma Number_blank s : isBlank s = true -> JsNumber.Number s = PrimFloat.zero.
Proof. intros H. unfold JsNumber.Number. now rewrite trim_blank. Qed.

Example Number_of_some_strings :
  JsNumber.Number EmptyString = PrimFloat.zero
  /\ JsNumber.Number " 12.50 " = 12.5%float
  /\ JsNumber.Number "1e3" = 1000%float
  /\ JsNumber.Number "0x1F" = 31%float
  /\ JsNumber.Number "-0" = PrimFloat.neg_zero
  /\ JsNumber.Number "1e999" = PrimFloat.infinity
  /\ JsNumber.isNaN (JsNumber.Number "1,000") = true
  /\ JsNumber.isNaN (JsNumber.Number "12 USD") = true
  /\ JsNumber.isFinite (JsNumber.Number "Infinity") = false.
Proof. repeat split. Qed.

Example ledgerKey_of_some_tickers :
  ledgerKey " aapl" = "AAPL"%string
  /\ ledgerKey "AAPL " = "AAPL"%string
  /\ ledgerKey "brk.b" = "BRK.B"%string
  /\ ledgerKey "   " = EmptyString.
Proof. repeat split. Qed.

Lemma usableAmount_blank s : isBlank s = true -> usableAmount s = Some PrimFloat.zero.
Proof. intros H. unfold usableAmount. now rewrite Number_blank. Qed.

Lemma truthy_toUpperCase s : JsString.truthy (JsString.toUpperCase s) = JsString.truthy s.
Proof. now destruct s. Qed.

Lemma truthy_true s : JsString.truthy s = true <-> s <> EmptyString.
Proof. destruct s; cbn; split; congruence. Qed.

(** ** Ticker ledgers *)

Section Ledger.

Implicit Types (map : gmap string float) (entries : list (string * string)).

Lemma foldl_ext_in {A B} (f g : A -> B -> A) (l : list B) :
  (forall a b, f a b = g a b) -> forall a, foldl f a l = foldl g a l.
Proof.
  intros Hfg. induction l as [|b l IH]; intros a; cbn [foldl]; [reflexivity|].
  now rewrite Hfg, IH.
Qed.

Lemma portfolioAmountMap_steps rows :
  portfolioAmountMap rows = foldl ledgerStep ∅ (portfolioEntries rows).
Proof.
  unfold portfolioAmountMap, portfolioEntries. rewrite foldl_fmap.
  apply foldl_ext_in. intros map row.
  unfold ledgerStep, usableAmount, ledgerKey. cbn [fst snd].
  destruct (JsString.truthy _); cbn [negb]; [|reflexivity].
  now destruct (JsNumber.isFinite _).
Qed.

Lemma fundAmountMap_steps rows :
  fundAmountMap rows = foldl ledgerStep ∅ (fundEntries rows).
Proof.
  unfold fundAmountMap, fundEntries. rewrite foldl_fmap.
  apply foldl_ext_in. intros map row.
  unfold ledgerStep, usableAmount, ledgerKey. cbn [fst snd].
  destruct (JsString.truthy _); cbn [negb]; [|reflexivity].
  now destruct (JsNumber.isFinite _).
Qed.

(** What the loop holds for [key] after some more entries: the earlier
    value, increased by the amounts entered for [key], one at a time. *)
Lemma ledgerStep_lookup entries : forall map key,
  foldl ledgerStep map entries !! key =
  if JsString.truthy key
  then foldl (fun held a => Some (default PrimFloat.zero held + a)%float)
         (map !! key) (amountsFor key entries)
  else map !! key.
Proof.
  induction entries as [|[ticker amount] entries IH]; intros map key.
  - cbn. now destruct (JsString.truthy key).
  - cbn [foldl amountsFor]. rewrite IH. clear IH.
    unfold ledgerStep. cbn [fst snd].
    destruct (String.eqb_spec (ledgerKey ticker) key) as [->|Hne].
    + destruct (JsString.truthy key) eqn:Hk; [|reflexivity].
      destruct (usableAmount amount) as [a|]; [|reflexivity].
      cbn [foldl]. now rewrite lookup_insert_eq.
    + destruct (JsString.truthy (ledgerKey ticker)); [|reflexivity].
      destruct (usableAmount amount) as [a|]; [|reflexivity].
      now rewrite lookup_insert_ne.
Qed.

Lemma accumulate_some x amounts :
  foldl (fun held a => Some (default PrimFloat.zero held + a)%float) (Some x) amounts
  = Some (foldl PrimFloat.add x amounts).
Proof.
  revert x. induction amounts as [|a amounts IH]; intros x; cbn [foldl]; [reflexivity|].
  now rewrite IH.
Qed.

Lemma ledger_of_entries entries key :
  foldl ledgerStep ∅ entries !! key = ledgerEntry key entries.
Proof.
  rewrite ledgerStep_lookup, lookup_empty. unfold ledgerEntry, total.
  destruct (JsString.truthy key); [|reflexivity].
  destruct (amountsFor key entries) as [|a amounts]; [reflexivity|].
  cbn [foldl default]. apply accumulate_some.
Qed.

Lemma amountsFor_app key entries1 entries2 :
  amountsFor key (entries1 ++ entries2) = amountsFor key entries1 ++ amountsFor key entries2.
Proof.
  induction entries1 as [|[t a] entries1 IH]; cbn [amountsFor app]; [reflexivity|].
  destruct (String.eqb _ _); [|assumption].
  destruct (usableAmount a); [|assumption]. cbn [app]. now rewrite IH.
Qed.

Lemma amountsFor_absent key entries :
  (forall entry, entry ∈ entries -> ledgerKey entry.1 <> key) -> amountsFor key entries = [].
Proof.
  induction entries as [|[t a] entries IH]; intros H; cbn [amountsFor]; [reflexivity|].
  destruct (String.eqb_spec (ledgerKey t) key) as [E|_].
  - exfalso. apply (H (t, a)); [left|exact E].
  - apply IH. intros entry Hin. apply H. now right.
Qed.

Lemma ledgerStep_unusable map ticker amount :
  usableAmount amount = None -> ledgerStep map (ticker, amount) = map.
Proof.
  intros H. unfold ledgerStep. cbn [fst snd]. rewrite H.
  now destruct (JsString.truthy _).
Qed.

End Ledger.

(** ** The ledgers sum the amounts entered per ticker *)

(** C5. Each ledger maps a trimmed, upper-cased, non-empty ticker to the sum
    of the finite amounts entered for it, taken in row order from zero, and
    holds nothing for any other key. The same ticker entered twice, in any
    letter case, with amounts [a1] and [a2] holds [(0 + a1) + a2], which is
    the number [a1 + a2]. A row whose amount is not a finite number leaves
    the ledger as it would be without the row. The portfolio ledger is
    built from the portfolio rows alone and the fund ledger from the fund
    rows alone: a ticker that only the other input set names is absent. *)
Theorem ledgers_sum_amounts_per_ticker :
  forall (portfolioRows : list PortfolioInputRow.t) (fundRows : list FundInputRow.t),
    (forall key,
        portfolioAmountMap portfolioRows !! key
        = ledgerEntry key (portfolioEntries portfolioRows))
    /\ (forall key,
        fundAmountMap fundRows !! key = ledgerEntry key (fundEntries fundRows))
    /\ (forall t1 t2 s1 s2 x1 x2 a1 a2,
        ledgerKey t1 = ledgerKey t2 ->
        JsString.truthy (ledgerKey t1) = true ->
        usableAmount x1 = Some a1 -> usableAmount x2 = Some a2 ->
        exists v,
          portfolioAmountMap [PortfolioInputRow.mk t1 s1 x1; PortfolioInputRow.mk t2 s2 x2]
            !! ledgerKey t1 = Some v
          /\ fundAmountMap [FundInputRow.mk t1 x1; FundInputRow.mk t2 x2]
            !! ledgerKey t1 = Some v
          /\ v = ((PrimFloat.zero + a1) + a2)%float
          /\ sameNumber v (a1 + a2)%float)
    /\ (forall row more,
        usableAmount (PortfolioInputRow.amount row) = None ->
        portfolioAmountMap (portfolioRows ++ row :: more)
        = portfolioAmountMap (portfolioRows ++ more))
    /\ (forall row more,
        usableAmount (FundInputRow.amount row) = None ->
        fundAmountMap (fundRows ++ row :: more) = fundAmountMap (fundRows ++ more))
    /\ (forall key,
        (forall row, row ∈ portfolioRows -> ledgerKey (PortfolioInputRow.ticker row) <> key) ->
        portfolioAmountMap portfolioRows !! key = None)
    /\ (forall key,
        (forall row, row ∈ fundRows -> ledgerKey (FundInputRow.ticker row) <> key) ->
        fundAmountMap fundRows !! key = None).
Proof.
  intros portfolioRows fundRows.
  assert (Hp : forall rows key,
             portfolioAmountMap rows !! key = ledgerEntry key (portfolioEntries rows)).
  { intros rows key. rewrite portfolioAmountMap_steps. apply ledger_of_entries. }
  assert (Hf : forall rows key,
             fundAmountMap rows !! key = ledgerEntry key (fundEntries rows)).
  { intros rows key. rewrite fundAmountMap_steps. apply ledger_of_entries. }
  repeat split; auto.
  - intros t1 t2 s1 s2 x1 x2 a1 a2 Hkey Hk H1 H2.
    exists ((PrimFloat.zero + a1) + a2)%float.
    rewrite Hp, Hf. unfold ledgerEntry. rewrite Hk.
    cbn [portfolioEntries fundEntries fmap list_fmap amountsFor
           PortfolioInputRow.ticker PortfolioInputRow.amount
           FundInputRow.ticker FundInputRow.amount].
    rewrite <- Hkey, String.eqb_refl, H1, H2.
    repeat split; try reflexivity. apply Binary64.add_from_zero.
  - intros row more Hrow.
    rewrite !portfolioAmountMap_steps. unfold portfolioEntries.
    rewrite !fmap_app, fmap_cons, !foldl_app. cbn [foldl].
    now rewrite ledgerStep_unusable.
  - intros row more Hrow.
    rewrite !fundAmountMap_steps. unfold fundEntries.
    rewrite !fmap_app, fmap_cons, !foldl_app. cbn [foldl].
    now rewrite ledgerStep_unusable.
  - intros key Habsent. rewrite Hp. unfold ledgerEntry.
    rewrite amountsFor_absent; [now destruct (JsString.truthy key)|].
    intros entry [row [-> Hin]]%list_elem_of_fmap. cbn [fst]. now apply Habsent.
  - intros key Habsent. rewrite Hf. unfold ledgerEntry.
    rewrite amountsFor_absent; [now destruct (JsString.truthy key)|].
    intros entry [row [-> Hin]]%list_elem_of_fmap. cbn [fst]. now apply Habsent.
Qed.

Lemma ledgers_sum_amounts_per_ticker_witness :
  exists v,
    portfolioAmountMap Sample.twiceRows !! "AAPL"%string = Some v
    /\ fundAmountMap [FundInputRow.mk " aapl" "100"; FundInputRow.mk "AAPL " "250.5"]
         !! "AAPL"%string = Some v
    /\ v = ((PrimFloat.zero + JsNumber.Number "100") + JsNumber.Number "250.5")%float
    /\ sameNumber v (JsNumber.Number "100" + JsNumber.Number "250.5")%float.
Proof.
  exact (proj1 (proj2 (proj2 (ledgers_sum_amounts_per_ticker [] [])))
           " aapl"%string "AAPL "%string EmptyString EmptyString
           "100"%string "250.5"%string _ _ eq_refl eq_refl eq_refl eq_refl).
Defined.

(** ** A blank amount is the amount zero *)

Lemma amountsFor_blank_row key entries1 entries2 ticker amount :
  ledgerKey ticker = key -> isBlank amount = true ->
  amountsFor key (entries1 ++ (ticker, amount) :: entries2)
  = amountsFor key entries1 ++ PrimFloat.zero :: amountsFor key entries2.
Proof.
  intros Hk Hb. rewrite amountsFor_app. cbn [amountsFor].
  now rewrite Hk, String.eqb_refl, usableAmount_blank.
Qed.

Lemma ledgerEntry_blank_row key entries1 entries2 ticker amount :
  ledgerKey ticker = key -> JsString.truthy key = true -> isBlank amount = true ->
  ledgerEntry key (entries1 ++ (ticker, amount) :: entries2)
  = Some (total (amountsFor key entries1 ++ PrimFloat.zero :: amountsFor key entries2))
  /\ ((forall entry, entry ∈ entries1 ++ entries2 -> ledgerKey entry.1 <> key) ->
      ledgerEntry key (entries1 ++ (ticker, amount) :: entries2) = Some PrimFloat.zero).
Proof.
  intros Hk Ht Hb. unfold ledgerEntry.
  rewrite Ht, (amountsFor_blank_row key _ _ _ _ Hk Hb). split.
  - now destruct (amountsFor key entries1).
  - intros Habsent.
    rewrite !amountsFor_absent.
    + reflexivity.
    + intros entry Hin. apply Habsent. apply elem_of_app. now right.
    + intros entry Hin. apply Habsent. apply elem_of_app. now left.
Qed.



(** ** Zakat on direct holdings *)

Lemma portfolioAmountMap_no_empty_key rows :
  portfolioAmountMap rows !! EmptyString = None.
Proof. now rewrite portfolioAmountMap_steps, ledger_of_entries. Qed.

Lemma toUpperCase_empty s : JsString.toUpperCase s = EmptyString -> s = EmptyString.
Proof. now destruct s. Qed.

(** C1, as amended. With the ledger of the page, the zakatable amount of a
    company is the invested amount times the CRI-to-price ratio, and the
    zakat due is that product times the rate 0.025, whenever the ledger
    holds the upper-cased ticker and the ratio is present as a number, be it
    finite or not; when the ledger lacks the ticker or the ratio is absent,
    both are unknown. *)
Theorem zakat_defined_when_operands_present :
  forall (portfolioRows : list PortfolioInputRow.t) (company : CompanyValuation.t),
    let ledger := portfolioAmountMap portfolioRows in
    let key := JsString.toUpperCase (CompanyValuation.ticker company) in
    ZAKAT_RATE = JsNumber.Number "0.025"
    /\ (forall invested ratio,
        ledger !! key = Some invested ->
        CompanyValuation.cri_to_market_price_ratio company = Some ratio ->
        computePortfolioZakatableAmount ledger company = Some (invested * ratio)%float
        /\ computePortfolioZakatDue ledger company
           = Some ((invested * ratio) * ZAKAT_RATE)%float)
    /\ (ledger !! key = None
        \/ CompanyValuation.cri_to_market_price_ratio company = None ->
        computePortfolioZakatableAmount ledger company = None
        /\ computePortfolioZakatDue ledger company = None).
Proof.
  intros portfolioRows company ledger key.
  split; [reflexivity|]. split.
  - intros invested ratio Hl Hr.
    assert (Hz : computePortfolioZakatableAmount ledger company = Some (invested * ratio)%float).
    { unfold computePortfolioZakatableAmount. fold key. rewrite Hl, Hr.
      destruct (JsString.truthy (CompanyValuation.ticker company)) eqn:Ht; [reflexivity|].
      exfalso. apply Bool.not_true_iff_false in Ht. rewrite truthy_true in Ht.
      assert (E : CompanyValuation.ticker company = EmptyString)
        by (destruct (CompanyValuation.ticker company); [reflexivity | now destruct Ht]).
      unfold key in Hl. rewrite E in Hl. cbn in Hl. unfold ledger in Hl.
      now rewrite portfolioAmountMap_no_empty_key in Hl. }
    split; [exact Hz|]. unfold computePortfolioZakatDue. now rewrite Hz.
  - intros H.
    assert (Hz : computePortfolioZakatableAmount ledger company = None).
    { unfold computePortfolioZakatableAmount. fold key.
      destruct (JsString.truthy _); [|reflexivity]. cbn [negb].
      destruct H as [-> | ->]; [reflexivity|]. now destruct (ledger !! key). }
    split; [exact Hz|]. unfold computePortfolioZakatDue. now rewrite Hz.
Qed.

Lemma zakat_defined_when_operands_present_witness :
  computePortfolioZakatableAmount (portfolioAmountMap Sample.portfolioRows) Sample.AAPL
  = Some (JsNumber.Number "1000")
  /\ computePortfolioZakatDue (portfolioAmountMap Sample.portfolioRows) Sample.AAPL
     = Some (JsNumber.Number "25").
Proof.
  exact (proj1 (proj2 (zakat_defined_when_operands_present Sample.portfolioRows Sample.AAPL))
           (JsNumber.Number "100000") (JsNumber.Number "0.01") eq_refl eq_refl).
Defined.

(** C1, as stated, fails: a ratio that is a number but not a finite one (here
    the literal 1e999 of a response, which decodes to [Infinity]) does not
    make the results unknown. With 100 invested, the zakatable amount and
    the zakat due are both [Infinity]. *)
Lemma zakat_with_infinite_ratio_is_not_unknown :
  (exists ratio,
      CompanyValuation.cri_to_market_price_ratio Sample.OVERFLOW = Some ratio
      /\ JsNumber.isFinite ratio = false)
  /\ computePortfolioZakatableAmount (portfolioAmountMap Sample.portfolioRows) Sample.OVERFLOW
     = Some PrimFloat.infinity
  /\ computePortfolioZakatDue (portfolioAmountMap Sample.portfolioRows) Sample.OVERFLOW
     = Some PrimFloat.infinity.
Proof.
  split; [exists PrimFloat.infinity; split; reflexivity|].
  split; reflexivity.
Qed.

(** ** Fund-level extrapolation *)

(** C2. The extrapolated ratio of a fund is the aggregate ratio divided by
    the weight covered exactly when both are present and the weight covered
    is greater than zero; the zakatable amount is then the invested amount
    times that ratio and the zakat due that amount times the rate. When the
    aggregate ratio or the weight covered is absent, or the weight covered is
    zero or otherwise not greater than zero, the extrapolated ratio is
    unknown, and so are the zakatable amount and the zakat due, which are
    shown by the placeholder. *)
Theorem extrapolated_ratio_needs_positive_coverage :
  forall `{Runtime} (fundRows : list FundInputRow.t) (fund : FundValuation.t),
    let figures := fundFigures (fundAmountMap fundRows) fund in
    (forall aggregate covered,
        FundValuation.aggregate_cri_to_market_price_ratio fund = Some aggregate ->
        FundValuation.total_weight_covered fund = Some covered ->
        (PrimFloat.zero <? covered)%float = true ->
        extrapolatedCriRatio figures = Some (aggregate / covered)%float
        /\ forall invested,
            fundAmountMap fundRows !! JsString.toUpperCase (FundValuation.ticker fund)
            = Some invested ->
            zakatableAmount figures = Some (invested * (aggregate / covered))%float
            /\ zakatDue figures
               = Some ((invested * (aggregate / covered)) * ZAKAT_RATE)%float)
    /\ (FundValuation.aggregate_cri_to_market_price_ratio fund = None
        \/ FundValuation.total_weight_covered fund = None
        \/ (exists covered,
              FundValuation.total_weight_covered fund = Some covered
              /\ (PrimFloat.zero <? covered)%float = false) ->
        extrapolatedCriRatio figures = None
        /\ zakatableAmount figures = None
        /\ zakatDue figures = None
        /\ zakatableAmountDisplay figures = EM_DASH
        /\ zakatDueDisplay figures = EM_DASH)
    /\ (FundValuation.total_weight_covered fund = Some PrimFloat.zero ->
        extrapolatedCriRatio figures = None).
Proof.
  intros runtime fundRows fund figures.
  assert (Hunknown :
            FundValuation.aggregate_cri_to_market_price_ratio fund = None
            \/ FundValuation.total_weight_covered fund = None
            \/ (exists covered,
                  FundValuation.total_weight_covered fund = Some covered
                  /\ (PrimFloat.zero <? covered)%float = false) ->
            extrapolatedCriRatio figures = None).
  { unfold figures, fundFigures. cbn [extrapolatedCriRatio].
    intros [-> | [-> | (covered & -> & Hc)]].
    - reflexivity.
    - now destruct (FundValuation.aggregate_cri_to_market_price_ratio fund).
    - rewrite Hc. now destruct (FundValuation.aggregate_cri_to_market_price_ratio fund). }
  split; [|split].
  - intros aggregate covered Ha Hc Hpos.
    unfold figures, fundFigures.
    cbn [extrapolatedCriRatio zakatableAmount zakatDue].
    rewrite Ha, Hc, Hpos. split; [reflexivity|].
    intros invested ->. split; reflexivity.
  - intros H. pose proof (Hunknown H) as He.
    unfold figures, fundFigures in *.
    cbn [extrapolatedCriRatio zakatableAmount zakatDue
           zakatableAmountDisplay zakatDueDisplay] in *.
    rewrite He.
    destruct (fundAmountMap fundRows !! _); repeat split; reflexivity.
  - intros Hzero. apply Hunknown. right. right. exists PrimFloat.zero. now split.
Qed.

Lemma extrapolated_ratio_needs_positive_coverage_witness :
  let figures := @fundFigures referenceRuntime (fundAmountMap Sample.fundRows) Sample.VOO in
  extrapolatedCriRatio figures = Some (JsNumber.Number "0.01")
  /\ zakatableAmount figures = Some (JsNumber.Number "500")
  /\ zakatDue figures = Some (JsNumber.Number "12.5").
Proof.
  destruct (proj1 (@extrapolated_ratio_needs_positive_coverage referenceRuntime
                     Sample.fundRows Sample.VOO)
              (JsNumber.Number "0.008") (JsNumber.Number "0.8") eq_refl eq_refl eq_refl)
    as [He Hz].
  destruct (Hz (JsNumber.Number "50000") eq_refl) as [Hz1 Hz2].
  split; [exact He|]. split; [exact Hz1 | exact Hz2].
Defined.

(** ** CSV fields *)

Lemma replaceAll_absent c by_ s :
  JsString.includes c s = false -> JsString.replaceAll c by_ s = s.
Proof.
  induction s as [|d s IH]; cbn [JsString.includes JsString.replaceAll]; [reflexivity|].
  intros [Hd Hs]%Bool.orb_false_elim. rewrite Hd. now rewrite IH.
Qed.

(** Doubling the quotation marks neither adds nor removes any of the
    characters that call for quoting. *)
Lemma includes_escaped c s :
  JsString.includes c (JsString.replaceAll QUOTE (String QUOTE (String QUOTE EmptyString)) s)
  = JsString.includes c s.
Proof.
  induction s as [|d s IH]; cbn [JsString.includes JsString.replaceAll]; [reflexivity|].
  destruct (Ascii.eqb_spec QUOTE d) as [<-|Hne].
  - match goal with
    | |- context [?a +:+ ?b] => change (a +:+ b) with (String QUOTE (String QUOTE b))
    end.
    cbn [JsString.includes]. rewrite IH.
    now destruct (Ascii.eqb c QUOTE).
  - cbn [JsString.includes]. now rewrite IH.
Qed.


(** A carriage return alone is not among the characters that call for
    quoting: the pattern of the source names the line feed only. *)
Remark csv_field_with_carriage_return :
  sanitizeCsvValue (Some (String "a" (String (ascii_of_nat 13) "b")))
  = String "a" (String (ascii_of_nat 13) "b").
Proof. reflexivity. Qed.

(** ** Column registry *)

Section Visibility.

Context {A : Type} (id : A -> string).
Implicit Types (columns : list A) (config : gmap string ColumnConfig.t).

Lemma filter_sublist (keep : A -> bool) columns : sublist (List.filter keep columns) columns.
Proof.
  induction columns as [|column columns IH]; cbn [List.filter]; [constructor|].
  destruct (keep column); now constructor.
Qed.

Lemma filter_twice (f g : A -> bool) columns :
  List.filter g (List.filter f columns) = List.filter (fun x => f x && g x) columns.
Proof.
  induction columns as [|column columns IH]; cbn [List.filter]; [reflexivity|].
  destruct (f column); cbn [List.filter andb]; [|assumption].
  destruct (g column); now rewrite IH.
Qed.

Lemma isVisible_insert config columnId visible width other :
  isVisible (<[columnId := ColumnConfig.mk visible width]> config) other
  = if String.eqb other columnId then visible else isVisible config other.
Proof.
  unfold isVisible. destruct (String.eqb_spec other columnId) as [->|Hne].
  - now rewrite lookup_insert_eq.
  - now rewrite lookup_insert_ne.
Qed.

(** Switching a column off removes the columns of that id from what is
    visible and leaves the rest in place. *)
Lemma visible_after_hide columns config columnId width :
  List.filter (fun column =>
                 isVisible (<[columnId := ColumnConfig.mk false width]> config) (id column))
    columns
  = List.filter (fun column => negb (String.eqb (id column) columnId))
      (List.filter (fun column => isVisible config (id column)) columns).
Proof.
  rewrite filter_twice. apply List.filter_ext. intros column.
  rewrite isVisible_insert.
  destruct (String.eqb (id column) columnId); cbn [negb].
  - now rewrite Bool.andb_false_r.
  - now rewrite Bool.andb_true_r.
Qed.

(** Switching it on again gives back what was visible before. *)
Lemma visible_after_show_again columns config columnId width width' :
  isVisible config columnId = true ->
  List.filter (fun column =>
                 isVisible (<[columnId := ColumnConfig.mk true width']>
                              (<[columnId := ColumnConfig.mk false width]> config))
                   (id column))
    columns
  = List.filter (fun column => isVisible config (id column)) columns.
Proof.
  intros Hvisible. apply List.filter_ext. intros column.
  rewrite !isVisible_insert.
  destruct (String.eqb_spec (id column) columnId) as [->|_]; [now rewrite Hvisible|].
  reflexivity.
Qed.

End Visibility.

(** C8. The ids of the column definitions are distinct. The visible
    columns are the column definitions whose state is visible (a column
    without state counts as visible), in the order of the definitions. Switching a column off leaves exactly the columns that were
    visible, less that one, in their order; switching it on again restores
    what was visible before, the column at its place. This holds for the
    portfolio table and for the holdings table alike. *)
Theorem visible_columns_follow_definition_order :
  forall `{Runtime} (ledger : gmap string float)
         (config : gmap string ColumnConfig.t) (columnId : string),
    let columns := portfolioColumns ledger in
    let hide := handlePortfolioColumnVisibilityChange columns columnId false in
    let show := handlePortfolioColumnVisibilityChange columns columnId true in
    let hideHolding := handleFundColumnVisibilityChange fundHoldingColumns columnId false in
    let showHolding := handleFundColumnVisibilityChange fundHoldingColumns columnId true in
    NoDup (PortfolioColumn.id <$> columns)
    /\ NoDup (FundHoldingColumn.id <$> fundHoldingColumns)
    /\ sublist (visiblePortfolioColumns columns config) columns
    /\ (forall column,
          column ∈ visiblePortfolioColumns columns config
          <-> column ∈ columns /\ isVisible config (PortfolioColumn.id column) = true)
    /\ visiblePortfolioColumns columns (hide config)
       = List.filter (fun column => negb (String.eqb (PortfolioColumn.id column) columnId))
           (visiblePortfolioColumns columns config)
    /\ (isVisible config columnId = true ->
        visiblePortfolioColumns columns (show (hide config))
        = visiblePortfolioColumns columns config)
    /\ sublist (visibleFundHoldingColumns fundHoldingColumns config) fundHoldingColumns
    /\ visibleFundHoldingColumns fundHoldingColumns (hideHolding config)
       = List.filter (fun column => negb (String.eqb (FundHoldingColumn.id column) columnId))
           (visibleFundHoldingColumns fundHoldingColumns config)
    /\ (isVisible config columnId = true ->
        visibleFundHoldingColumns fundHoldingColumns (showHolding (hideHolding config))
        = visibleFundHoldingColumns fundHoldingColumns config).
Proof.
  intros runtime ledger config columnId columns hide show hideHolding showHolding.
  unfold visiblePortfolioColumns, visibleFundHoldingColumns.
  split; [apply (bool_decide_unpack _); vm_compute; exact I|].
  split; [apply (bool_decide_unpack _); vm_compute; exact I|].
  split; [apply filter_sublist|].
  split.
  { intros column. rewrite !list_elem_of_In. apply List.filter_In. }
  split; [apply visible_after_hide|].
  split.
  { intros Hv. unfold show, hide, handlePortfolioColumnVisibilityChange.
    now apply visible_after_show_again. }
  split; [apply filter_sublist|].
  split; [apply visible_after_hide|].
  intros Hv. unfold showHolding, hideHolding, handleFundColumnVisibilityChange.
  now apply visible_after_show_again.
Qed.

Lemma visible_columns_follow_definition_order_witness :
  let columns := @portfolioColumns referenceRuntime ∅ in
  let config := initialPortfolioColumnConfig columns in
  visiblePortfolioColumns columns
    (handlePortfolioColumnVisibilityChange columns "cash" true
       (handlePortfolioColumnVisibilityChange columns "cash" false config))
  = visiblePortfolioColumns columns config.
Proof.
  exact (proj1 (proj2 (proj2 (proj2 (proj2 (proj2
           (@visible_columns_follow_definition_order referenceRuntime ∅
              (initialPortfolioColumnConfig (@portfolioColumns referenceRuntime ∅))
              "cash"%string))))))
           eq_refl).
Defined.

(** ** Export *)

(** What is shown in a cell and what is exported for it are the same
    string, for every column of both tables. *)
Lemma portfolio_cells_same_in_table_and_export `{Runtime} (ledger : gmap string float) :
  Forall (fun column =>
            forall company,
              PortfolioColumn.renderCell column company
              = PortfolioColumn.getExportValue column company)
    (portfolioColumns ledger).
Proof. unfold portfolioColumns. repeat constructor. Qed.

Lemma holding_cells_same_in_table_and_export `{Runtime} :
  Forall (fun column =>
            forall holding,
              FundHoldingColumn.renderCell column holding
              = FundHoldingColumn.getExportValue column holding)
    fundHoldingColumns.
Proof. unfold fundHoldingColumns. repeat constructor. Qed.

(** The portfolio export has the visible columns, in order, and a last
    column with the warnings joined by single spaces. *)
Lemma portfolio_export_follows_visible_columns `{Runtime}
    (result : list CompanyValuation.t) (columns : list PortfolioColumn.t)
    (config : gmap string ColumnConfig.t) (generatedAt : option string) :
  result <> [] ->
  handleDownloadPortfolio result columns config generatedAt
  = Some {| filename := "portfolio-valuations-" +:+ filenameTimestamp generatedAt +:+ ".csv";
            csvContent :=
              createCsvContent
                ((PortfolioColumn.label <$> visiblePortfolioColumns columns config)
                 ++ ["Warnings"%string])
                ((fun company =>
                    ((fun column => PortfolioColumn.getExportValue column company)
                     <$> visiblePortfolioColumns columns config)
                    ++ [JsString.join " " (CompanyValuation.warnings company)])
                 <$> result) |}.
Proof. intros Hne. destruct result; [congruence|reflexivity]. Qed.

Example portfolio_export_row_of_a_company :
  (fun column => PortfolioColumn.getExportValue column Sample.AAPL)
  <$> @portfolioColumns referenceRuntime (portfolioAmountMap Sample.portfolioRows)
  = [ "AAPL"; "Apple Inc."; "USD"; "100"; "50"; "25"; "17.50"; "1,000"; "0.1750";
      "1.00%"; "1,000.00"; "25.00" ]%string.
Proof. reflexivity. Qed.

(** The holdings export writes, among its fifteen columns, the export
    values of the nine columns of the holdings table. *)
Lemma holdings_export_row_has_table_columns `{Runtime} (holding : FundHoldingValuation.t) :
  (fun column => FundHoldingColumn.getExportValue column holding) <$> fundHoldingColumns
  = take 1 (fundHoldingsExportRow holding) ++ drop 5 (take 13 (fundHoldingsExportRow holding)).
Proof. reflexivity. Qed.

(** C3, at the failing input. With the "Weight" column of the holdings table
    switched off, the holdings export of a fund still writes its fixed
    fifteen columns, "Weight" among them, and two warnings columns: it is
    not the export of the visible columns followed by one warnings
    column. *)
Lemma fund_export_ignores_column_visibility :
  let visible := visibleFundHoldingColumns (@fundHoldingColumns referenceRuntime)
                   (@Sample.weightHidden referenceRuntime) in
  FundHoldingColumn.label <$> visible
  = [ "Holding"; "Cash"; "Receivables"; "Inventories"; "Market Price"; "Shares Used";
      "CRI per Share"; "CRI / Price" ]%string
  /\ exists download,
      @handleDownloadFundHoldings referenceRuntime Sample.VOO Sample.generatedAt
      = Some download
      /\ csvContent download
         = createCsvContent fundHoldingsExportHeaders
             (@fundHoldingsExportRow referenceRuntime <$> FundValuation.holdings Sample.VOO)
      /\ "Weight"%string ∈ fundHoldingsExportHeaders
      /\ length fundHoldingsExportHeaders = 15%nat
      /\ csvContent download
         <> createCsvContent
              ((FundHoldingColumn.label <$> visible) ++ ["Warnings"%string])
              ((fun holding =>
                  ((fun column => FundHoldingColumn.getExportValue column holding) <$> visible)
                  ++ [JsString.join " " (FundHoldingValuation.warnings holding)])
               <$> FundValuation.holdings Sample.VOO).
Proof.
  split; [reflexivity|].
  eexists. split; [reflexivity|].
  split; [reflexivity|].
  split; [apply (bool_decide_unpack _); vm_compute; exact I|].
  split; [reflexivity|].
  intros Heq. vm_compute in Heq. discriminate Heq.
Qed.

(** C9, as amended. With no visible column the table area shows a notice in
    place of the table (so does a holdings table without visible column). The export is not held back and is not made of a
    header alone: for a non-empty result it is the file with the single
    column "Warnings", that is the header line and one row per company with
    the company's warnings joined by single spaces. *)
Theorem no_visible_column_shows_notice_and_exports_warnings :
  forall `{Runtime} (ledger : gmap string float) (config : gmap string ColumnConfig.t)
         (result : list CompanyValuation.t) (generatedAt : option string),
    let columns := portfolioColumns ledger in
    visiblePortfolioColumns columns config = [] ->
    portfolioTable (visiblePortfolioColumns columns config) result
    = Notice "Select at least one column to display results."
    /\ (forall rows,
          fundHoldingsTable [] rows
          = Notice "Select at least one column to display holdings.")
    /\ (result <> [] ->
        handleDownloadPortfolio result columns config generatedAt
        = Some {| filename :=
                    "portfolio-valuations-" +:+ filenameTimestamp generatedAt +:+ ".csv";
                  csvContent :=
                    createCsvContent ["Warnings"%string]
                      ((fun company =>
                          [JsString.join " " (CompanyValuation.warnings company)])
                       <$> result) |}).
Proof.
  intros runtime ledger config result generatedAt columns Hnone.
  split; [now rewrite Hnone|]. split; [reflexivity|].
  intros Hne. rewrite portfolio_export_follows_visible_columns by assumption.
  now rewrite Hnone.
Qed.

Lemma no_visible_column_shows_notice_and_exports_warnings_witness :
  portfolioTable
    (visiblePortfolioColumns (@portfolioColumns referenceRuntime ∅)
       (@Sample.allHidden referenceRuntime))
    [Sample.AAPL]
  = Notice "Select at least one column to display results."
  /\ @handleDownloadPortfolio referenceRuntime [Sample.AAPL]
       (@portfolioColumns referenceRuntime ∅) (@Sample.allHidden referenceRuntime)
       Sample.generatedAt
     = Some {| filename := "portfolio-valuations-2025-01-02T03-04-05.000Z.csv";
               csvContent :=
                 "Warnings"
                 +:+ String LF "Shares outstanding are stale. Price delayed." |}.
Proof.
  destruct (@no_visible_column_shows_notice_and_exports_warnings referenceRuntime ∅
              (@Sample.allHidden referenceRuntime) [Sample.AAPL] Sample.generatedAt eq_refl)
    as (Hnotice & _ & Hexport).
  split; [exact Hnotice|].
  exact (Hexport ltac:(discriminate)).
Defined.

(** C9, as stated, fails: with every column of the portfolio table switched
    off the export is still made, and it is not a header alone: after the
    header line "Warnings" comes a row for the company. *)
Lemma export_with_no_visible_column_has_rows :
  visiblePortfolioColumns (@portfolioColumns referenceRuntime ∅)
    (@Sample.allHidden referenceRuntime) = []
  /\ @handleDownloadPortfolio referenceRuntime [Sample.AAPL]
       (@portfolioColumns referenceRuntime ∅) (@Sample.allHidden referenceRuntime)
       Sample.generatedAt
     = Some {| filename := "portfolio-valuations-2025-01-02T03-04-05.000Z.csv";
               csvContent :=
                 "Warnings"
                 +:+ String LF "Shares outstanding are stale. Price delayed." |}.
Proof. split; reflexivity. Qed.

(** ** Presentation order of holdings *)

(** Insertion by a comparator sorts for any relation that the comparator
    decides on the elements at hand. *)
Section InsertionSort.

Context {A : Type} (comparefn : A -> A -> float).
Context (R : relation A) (ok : A -> Prop).
Hypothesis behind : forall x y,
  ok x -> ok y -> JsNumber.positive (comparefn x y) = true -> R y x.
Hypothesis ahead : forall x y,
  ok x -> ok y -> JsNumber.positive (comparefn x y) = false -> R x y.
Hypothesis chain : forall x y z, ok x -> ok y -> ok z -> R x y -> R y z -> R x z.

Lemma sortInsert_Permutation x items : sortInsert comparefn x items ≡ₚ x :: items.
Proof.
  induction items as [|y items IH]; cbn [sortInsert]; [reflexivity|].
  destruct (JsNumber.positive (comparefn x y)); [|reflexivity].
  rewrite IH. apply Permutation_swap.
Qed.

Lemma sorted_Permutation items : sorted comparefn items ≡ₚ items.
Proof.
  induction items as [|x items IH]; cbn [sorted foldr]; [reflexivity|].
  fold (sorted comparefn items). now rewrite sortInsert_Permutation, IH.
Qed.

Lemma sortInsert_StronglySorted x items :
  ok x -> Forall ok items ->
  StronglySorted R items -> StronglySorted R (sortInsert comparefn x items).
Proof.
  intros Hx Hok Hsorted.
  induction Hsorted as [|y items Hsorted IH Hy]; cbn [sortInsert].
  - repeat constructor.
  - apply Forall_cons in Hok as [Hoky Hok].
    destruct (JsNumber.positive (comparefn x y)) eqn:Hcmp.
    + constructor; [now apply IH|].
      rewrite sortInsert_Permutation. constructor; [|assumption].
      now apply behind.
    + assert (Hxy : R x y) by now apply ahead.
      constructor; [now constructor|].
      constructor; [assumption|].
      rewrite Forall_forall in Hy, Hok |- *.
      intros z Hz. apply (chain x y z); auto.
Qed.

Lemma sorted_StronglySorted items :
  Forall ok items -> StronglySorted R (sorted comparefn items).
Proof.
  induction items as [|x items IH]; cbn [sorted foldr]; [constructor|].
  fold (sorted comparefn items). intros [Hx Hok]%Forall_cons.
  apply sortInsert_StronglySorted; [assumption| |now apply IH].
  now rewrite sorted_Permutation.
Qed.

End InsertionSort.

Lemma StronglySorted_lookup {A} (R : relation A) (items : list A) :
  StronglySorted R items ->
  forall i j a b, items !! i = Some a -> items !! j = Some b -> (i < j)%nat -> R a b.
Proof.
  induction 1 as [|x items Hsorted IH Hx]; intros i j a b Hi Hj Hlt.
  - now rewrite lookup_nil in Hi.
  - destruct j as [|j]; [lia|]. cbn in Hj.
    destruct i as [|i]; cbn in Hi.
    + injection Hi as <-. rewrite Forall_forall in Hx. apply Hx.
      eapply list_elem_of_lookup_2; eassumption.
    + apply (IH i j); [assumption..|lia].
Qed.

Section Holdings.

Implicit Types (holding : FundHoldingValuation.t) (holdings : list FundHoldingValuation.t).

Lemma knownWeightsFinite_notNaN holdings :
  knownWeightsFinite holdings = true ->
  Forall (fun holding => notNaN (weightKey holding)) holdings.
Proof.
  unfold knownWeightsFinite. rewrite forallb_forall, Forall_forall.
  intros H holding Hin. specialize (H holding (proj1 (list_elem_of_In _ _) Hin)).
  unfold weightKey. destruct (FundHoldingValuation.weight holding); cbn [default].
  - now apply Binary64.finite_notNaN.
  - apply Binary64.neg_infinity_notNaN.
Qed.

Lemma compareHoldings_behind a b :
  notNaN (weightKey a) -> notNaN (weightKey b) ->
  JsNumber.positive (compareHoldings a b) = true -> mayPrecede b a.
Proof.
  intros Na Nb. unfold compareHoldings, mayPrecede. fold (weightKey a) (weightKey b).
  rewrite Binary64.sub_positive by assumption. apply Binary64.ltb_leb.
Qed.

Lemma compareHoldings_ahead a b :
  notNaN (weightKey a) -> notNaN (weightKey b) ->
  JsNumber.positive (compareHoldings a b) = false -> mayPrecede a b.
Proof.
  intros Na Nb. unfold compareHoldings, mayPrecede. fold (weightKey a) (weightKey b).
  rewrite Binary64.sub_positive by assumption. now apply Binary64.ltb_false_leb.
Qed.

Lemma mayPrecede_chain a b c :
  notNaN (weightKey a) -> notNaN (weightKey b) -> notNaN (weightKey c) ->
  mayPrecede a b -> mayPrecede b c -> mayPrecede a c.
Proof.
  unfold mayPrecede. intros Na Nb Nc Hab Hbc.
  now apply (Binary64.leb_trans _ (weightKey b)).
Qed.

Lemma sorted_holdings_descending holdings :
  knownWeightsFinite holdings = true ->
  StronglySorted mayPrecede (sorted compareHoldings holdings).
Proof.
  intros H. apply knownWeightsFinite_notNaN in H.
  apply (sorted_StronglySorted compareHoldings mayPrecede
           (fun holding => notNaN (weightKey holding)));
    [exact compareHoldings_behind | exact compareHoldings_ahead
    | exact mayPrecede_chain | exact H].
Qed.

(** A holding without a weight may not be shown before one with a finite
    weight. *)
Lemma unknown_not_before_known a b w :
  FundHoldingValuation.weight a = None ->
  FundHoldingValuation.weight b = Some w -> PrimFloat.is_finite w = true ->
  ~ mayPrecede a b.
Proof.
  intros Ha Hb Hw. unfold mayPrecede, weightKey. rewrite Ha, Hb. cbn [default].
  now rewrite Binary64.finite_above_neg_infinity.
Qed.

(** The expression of the page leaves every array of the store as it was:
    only the copy it makes is sorted. *)
Lemma holdingRows_frame (r : ArrayStore.ref)
    (store : gmap ArrayStore.ref (list FundHoldingValuation.t)) holdings :
  store !! r = Some holdings ->
  exists store',
    holdingRows r store = Some (sorted compareHoldings holdings, store')
    /\ forall other items, store !! other = Some items -> store' !! other = Some items.
Proof.
  intros Hr. unfold holdingRows, ArrayStore.slice, ArrayStore.sort.
  rewrite Hr. cbn [mbind option_bind].
  rewrite lookup_insert_eq. cbn [mbind option_bind].
  rewrite lookup_insert_eq. cbn [mbind option_bind].
  eexists. split; [reflexivity|].
  intros other items Hother.
  assert (Hfresh : fresh (dom store) <> other).
  { intros <-. apply (is_fresh (dom store)). apply elem_of_dom. eauto. }
  now rewrite !lookup_insert_ne.
Qed.

End Holdings.



(** Sorting without the copy would reorder the fund's own array. *)
Remark sort_in_place_reorders :
  ArrayStore.sort compareHoldings 0%nat Sample.store
  = Some (0%nat, {[ 0%nat := [Sample.holdingAAPL; Sample.holdingMSFT; Sample.holdingCash] ]}).
Proof.
  unfold ArrayStore.sort, Sample.store. rewrite lookup_singleton_eq. cbn [mbind option_bind].
  now rewrite insert_singleton_eq.
Qed.

(** ** The two modes of the page *)

Section Modes.

Implicit Types (s : State.t) (e : Event) (outcome : FetchOutcome).

(** Each step acts on the portfolio side as a function of that side and of
    the event alone. *)
Lemma step_portfolioSide s1 s2 e :
  portfolioSide s1 = portfolioSide s2 ->
  portfolioSide (step s1 e) = portfolioSide (step s2 e).
Proof.
  destruct s1, s2. unfold portfolioSide. cbn. intros H. simplify_eq.
  destruct e as [tab| |outcome| |outcome]; cbn [step].
  - reflexivity.
  - unfold handlePortfolioSubmit_begin. cbn.
    repeat (match goal with |- context [match ?b with _ => _ end] => destruct b end);
      reflexivity.
  - unfold handlePortfolioSubmit_settle. destruct outcome; reflexivity.
  - unfold handleFundFetch_begin. cbn.
    repeat (match goal with |- context [if ?b then _ else _] => destruct b end);
      reflexivity.
  - unfold handleFundFetch_settle. destruct outcome; reflexivity.
Qed.

Lemma step_fundSide s1 s2 e :
  fundSide s1 = fundSide s2 -> fundSide (step s1 e) = fundSide (step s2 e).
Proof.
  destruct s1, s2. unfold fundSide. cbn. intros H. simplify_eq.
  destruct e as [tab| |outcome| |outcome]; cbn [step].
  - reflexivity.
  - unfold handlePortfolioSubmit_begin. cbn.
    repeat (match goal with |- context [match ?b with _ => _ end] => destruct b end);
      reflexivity.
  - unfold handlePortfolioSubmit_settle. destruct outcome; reflexivity.
  - unfold handleFundFetch_begin. cbn.
    repeat (match goal with |- context [if ?b then _ else _] => destruct b end);
      reflexivity.
  - unfold handleFundFetch_settle. destruct outcome; reflexivity.
Qed.

Lemma run_portfolioSide events : forall s1 s2,
  portfolioSide s1 = portfolioSide s2 ->
  portfolioSide (run events s1) = portfolioSide (run events s2).
Proof.
  induction events as [|e events IH]; intros s1 s2 H; [exact H|].
  cbn [run foldl]. apply IH. now apply step_portfolioSide.
Qed.

Lemma run_fundSide events : forall s1 s2,
  fundSide s1 = fundSide s2 -> fundSide (run events s1) = fundSide (run events s2).
Proof.
  induction events as [|e events IH]; intros s1 s2 H; [exact H|].
  cbn [run foldl]. apply IH. now apply step_fundSide.
Qed.

Lemma run_app events1 events2 s : run (events1 ++ events2) s = run events2 (run events1 s).
Proof. unfold run. apply foldl_app. Qed.

Lemma fund_settle_portfolioSide outcome1 outcome2 s :
  portfolioSide (handleFundFetch_settle outcome1 s)
  = portfolioSide (handleFundFetch_settle outcome2 s).
Proof. unfold handleFundFetch_settle. destruct outcome1, outcome2; reflexivity. Qed.

Lemma portfolio_settle_fundSide outcome1 outcome2 s :
  fundSide (handlePortfolioSubmit_settle outcome1 s)
  = fundSide (handlePortfolioSubmit_settle outcome2 s).
Proof. unfold handlePortfolioSubmit_settle. destruct outcome1, outcome2; reflexivity. Qed.

End Modes.




(** * Further properties *)

(** ** Normalised tickers *)

Section Normalisation.

Implicit Types (s t : string) (c : ascii).

Lemma isWhiteSpace_upperChar c :
  JsString.isWhiteSpace (JsString.upperChar c) = JsString.isWhiteSpace c.
Proof. destruct c as [[] [] [] [] [] [] [] []]; reflexivity. Qed.

Lemma upperChar_idempotent c : JsString.upperChar (JsString.upperChar c) = JsString.upperChar c.
Proof. destruct c as [[] [] [] [] [] [] [] []]; reflexivity. Qed.

Lemma toUpperCase_idempotent s :
  JsString.toUpperCase (JsString.toUpperCase s) = JsString.toUpperCase s.
Proof.
  unfold JsString.toUpperCase.
  induction s as [|c s IH]; cbn [JsString.mapChars]; [reflexivity|].
  now rewrite upperChar_idempotent, IH.
Qed.

Lemma trimStart_toUpperCase s :
  JsString.trimStart (JsString.toUpperCase s) = JsString.toUpperCase (JsString.trimStart s).
Proof.
  unfold JsString.toUpperCase.
  induction s as [|c s IH]; cbn [JsString.mapChars JsString.trimStart]; [reflexivity|].
  rewrite isWhiteSpace_upperChar. now destruct (JsString.isWhiteSpace c).
Qed.

Lemma trimEnd_toUpperCase s :
  JsString.trimEnd (JsString.toUpperCase s) = JsString.toUpperCase (JsString.trimEnd s).
Proof.
  unfold JsString.toUpperCase.
  induction s as [|c s IH]; cbn [JsString.mapChars JsString.trimEnd]; [reflexivity|].
  rewrite IH, isWhiteSpace_upperChar.
  destruct (JsString.trimEnd s) as [|d kept]; cbn [JsString.mapChars]; [|reflexivity].
  now destruct (JsString.isWhiteSpace c).
Qed.

Lemma trim_toUpperCase s :
  JsString.trim (JsString.toUpperCase s) = JsString.toUpperCase (JsString.trim s).
Proof. unfold JsString.trim. now rewrite trimStart_toUpperCase, trimEnd_toUpperCase. Qed.

Lemma trimEnd_idempotent s : JsString.trimEnd (JsString.trimEnd s) = JsString.trimEnd s.
Proof.
  induction s as [|c s IH]; cbn [JsString.trimEnd]; [reflexivity|].
  destruct (JsString.trimEnd s) as [|d kept] eqn:E.
  - destruct (JsString.isWhiteSpace c) eqn:Hc; cbn [JsString.trimEnd]; [reflexivity|].
    now rewrite Hc.
  - change (JsString.trimEnd (String c (String d kept)))
      with (match JsString.trimEnd (String d kept) with
            | EmptyString =>
                if JsString.isWhiteSpace c then EmptyString else String c EmptyString
            | kept' => String c kept'
            end).
    now rewrite IH.
Qed.

Lemma trimStart_clean s :
  match JsString.trimStart s with
  | EmptyString => True
  | String c _ => JsString.isWhiteSpace c = false
  end.
Proof.
  induction s as [|c s IH]; cbn [JsString.trimStart]; [exact I|].
  destruct (JsString.isWhiteSpace c) eqn:Hc; [exact IH|exact Hc].
Qed.

Lemma trimStart_trimEnd_clean s :
  match s with
  | EmptyString => True
  | String c _ => JsString.isWhiteSpace c = false
  end ->
  JsString.trimStart (JsString.trimEnd s) = JsString.trimEnd s.
Proof.
  destruct s as [|c s]; [reflexivity|]. intros Hc. cbn [JsString.trimEnd].
  destruct (JsString.trimEnd s); rewrite ?Hc; cbn [JsString.trimStart]; now rewrite Hc.
Qed.

Lemma trim_idempotent s : JsString.trim (JsString.trim s) = JsString.trim s.
Proof.
  unfold JsString.trim.
  rewrite (trimStart_trimEnd_clean _ (trimStart_clean s)).
  apply trimEnd_idempotent.
Qed.

Lemma ledgerKey_toUpperCase t : ledgerKey (JsString.toUpperCase t) = ledgerKey t.
Proof. unfold ledgerKey. now rewrite trim_toUpperCase, toUpperCase_idempotent. Qed.

Lemma ledgerKey_trimmed t : JsString.trim (ledgerKey t) = ledgerKey t.
Proof. unfold ledgerKey. now rewrite trim_toUpperCase, trim_idempotent. Qed.

Lemma ledgerKey_upper t : JsString.toUpperCase (ledgerKey t) = ledgerKey t.
Proof. unfold ledgerKey. apply toUpperCase_idempotent. Qed.

Lemma ledgerKey_idempotent t : ledgerKey (ledgerKey t) = ledgerKey t.
Proof. unfold ledgerKey at 1. now rewrite ledgerKey_trimmed, ledgerKey_upper. Qed.

End Normalisation.

(** ** What a ledger holds *)

Section LedgerContents.

Lemma is_nan_shape x : PrimFloat.is_nan x = true <-> Prim2SF x = S754_nan.
Proof.
  unfold PrimFloat.is_nan. rewrite FloatAxioms.eqb_spec. unfold SFeqb.
  destruct (Prim2SF x) as [s|s| |s m e]; cbn [SFcompare].
  - split; [discriminate|discriminate].
  - destruct s; split; discriminate.
  - split; reflexivity.
  - rewrite Z.compare_refl, Pos.compare_cont_refl. destruct s; split; discriminate.
Qed.

Lemma isNaN_false x : JsNumber.isNaN x = false <-> notNaN x.
Proof.
  unfold JsNumber.isNaN, notNaN. rewrite <- is_nan_shape.
  now destruct (PrimFloat.is_nan x).
Qed.

(** Adding a finite number to a number gives a number. *)
Lemma add_finite_notNaN x a :
  notNaN x -> PrimFloat.is_finite a = true -> notNaN (x + a)%float.
Proof.
  unfold notNaN. intros Hx Ha. apply Binary64.is_finite_shape in Ha.
  rewrite FloatAxioms.add_spec.
  pose proof (Prim2SF_valid x) as Vx. pose proof (Prim2SF_valid a) as Va.
  destruct (Prim2SF x) as [sx|sx| |sx mx ex], (Prim2SF a) as [sa|sa| |sa ma ea];
    try contradiction; try congruence;
    try (destruct sx; discriminate); try (destruct sx, sa; discriminate).
  cbn [SpecFloat.valid_binary] in Vx, Va.
  apply Binary64.bounded_exponent in Vx as (Hex & _).
  apply Binary64.bounded_exponent in Va as (Hea & _).
  unfold SF64add, SFadd.
  set (d := (cond_Zopp sx (Z.pos (fst (shl_align mx ex (Z.min ex ea))))
             + cond_Zopp sa (Z.pos (fst (shl_align ma ea (Z.min ex ea)))))%Z).
  destruct (Z.eq_dec d 0) as [->|Hd]; [discriminate|].
  pose proof (Binary64.binary_normalize_signed d (Z.min ex ea) ltac:(lia) Hd) as Hs.
  intros E. rewrite E in Hs. exact Hs.
Qed.

Lemma total_notNaN amounts :
  Forall (fun a => PrimFloat.is_finite a = true) amounts -> notNaN (total amounts).
Proof.
  unfold total.
  assert (H : forall start, notNaN start ->
                Forall (fun a => PrimFloat.is_finite a = true) amounts ->
                notNaN (foldl PrimFloat.add start amounts)).
  { induction amounts as [|a amounts IH]; intros start Hs Hall; [exact Hs|].
    apply Forall_cons in Hall as [Ha Hall]. cbn [foldl].
    apply IH; [now apply add_finite_notNaN|exact Hall]. }
  apply H. unfold notNaN. now rewrite Binary64.Prim2SF_zero.
Qed.

Lemma usableAmount_finite amount a :
  usableAmount amount = Some a -> PrimFloat.is_finite a = true.
Proof.
  unfold usableAmount, JsNumber.isFinite.
  destruct (PrimFloat.is_finite (JsNumber.Number amount)) eqn:E; [|discriminate].
  now intros [= <-].
Qed.

Lemma amountsFor_finite key entries :
  Forall (fun a => PrimFloat.is_finite a = true) (amountsFor key entries).
Proof.
  induction entries as [|[t x] entries IH]; cbn [amountsFor]; [constructor|].
  destruct (String.eqb _ _); [|exact IH].
  destruct (usableAmount x) as [a|] eqn:E; [|exact IH].
  constructor; [now apply (usableAmount_finite x)|exact IH].
Qed.

Lemma amountsFor_source key entries :
  amountsFor key entries <> [] ->
  exists entry, entry ∈ entries /\ ledgerKey entry.1 = key /\ is_Some (usableAmount entry.2).
Proof.
  induction entries as [|[t x] entries IH]; cbn [amountsFor]; [congruence|].
  intros Hne.
  destruct (String.eqb_spec (ledgerKey t) key) as [E|_];
    [destruct (usableAmount x) as [a|] eqn:Ha|].
  - exists (t, x). split; [left|]. cbn [fst snd]. rewrite Ha. eauto.
  - destruct (IH Hne) as (entry & Hin & Hk & Hu). exists entry. split; [now right|auto].
  - destruct (IH Hne) as (entry & Hin & Hk & Hu). exists entry. split; [now right|auto].
Qed.

Lemma ledgerEntry_some key entries v :
  ledgerEntry key entries = Some v ->
  JsString.truthy key = true
  /\ v = total (amountsFor key entries)
  /\ amountsFor key entries <> [].
Proof.
  unfold ledgerEntry. destruct (JsString.truthy key); [|discriminate].
  destruct (amountsFor key entries) as [|a amounts]; [discriminate|].
  intros [= <-]. repeat split. discriminate.
Qed.

End LedgerContents.

(** X1. Every key of a ledger is a normalised ticker: it is not empty, has
    no white space around it and no lower-case letter, and it is the
    normalised ticker of some row whose amount is a finite number. The
    page looks a company up by its upper-cased ticker without trimming it, so
    a company whose ticker has white space around it has no zakatable
    amount, whatever the rows. *)
Theorem ledger_keys_are_normalised_tickers :
  forall (portfolioRows : list PortfolioInputRow.t) (fundRows : list FundInputRow.t),
    (forall key invested,
        portfolioAmountMap portfolioRows !! key = Some invested ->
        key <> EmptyString
        /\ JsString.trim key = key
        /\ JsString.toUpperCase key = key
        /\ exists row,
            row ∈ portfolioRows
            /\ ledgerKey (PortfolioInputRow.ticker row) = key
            /\ is_Some (usableAmount (PortfolioInputRow.amount row)))
    /\ (forall key invested,
        fundAmountMap fundRows !! key = Some invested ->
        key <> EmptyString
        /\ JsString.trim key = key
        /\ JsString.toUpperCase key = key
        /\ exists row,
            row ∈ fundRows
            /\ ledgerKey (FundInputRow.ticker row) = key
            /\ is_Some (usableAmount (FundInputRow.amount row)))
    /\ (forall company,
        JsString.trim (JsString.toUpperCase (CompanyValuation.ticker company))
        <> JsString.toUpperCase (CompanyValuation.ticker company) ->
        computePortfolioZakatableAmount (portfolioAmountMap portfolioRows) company = None
        /\ computePortfolioZakatDue (portfolioAmountMap portfolioRows) company = None).
Proof.
  intros portfolioRows fundRows.
  assert (Hkey : forall key entries v,
             ledgerEntry key entries = Some v ->
             key <> EmptyString /\ JsString.trim key = key /\ JsString.toUpperCase key = key
             /\ exists entry, entry ∈ entries /\ ledgerKey entry.1 = key
                              /\ is_Some (usableAmount entry.2)).
  { intros key entries v Hv.
    apply ledgerEntry_some in Hv as (Ht & _ & Hne).
    destruct (amountsFor_source _ _ Hne) as (entry & Hin & Hk & Hu).
    split; [now apply truthy_true|].
    split; [rewrite <- Hk; apply ledgerKey_trimmed|].
    split; [rewrite <- Hk; apply ledgerKey_upper|].
    eauto. }
  assert (Hp : forall key invested,
             portfolioAmountMap portfolioRows !! key = Some invested ->
             key <> EmptyString /\ JsString.trim key = key /\ JsString.toUpperCase key = key
             /\ exists row, row ∈ portfolioRows
                            /\ ledgerKey (PortfolioInputRow.ticker row) = key
                            /\ is_Some (usableAmount (PortfolioInputRow.amount row))).
  { intros key invested Hv.
    rewrite portfolioAmountMap_steps, ledger_of_entries in Hv.
    destruct (Hkey _ _ _ Hv) as (H1 & H2 & H3 & entry & Hin & Hk & Hu).
    repeat (split; [assumption|]).
    apply list_elem_of_fmap in Hin as (row & -> & Hin). eauto. }
  split; [exact Hp|]. split.
  - intros key invested Hv.
    rewrite fundAmountMap_steps, ledger_of_entries in Hv.
    destruct (Hkey _ _ _ Hv) as (H1 & H2 & H3 & entry & Hin & Hk & Hu).
    repeat (split; [assumption|]).
    apply list_elem_of_fmap in Hin as (row & -> & Hin). eauto.
  - intros company Hspace.
    assert (Hz : computePortfolioZakatableAmount (portfolioAmountMap portfolioRows) company
                 = None).
    { unfold computePortfolioZakatableAmount.
      destruct (JsString.truthy _); [|reflexivity]. cbn [negb].
      destruct (portfolioAmountMap portfolioRows
                  !! JsString.toUpperCase (CompanyValuation.ticker company))
        as [invested|] eqn:E; [|reflexivity].
      destruct (Hp _ _ E) as (_ & Htrim & _). contradiction. }
    split; [exact Hz|]. unfold computePortfolioZakatDue. now rewrite Hz.
Qed.

Lemma ledger_keys_are_normalised_tickers_witness :
  let spaced :=
    CompanyValuation.mk " AAPL" None None None None None None None None None None
      (Sample.json "0.01") None [] in
  computePortfolioZakatableAmount (portfolioAmountMap Sample.portfolioRows) spaced = None
  /\ computePortfolioZakatDue (portfolioAmountMap Sample.portfolioRows) spaced = None.
Proof.
  apply (proj2 (proj2 (ledger_keys_are_normalised_tickers Sample.portfolioRows []))).
  cbn. discriminate.
Defined.

(** X2. A ledger never holds [NaN]: the amounts it adds are finite, and a
    sum of finite numbers is a number, though it may be an infinity. *)
Theorem ledger_never_holds_NaN :
  forall (portfolioRows : list PortfolioInputRow.t) (fundRows : list FundInputRow.t)
         (key : string) (invested : float),
    (portfolioAmountMap portfolioRows !! key = Some invested ->
     JsNumber.isNaN invested = false)
    /\ (fundAmountMap fundRows !! key = Some invested ->
        JsNumber.isNaN invested = false).
Proof.
  intros portfolioRows fundRows key invested.
  assert (H : forall entries, ledgerEntry key entries = Some invested ->
                              JsNumber.isNaN invested = false).
  { intros entries Hv. apply ledgerEntry_some in Hv as (_ & -> & _).
    apply isNaN_false, total_notNaN, amountsFor_finite. }
  split; intros Hv.
  - rewrite portfolioAmountMap_steps, ledger_of_entries in Hv. eauto.
  - rewrite fundAmountMap_steps, ledger_of_entries in Hv. eauto.
Qed.

Lemma ledger_never_holds_NaN_witness :
  JsNumber.isNaN (JsNumber.Number "100000") = false.
Proof.
  exact (proj1 (ledger_never_holds_NaN Sample.portfolioRows [] "AAPL"
                  (JsNumber.Number "100000")) eq_refl).
Defined.

(** The sum of finite amounts may overflow: two amounts of 1e308 for one
    ticker are held as [Infinity]. *)
Remark ledger_may_hold_infinity :
  portfolioAmountMap
    [ PortfolioInputRow.mk "big" EmptyString "1e308";
      PortfolioInputRow.mk "BIG" EmptyString "1e308" ] !! "BIG"%string
  = Some PrimFloat.infinity.
Proof. reflexivity. Qed.

(** ** Editing the input rows *)

Section Rows.

Context {A : Type}.
Implicit Types (rows : list A).

(** Keeping the entries whose index is not [target] deletes the entry at
    that index; [offset] is the index of the first row. *)
Lemma filter_other_indexes rows : forall (offset target : nat),
  snd <$> List.filter (fun entry : nat * A => negb (fst entry =? target)%nat)
            (imap (fun j row => ((offset + j)%nat, row)) rows)
  = if (target <? offset)%nat then rows else delete (target - offset)%nat rows.
Proof.
  induction rows as [|row rows IH]; intros offset target.
  - now destruct (target <? offset)%nat.
  - rewrite imap_cons. cbn [List.filter fst]. rewrite Nat.add_0_r.
    assert (Htail :
              snd <$> List.filter (fun entry : nat * A => negb (fst entry =? target)%nat)
                        (imap ((fun j row => ((offset + j)%nat, row)) ∘ S) rows)
              = if (target <? S offset)%nat then rows
                else delete (target - S offset)%nat rows).
    { rewrite <- IH. f_equal. f_equal. apply imap_ext. intros j x _. cbn. f_equal. lia. }
    destruct (Nat.eqb_spec offset target) as [->|Hne]; cbn [negb].
    + rewrite Htail, Nat.sub_diag.
      replace (target <? S target)%nat with true by (symmetry; apply Nat.ltb_lt; lia).
      now rewrite Nat.ltb_irrefl.
    + cbn [fmap list_fmap snd]. fold (@fmap list _ (nat * A) A snd). rewrite Htail.
      destruct (Nat.ltb_spec target offset) as [Hlt|Hge].
      * now replace (target <? S offset)%nat with true by (symmetry; apply Nat.ltb_lt; lia).
      * replace (target <? S offset)%nat with false by (symmetry; apply Nat.ltb_ge; lia).
        replace (target - offset)%nat with (S (target - S offset)) by lia.
        reflexivity.
Qed.

Lemma filter_index_is_delete rows (index : nat) :
  snd <$> List.filter (fun entry : nat * A => negb (fst entry =? index)%nat) (imap pair rows)
  = delete index rows.
Proof.
  pose proof (filter_other_indexes rows 0 index) as H.
  cbn [Nat.ltb Nat.leb] in H. rewrite Nat.sub_0_r in H. exact H.
Qed.

Lemma delete_beyond rows (index : nat) : (length rows <= index)%nat -> delete index rows = rows.
Proof.
  revert index. induction rows as [|row rows IH]; intros [|index] Hle;
    cbn in *; try reflexivity; try lia.
  f_equal. apply IH. lia.
Qed.

End Rows.

(** X3. Removing the row at an index removes exactly that row, wherever
    equal rows stand, and keeps the others in order; an index beyond the
    rows removes nothing. Removing the row that was just added gives back
    the rows. *)
Theorem removing_a_row_deletes_that_row :
  forall (portfolioRows : list PortfolioInputRow.t) (fundRows : list FundInputRow.t)
         (index : nat),
    removePortfolioRow index portfolioRows = delete index portfolioRows
    /\ removeFundRow index fundRows = delete index fundRows
    /\ ((length portfolioRows <= index)%nat -> removePortfolioRow index portfolioRows = portfolioRows)
    /\ ((length fundRows <= index)%nat -> removeFundRow index fundRows = fundRows)
    /\ (forall before row after,
          portfolioRows = before ++ row :: after -> index = length before ->
          removePortfolioRow index portfolioRows = before ++ after)
    /\ (forall before row after,
          fundRows = before ++ row :: after -> index = length before ->
          removeFundRow index fundRows = before ++ after)
    /\ removePortfolioRow (length portfolioRows) (addPortfolioRow portfolioRows) = portfolioRows
    /\ removeFundRow (length fundRows) (addFundRow fundRows) = fundRows.
Proof.
  intros portfolioRows fundRows index.
  unfold removePortfolioRow, removeFundRow, addPortfolioRow, addFundRow.
  rewrite !filter_index_is_delete.
  split; [reflexivity|]. split; [reflexivity|].
  split; [apply delete_beyond|]. split; [apply delete_beyond|].
  split; [intros before row after -> ->; apply delete_middle|].
  split; [intros before row after -> ->; apply delete_middle|].
  split; [rewrite delete_middle; apply app_nil_r|].
  rewrite delete_middle. apply app_nil_r.
Qed.

Lemma removing_a_row_deletes_that_row_witness :
  removePortfolioRow 0 Sample.twiceRows = [PortfolioInputRow.mk "AAPL " EmptyString "250.5"]
  /\ removePortfolioRow 2 Sample.twiceRows = Sample.twiceRows.
Proof.
  split.
  - exact (proj1 (proj2 (proj2 (proj2 (proj2
             (removing_a_row_deletes_that_row Sample.twiceRows [] 0%nat)))))
             [] (PortfolioInputRow.mk " aapl" EmptyString "100")
             [PortfolioInputRow.mk "AAPL " EmptyString "250.5"] eq_refl eq_refl).
  - exact (proj1 (proj2 (proj2 (removing_a_row_deletes_that_row Sample.twiceRows [] 2%nat)))
             ltac:(cbn; lia)).
Defined.

Lemma ledgerStep_no_ticker map ticker amount :
  JsString.truthy (JsString.trim ticker) = false -> ledgerStep map (ticker, amount) = map.
Proof.
  intros H. unfold ledgerStep, ledgerKey. cbn [fst].
  now rewrite truthy_toUpperCase, H.
Qed.

(** X4. A row whose ticker is empty or white space only counts nowhere:
    the ledger and the request body are the same with the row and without
    it. In particular, adding a row (which starts empty) changes neither. *)
Theorem rows_without_ticker_are_ignored :
  forall (before after : list PortfolioInputRow.t) (row : PortfolioInputRow.t)
         (fundsBefore fundsAfter : list FundInputRow.t) (fundRow : FundInputRow.t),
    (JsString.truthy (JsString.trim (PortfolioInputRow.ticker row)) = false ->
     portfolioAmountMap (before ++ row :: after) = portfolioAmountMap (before ++ after)
     /\ portfolioPayload (before ++ row :: after) = portfolioPayload (before ++ after))
    /\ (JsString.truthy (JsString.trim (FundInputRow.ticker fundRow)) = false ->
        fundAmountMap (fundsBefore ++ fundRow :: fundsAfter)
        = fundAmountMap (fundsBefore ++ fundsAfter)
        /\ fundPayload (fundsBefore ++ fundRow :: fundsAfter)
           = fundPayload (fundsBefore ++ fundsAfter))
    /\ portfolioAmountMap (addPortfolioRow before) = portfolioAmountMap before
    /\ portfolioPayload (addPortfolioRow before) = portfolioPayload before
    /\ fundAmountMap (addFundRow fundsBefore) = fundAmountMap fundsBefore
    /\ fundPayload (addFundRow fundsBefore) = fundPayload fundsBefore.
Proof.
  intros before after row fundsBefore fundsAfter fundRow.
  assert (Hp : forall l1 r l2,
             JsString.truthy (JsString.trim (PortfolioInputRow.ticker r)) = false ->
             portfolioAmountMap (l1 ++ r :: l2) = portfolioAmountMap (l1 ++ l2)
             /\ portfolioPayload (l1 ++ r :: l2) = portfolioPayload (l1 ++ l2)).
  { intros l1 r l2 H. split.
    - rewrite !portfolioAmountMap_steps. unfold portfolioEntries.
      rewrite !fmap_app, fmap_cons, !foldl_app. cbn [foldl].
      now rewrite ledgerStep_no_ticker.
    - unfold portfolioPayload. rewrite !List.filter_app. cbn [List.filter].
      now rewrite H. }
  assert (Hf : forall l1 r l2,
             JsString.truthy (JsString.trim (FundInputRow.ticker r)) = false ->
             fundAmountMap (l1 ++ r :: l2) = fundAmountMap (l1 ++ l2)
             /\ fundPayload (l1 ++ r :: l2) = fundPayload (l1 ++ l2)).
  { intros l1 r l2 H. split.
    - rewrite !fundAmountMap_steps. unfold fundEntries.
      rewrite !fmap_app, fmap_cons, !foldl_app. cbn [foldl].
      now rewrite ledgerStep_no_ticker.
    - unfold fundPayload. rewrite !List.filter_app. cbn [List.filter].
      now rewrite H. }
  split; [apply Hp|]. split; [apply Hf|].
  unfold addPortfolioRow, addFundRow.
  destruct (Hp before (PortfolioInputRow.mk EmptyString EmptyString EmptyString) []
              eq_refl) as [H1 H2].
  destruct (Hf fundsBefore (FundInputRow.mk EmptyString EmptyString) [] eq_refl) as [H3 H4].
  rewrite app_nil_r in H1, H2, H3, H4. auto.
Qed.

Lemma rows_without_ticker_are_ignored_witness :
  portfolioAmountMap (Sample.twiceRows ++ [PortfolioInputRow.mk "  " "5" "12"])
  = portfolioAmountMap (Sample.twiceRows ++ [])
  /\ portfolioPayload (Sample.twiceRows ++ [PortfolioInputRow.mk "  " "5" "12"])
     = portfolioPayload (Sample.twiceRows ++ []).
Proof.
  exact (proj1 (rows_without_ticker_are_ignored Sample.twiceRows []
                  (PortfolioInputRow.mk "  " "5" "12") [] [] (FundInputRow.mk "" "")) eq_refl).
Defined.

(** X5. A change of one input of a rendered row changes that field of that
    row and nothing else: the number of rows and every other row stay. A
    ticker is kept in upper case, so that the row counts under the same
    ledger key in whatever case it was typed; shares and amount are kept
    as typed. This holds for the rows of the portfolio form and for those
    of the fund form. *)
Theorem changing_an_input_changes_one_field :
  forall (index : nat) (key : PortfolioField) (value : string)
         (prev : list PortfolioInputRow.t),
    (forall row,
        prev !! index = Some row ->
        exists rows,
          handlePortfolioChange index key value prev = Some rows
          /\ length rows = length prev
          /\ rows !! index = Some (withPortfolioField key value row)
          /\ (forall other, other <> index -> rows !! other = prev !! other)
          /\ (key = PortfolioTicker ->
              PortfolioInputRow.ticker (withPortfolioField key value row)
              = JsString.toUpperCase value
              /\ PortfolioInputRow.shares (withPortfolioField key value row)
                 = PortfolioInputRow.shares row
              /\ PortfolioInputRow.amount (withPortfolioField key value row)
                 = PortfolioInputRow.amount row
              /\ ledgerKey (PortfolioInputRow.ticker (withPortfolioField key value row))
                 = ledgerKey value)
          /\ (key = PortfolioAmount ->
              withPortfolioField key value row
              = PortfolioInputRow.mk (PortfolioInputRow.ticker row)
                  (PortfolioInputRow.shares row) value)
          /\ (key = PortfolioShares ->
              withPortfolioField key value row
              = PortfolioInputRow.mk (PortfolioInputRow.ticker row) value
                  (PortfolioInputRow.amount row)))
    /\ (forall (fundKey : FundField) (fundPrev : list FundInputRow.t) (fundRow : FundInputRow.t),
           fundPrev !! index = Some fundRow ->
           exists rows,
             handleFundChange index fundKey value fundPrev = Some rows
             /\ length rows = length fundPrev
             /\ rows !! index = Some (withFundField fundKey value fundRow)
             /\ (forall other, other <> index -> rows !! other = fundPrev !! other)
             /\ (fundKey = FundTicker ->
                 FundInputRow.amount (withFundField fundKey value fundRow)
                 = FundInputRow.amount fundRow
                 /\ ledgerKey (FundInputRow.ticker (withFundField fundKey value fundRow))
                    = ledgerKey value)
             /\ (fundKey = FundAmount ->
                 withFundField fundKey value fundRow
                 = FundInputRow.mk (FundInputRow.ticker fundRow) value)).
Proof.
  intros index key value prev. split.
  - intros row Hrow. unfold handlePortfolioChange. rewrite Hrow.
    eexists. split; [reflexivity|].
    split; [apply length_insert|].
    split; [apply list_lookup_insert_eq; now apply lookup_lt_Some in Hrow|].
    split; [intros other Hne; now apply list_lookup_insert_ne|].
    split; [intros ->; cbn; repeat split; apply ledgerKey_toUpperCase|].
    split; intros ->; reflexivity.
  - intros fundKey fundPrev fundRow Hrow. unfold handleFundChange. rewrite Hrow.
    eexists. split; [reflexivity|].
    split; [apply length_insert|].
    split; [apply list_lookup_insert_eq; now apply lookup_lt_Some in Hrow|].
    split; [intros other Hne; now apply list_lookup_insert_ne|].
    split; [intros ->; cbn; split; [reflexivity|apply ledgerKey_toUpperCase]|].
    intros ->. reflexivity.
Qed.

Lemma changing_an_input_changes_one_field_witness :
  exists rows,
    handlePortfolioChange 1 PortfolioTicker "msft" Sample.twiceRows = Some rows
    /\ length rows = length Sample.twiceRows
    /\ rows !! 1%nat
       = Some (withPortfolioField PortfolioTicker "msft"
                 (PortfolioInputRow.mk "AAPL " EmptyString "250.5")).
Proof.
  destruct (changing_an_input_changes_one_field 1 PortfolioTicker "msft" Sample.twiceRows)
    as [Hin _].
  destruct (Hin (PortfolioInputRow.mk "AAPL " EmptyString "250.5") eq_refl)
    as (rows & Hrows & Hlen & Hrow & _).
  exists rows; auto.
Defined.

(** ** The request bodies *)

Section Payload.

Lemma elem_of_List_filter {A} (P : A -> bool) (l : list A) (x : A) :
  x ∈ List.filter P l <-> x ∈ l /\ P x = true.
Proof. rewrite !list_elem_of_In. apply filter_In. Qed.

Lemma length_List_filter {A} (P : A -> bool) (l : list A) :
  (length (List.filter P l) <= length l)%nat.
Proof. induction l as [|x l IH]; cbn; [lia|]. destruct (P x); cbn; lia. Qed.

Lemma ledger_key_has_row entries key v :
  foldl ledgerStep ∅ entries !! key = Some v ->
  exists entry,
    entry ∈ entries
    /\ JsString.truthy (JsString.trim entry.1) = true
    /\ JsString.toUpperCase (JsString.trim entry.1) = key.
Proof.
  rewrite ledger_of_entries. intros Hv.
  apply ledgerEntry_some in Hv as (Ht & _ & Hne).
  destruct (amountsFor_source _ _ Hne) as (entry & Hin & Hk & _).
  exists entry. split; [exact Hin|]. split; [|exact Hk].
  rewrite <- Hk in Ht. unfold ledgerKey in Ht. now rewrite truthy_toUpperCase in Ht.
Qed.

Lemma empty_when_no_key {V} (m : gmap string V) :
  (forall key v, m !! key = Some v -> False) -> m = ∅.
Proof.
  intros H. apply map_eq. intros key. rewrite lookup_empty.
  destruct (m !! key) as [v|] eqn:E; [destruct (H _ _ E)|reflexivity].
Qed.

End Payload.



(** X7. Pressing a request button sends a request exactly when an as-of
    date is set and the body has at least one item (and, for the portfolio
    form, the portfolio tab is the active one). When a request is sent the
    error message is cleared and the mode's loading flag is raised; when
    none is sent no loading flag changes and, unless the form is that of
    the other tab, an error message is shown. In both cases the rows, the
    results, the timestamps, the date, the tab and the other mode's
    loading flag stay as they are. *)
Theorem request_is_sent_for_a_date_and_a_ticker :
  forall (s : State.t),
    let portfolio := handlePortfolioSubmit_begin s in
    let fund := handleFundFetch_begin s in
    (portfolio.2 = true
     <-> State.activeTab s = PortfolioTab
         /\ State.asOfDate s <> EmptyString
         /\ portfolioPayload (State.portfolioRows s) <> [])
    /\ (fund.2 = true
        <-> State.asOfDate s <> EmptyString /\ fundPayload (State.fundRows s) <> [])
    /\ (portfolio.2 = true ->
        State.error portfolio.1 = None /\ State.portfolioLoading portfolio.1 = true)
    /\ (fund.2 = true ->
        State.error fund.1 = None /\ State.fundLoading fund.1 = true)
    /\ (portfolio.2 = false ->
        State.portfolioLoading portfolio.1 = State.portfolioLoading s
        /\ (State.activeTab s = PortfolioTab -> is_Some (State.error portfolio.1))
        /\ (State.activeTab s = FundsTab -> portfolio.1 = s))
    /\ (fund.2 = false ->
        State.fundLoading fund.1 = State.fundLoading s /\ is_Some (State.error fund.1))
    /\ State.setPortfolioLoading (State.portfolioLoading s) (State.setError (State.error s)
         portfolio.1) = s
    /\ State.setFundLoading (State.fundLoading s) (State.setError (State.error s) fund.1) = s.
Proof.
  intros s portfolio fund. subst portfolio fund.
  assert (Hlen : forall {A B} (f : A -> B) (l : list A), (length l =? 0)%nat = false <-> f <$> l <> []).
  { intros A B f l. destruct l; cbn; split; congruence. }
  unfold handlePortfolioSubmit_begin, handleFundFetch_begin, portfolioPayload, fundPayload.
  pose proof (truthy_true (State.asOfDate s)) as Hdate.
  destruct s as [date prows frows pres fres pgen fgen pload fload err tab].
  cbn [State.asOfDate State.portfolioRows State.fundRows State.activeTab] in *.
  set (pp := List.filter _ prows). set (fp := List.filter _ frows).
  pose proof (Hlen _ _ (fun row =>
     PortfolioPayloadItem.mk (JsString.trim (PortfolioInputRow.ticker row))
       (optionalNumber (PortfolioInputRow.shares row))
       (optionalNumber (PortfolioInputRow.amount row))) pp) as Hpp.
  pose proof (Hlen _ _ (fun row =>
     FundPayloadItem.mk (JsString.trim (FundInputRow.ticker row))
       (optionalNumber (FundInputRow.amount row))) fp) as Hfp.
  clear Hlen.
  destruct (JsString.truthy date) eqn:Ed; cbn [negb];
    destruct (length pp =? 0)%nat eqn:Ep; destruct (length fp =? 0)%nat eqn:Ef;
    destruct tab; cbn;
    repeat split; try reflexivity; try congruence; try (intros; discriminate);
    try tauto; try (intros; eauto; fail);
    try (intros (? & ? & ?); try discriminate; tauto);
    try (intros (? & ?); tauto);
    intuition (discriminate || congruence).
Qed.

Lemma request_is_sent_for_a_date_and_a_ticker_witness :
  State.error (handlePortfolioSubmit_begin
                 (State.mk "2024-03-31" Sample.portfolioRows [] [] [] None None false false
                    (Some "Add at least one company ticker."%string) PortfolioTab)).1 = None
  /\ State.portfolioLoading
       (handlePortfolioSubmit_begin
          (State.mk "2024-03-31" Sample.portfolioRows [] [] [] None None false false
             (Some "Add at least one company ticker."%string) PortfolioTab)).1 = true.
Proof.
  exact (proj1 (proj2 (proj2 (request_is_sent_for_a_date_and_a_ticker
           (State.mk "2024-03-31" Sample.portfolioRows [] [] [] None None false false
              (Some "Add at least one company ticker."%string) PortfolioTab)))) eq_refl).
Defined.

(** ** Runs of the request handlers *)

Section Runs.

Ltac handler_cases :=
  unfold handlePortfolioSubmit_begin, handleFundFetch_begin,
    handlePortfolioSubmit_settle, handleFundFetch_settle;
  cbn;
  repeat (match goal with
          | |- context [match ?b with _ => _ end] => destruct b
          end; cbn).

Lemma step_stamped s e : stamped s -> stamped (step s e).
Proof.
  destruct s. unfold stamped. cbn. intros [Hp Hf].
  destruct e as [tab| |outcome| |outcome]; cbn [step]; handler_cases; eauto.
Qed.

Lemma step_inputs s e :
  State.asOfDate (step s e) = State.asOfDate s
  /\ State.portfolioRows (step s e) = State.portfolioRows s
  /\ State.fundRows (step s e) = State.fundRows s.
Proof.
  destruct s.
  destruct e as [tab| |outcome| |outcome]; cbn [step]; handler_cases; auto.
Qed.

Lemma step_keeps_timestamps s e :
  (is_Some (State.portfolioGeneratedAt s) -> is_Some (State.portfolioGeneratedAt (step s e)))
  /\ (is_Some (State.fundGeneratedAt s) -> is_Some (State.fundGeneratedAt (step s e))).
Proof.
  destruct s.
  destruct e as [tab| |outcome| |outcome]; cbn [step]; handler_cases; eauto.
Qed.

Lemma step_keeps_portfolio_result s e :
  storesPortfolioResult e = false ->
  State.portfolioResult (step s e) = State.portfolioResult s
  /\ State.portfolioGeneratedAt (step s e) = State.portfolioGeneratedAt s.
Proof.
  destruct s.
  destruct e as [tab| |outcome| |outcome]; cbn [step storesPortfolioResult];
    try destruct outcome; try discriminate; intros _; handler_cases; auto.
Qed.

Lemma step_keeps_fund_result s e :
  storesFundResult e = false ->
  State.fundResult (step s e) = State.fundResult s
  /\ State.fundGeneratedAt (step s e) = State.fundGeneratedAt s.
Proof.
  destruct s.
  destruct e as [tab| |outcome| |outcome]; cbn [step storesFundResult];
    try destruct outcome; try discriminate; intros _; handler_cases; auto.
Qed.

End Runs.

(** X8. However requests are made and however they end, a mode whose
    result is not empty has a timestamp: if this holds of a state, it
    holds after every run of tab selections, button presses and settled
    requests. A timestamp once present stays present, and no handler
    changes the date or the rows that were entered. *)
Theorem result_is_never_without_timestamp :
  forall (events : list Event) (s : State.t),
    (State.portfolioResult s <> [] -> is_Some (State.portfolioGeneratedAt s)) ->
    (State.fundResult s <> [] -> is_Some (State.fundGeneratedAt s)) ->
    (State.portfolioResult (run events s) <> [] ->
     is_Some (State.portfolioGeneratedAt (run events s)))
    /\ (State.fundResult (run events s) <> [] ->
        is_Some (State.fundGeneratedAt (run events s)))
    /\ (is_Some (State.portfolioGeneratedAt s) ->
        is_Some (State.portfolioGeneratedAt (run events s)))
    /\ (is_Some (State.fundGeneratedAt s) -> is_Some (State.fundGeneratedAt (run events s)))
    /\ State.asOfDate (run events s) = State.asOfDate s
    /\ State.portfolioRows (run events s) = State.portfolioRows s
    /\ State.fundRows (run events s) = State.fundRows s.
Proof.
  induction events as [|e events IH]; intros s Hp Hf.
  - cbn. auto 10.
  - cbn [run foldl]. fold (run events (step s e)).
    destruct (step_stamped s e (conj Hp Hf)) as [Hp' Hf'].
    destruct (IH (step s e) Hp' Hf') as (H1 & H2 & H3 & H4 & H5 & H6 & H7).
    destruct (step_inputs s e) as (I1 & I2 & I3).
    destruct (step_keeps_timestamps s e) as [T1 T2].
    split; [exact H1|]. split; [exact H2|].
    split; [auto|]. split; [auto|].
    split; [congruence|]. split; congruence.
Qed.

Lemma result_is_never_without_timestamp_witness :
  is_Some (State.portfolioGeneratedAt
             (run [PortfolioSettled (Fulfilled Sample.response); FundSettled (Thrown None)]
                State.initial)).
Proof.
  refine (proj1 (result_is_never_without_timestamp
                   [PortfolioSettled (Fulfilled Sample.response); FundSettled (Thrown None)]
                   State.initial _ _) _).
  - intros H. now destruct H.
  - intros H. now destruct H.
  - discriminate.
Defined.

(** X9. The result and the timestamp of a mode change only when a request
    of that mode ends well: over a run in which none does, they are what
    they were, whatever else happens (requests that fail, requests of the
    other mode, tab changes). So a failed request leaves the earlier
    result on the page, next to the error message. *)
Theorem result_changes_only_when_request_succeeds :
  forall (events : list Event) (s : State.t),
    (forallb (fun e => negb (storesPortfolioResult e)) events = true ->
     State.portfolioResult (run events s) = State.portfolioResult s
     /\ State.portfolioGeneratedAt (run events s) = State.portfolioGeneratedAt s)
    /\ (forallb (fun e => negb (storesFundResult e)) events = true ->
        State.fundResult (run events s) = State.fundResult s
        /\ State.fundGeneratedAt (run events s) = State.fundGeneratedAt s).
Proof.
  induction events as [|e events IH]; intros s; [cbn; auto|].
  cbn [run foldl forallb]. fold (run events (step s e)).
  destruct (IH (step s e)) as [Hp Hf]. split.
  - intros H. apply andb_prop in H as [He Hrest].
    apply negb_true_iff in He.
    destruct (step_keeps_portfolio_result s e He) as [E1 E2].
    destruct (Hp Hrest) as [R1 R2]. split; congruence.
  - intros H. apply andb_prop in H as [He Hrest].
    apply negb_true_iff in He.
    destruct (step_keeps_fund_result s e He) as [E1 E2].
    destruct (Hf Hrest) as [R1 R2]. split; congruence.
Qed.

Lemma result_changes_only_when_request_succeeds_witness :
  State.portfolioResult
    (run [PortfolioSettled (NotOk "Bad Gateway"); FundSettled (Fulfilled Sample.response);
          TabSelected FundsTab; PortfolioSubmitted]
       (State.mk "2024-03-31" Sample.portfolioRows [] [Sample.AAPL] [] Sample.generatedAt
          None true false None PortfolioTab))
  = [Sample.AAPL].
Proof.
  exact (proj1 (proj1 (result_changes_only_when_request_succeeds
           [PortfolioSettled (NotOk "Bad Gateway"); FundSettled (Fulfilled Sample.response);
            TabSelected FundsTab; PortfolioSubmitted]
           (State.mk "2024-03-31" Sample.portfolioRows [] [Sample.AAPL] []
              Sample.generatedAt None true false None PortfolioTab)) eq_refl)).
Defined.

(** ** Column settings *)

Section ColumnSettings.

Context {C : Type} (id : C -> string) (defaultWidth : C -> float).

Lemma find_unique_id (columns : list C) (column : C) :
  NoDup (id <$> columns) ->
  column ∈ columns ->
  List.find (fun col => String.eqb (id col) (id column)) columns = Some column.
Proof.
  induction columns as [|c columns IH]; intros Hnd Hin; [now apply not_elem_of_nil in Hin|].
  rewrite fmap_cons in Hnd. apply NoDup_cons in Hnd as [Hfresh Hnd].
  cbn [List.find]. destruct (String.eqb_spec (id c) (id column)) as [E|Hne].
  - apply elem_of_cons in Hin as [->|Hin]; [reflexivity|].
    exfalso. apply Hfresh. rewrite E. apply list_elem_of_fmap. eauto.
  - apply elem_of_cons in Hin as [->|Hin]; [congruence|auto].
Qed.

Lemma heal_lookup_some (columns : list C) :
  forall (prev : gmap string ColumnConfig.t) key entry,
  prev !! key = Some entry ->
  foldl (fun next column =>
           match next !! id column with
           | Some _ => next
           | None => <[id column := defaultColumnConfig (defaultWidth column)]> next
           end) prev columns !! key = Some entry.
Proof.
  induction columns as [|c columns IH]; intros prev key entry H; [exact H|].
  cbn [foldl]. apply IH.
  destruct (prev !! id c) eqn:E; [exact H|].
  rewrite lookup_insert_ne; [exact H|congruence].
Qed.

Lemma heal_lookup_none (columns : list C) :
  forall (prev : gmap string ColumnConfig.t) key,
  prev !! key = None ->
  foldl (fun next column =>
           match next !! id column with
           | Some _ => next
           | None => <[id column := defaultColumnConfig (defaultWidth column)]> next
           end) prev columns !! key
  = (fun column => defaultColumnConfig (defaultWidth column))
    <$> List.find (fun col => String.eqb (id col) key) columns.
Proof.
  induction columns as [|c columns IH]; intros prev key H; [exact H|].
  cbn [foldl List.find]. destruct (String.eqb_spec (id c) key) as [E|Hne].
  - rewrite E, H. cbn [fmap option_fmap option_map].
    apply heal_lookup_some. rewrite <- E. apply lookup_insert_eq.
  - apply IH. destruct (prev !! id c); [exact H|].
    now rewrite lookup_insert_ne.
Qed.

Lemma heal_complete (columns : list C) (prev : gmap string ColumnConfig.t) :
  (forall column, column ∈ columns -> is_Some (prev !! id column)) ->
  foldl (fun next column =>
           match next !! id column with
           | Some _ => next
           | None => <[id column := defaultColumnConfig (defaultWidth column)]> next
           end) prev columns = prev.
Proof.
  induction columns as [|c columns IH]; intros H; [reflexivity|].
  cbn [foldl]. destruct (H c) as [entry E]; [left|]. rewrite E.
  apply IH. intros column Hin. apply H. now right.
Qed.

Lemma initial_snoc (columns : list C) (c : C) :
  foldl (fun (config : gmap string ColumnConfig.t) column =>
           <[id column := defaultColumnConfig (defaultWidth column)]> config)
    ∅ (columns ++ [c])
  = <[id c := defaultColumnConfig (defaultWidth c)]>
      (foldl (fun (config : gmap string ColumnConfig.t) column =>
                <[id column := defaultColumnConfig (defaultWidth column)]> config)
         ∅ columns).
Proof. now rewrite foldl_app. Qed.

Lemma initial_lookup (columns : list C) (key : string) (entry : ColumnConfig.t) :
  foldl (fun (config : gmap string ColumnConfig.t) column =>
           <[id column := defaultColumnConfig (defaultWidth column)]> config)
    ∅ columns !! key = Some entry ->
  ColumnConfig.visible entry = true
  /\ exists column, column ∈ columns /\ id column = key
                    /\ entry = defaultColumnConfig (defaultWidth column).
Proof.
  induction columns as [|c columns IH] using rev_ind;
    [cbn [foldl]; rewrite lookup_empty; discriminate|].
  rewrite initial_snoc. destruct (String.eqb_spec (id c) key) as [E|Hne].
  - rewrite E, lookup_insert_eq. intros [= <-]. split; [reflexivity|].
    exists c. split; [apply elem_of_app; right; left|]. auto.
  - rewrite lookup_insert_ne by exact Hne. intros H.
    destruct (IH H) as (Hv & column & Hin & Hid & He). split; [exact Hv|].
    exists column. split; [apply elem_of_app; now left|]. auto.
Qed.

Lemma initial_has_every_column (columns : list C) (column : C) :
  column ∈ columns ->
  is_Some (foldl (fun (config : gmap string ColumnConfig.t) column =>
                    <[id column := defaultColumnConfig (defaultWidth column)]> config)
             ∅ columns !! id column).
Proof.
  induction columns as [|c columns IH] using rev_ind;
    intros Hin; [now apply not_elem_of_nil in Hin|].
  rewrite initial_snoc. destruct (String.eqb_spec (id c) (id column)) as [E|Hne].
  - rewrite E, lookup_insert_eq. eauto.
  - rewrite lookup_insert_ne by exact Hne. apply IH.
    apply elem_of_app in Hin as [Hin|Hin]; [exact Hin|].
    apply list_elem_of_singleton in Hin. congruence.
Qed.

Lemma initial_entry (columns : list C) (column : C) :
  NoDup (id <$> columns) ->
  column ∈ columns ->
  foldl (fun (config : gmap string ColumnConfig.t) column =>
           <[id column := defaultColumnConfig (defaultWidth column)]> config)
    ∅ columns !! id column = Some (defaultColumnConfig (defaultWidth column)).
Proof.
  intros Hnd Hin. destruct (initial_has_every_column columns column Hin) as [entry He].
  rewrite He. destruct (initial_lookup _ _ _ He) as (_ & c & Hc & Hid & ->).
  assert (c = column); [|congruence].
  pose proof (find_unique_id columns c Hnd Hc) as F1.
  pose proof (find_unique_id columns column Hnd Hin) as F2.
  rewrite Hid in F1. congruence.
Qed.

Lemma width_after_toggle (columns : list C) (config : gmap string ColumnConfig.t)
    (columnId : string) (visible : bool) (column : C) :
  NoDup (id <$> columns) ->
  column ∈ columns ->
  default (defaultWidth column)
    (ColumnConfig.width
     <$> <[columnId :=
             {| ColumnConfig.visible := visible;
                ColumnConfig.width :=
                  default (default 160%float
                             (defaultWidth
                              <$> List.find (fun col => String.eqb (id col) columnId) columns))
                    (ColumnConfig.width <$> config !! columnId) |}]> config !! id column)
  = default (defaultWidth column) (ColumnConfig.width <$> config !! id column).
Proof.
  intros Hnd Hin. destruct (String.eqb_spec (id column) columnId) as [<-|Hne].
  - rewrite lookup_insert_eq. cbn [fmap option_fmap option_map default ColumnConfig.width].
    rewrite (find_unique_id columns column Hnd Hin).
    now destruct (config !! id column).
  - rewrite lookup_insert_ne by congruence. reflexivity.
Qed.

Lemma width_after_heal (columns : list C) (prev : gmap string ColumnConfig.t) (column : C) :
  NoDup (id <$> columns) ->
  column ∈ columns ->
  default (defaultWidth column)
    (ColumnConfig.width
     <$> foldl (fun next column =>
                  match next !! id column with
                  | Some _ => next
                  | None => <[id column := defaultColumnConfig (defaultWidth column)]> next
                  end) prev columns !! id column)
  = default (defaultWidth column) (ColumnConfig.width <$> prev !! id column).
Proof.
  intros Hnd Hin. destruct (prev !! id column) as [entry|] eqn:E.
  - now rewrite (heal_lookup_some columns prev _ _ E).
  - rewrite (heal_lookup_none columns prev _ E), (find_unique_id columns column Hnd Hin).
    reflexivity.
Qed.

Lemma visible_after_heal (columns : list C) (prev : gmap string ColumnConfig.t) (key : string) :
  isVisible
    (foldl (fun next column =>
              match next !! id column with
              | Some _ => next
              | None => <[id column := defaultColumnConfig (defaultWidth column)]> next
              end) prev columns) key
  = isVisible prev key.
Proof.
  unfold isVisible. destruct (prev !! key) as [entry|] eqn:E.
  - now rewrite (heal_lookup_some columns prev _ _ E).
  - rewrite (heal_lookup_none columns prev _ E).
    now destruct (List.find _ columns).
Qed.

End ColumnSettings.

Lemma isVisible_after_resize (config : gmap string ColumnConfig.t) columnId width key :
  isVisible (<[columnId := {| ColumnConfig.visible :=
                                default true (ColumnConfig.visible <$> config !! columnId);
                              ColumnConfig.width := width |}]> config) key
  = isVisible config key.
Proof.
  rewrite isVisible_insert. unfold isVisible.
  now destruct (String.eqb_spec key columnId) as [->|_].
Qed.

Lemma toggle_resize_commute (fallback : float) (config : gmap string ColumnConfig.t)
    columnId visible otherId width :
  <[columnId := {| ColumnConfig.visible := visible;
                   ColumnConfig.width :=
                     default fallback
                       (ColumnConfig.width
                        <$> <[otherId :=
                                {| ColumnConfig.visible :=
                                     default true (ColumnConfig.visible <$> config !! otherId);
                                   ColumnConfig.width := width |}]> config !! columnId) |}]>
    (<[otherId := {| ColumnConfig.visible :=
                       default true (ColumnConfig.visible <$> config !! otherId);
                     ColumnConfig.width := width |}]> config)
  = <[otherId :=
        {| ColumnConfig.visible :=
             default true
               (ColumnConfig.visible
                <$> <[columnId :=
                        {| ColumnConfig.visible := visible;
                           ColumnConfig.width :=
                             default fallback (ColumnConfig.width <$> config !! columnId) |}]>
                      config !! otherId);
           ColumnConfig.width := width |}]>
      (<[columnId := {| ColumnConfig.visible := visible;
                        ColumnConfig.width :=
                          default fallback (ColumnConfig.width <$> config !! columnId) |}]>
         config).
Proof.
  destruct (String.eqb_spec columnId otherId) as [->|Hne].
  - rewrite !lookup_insert_eq, !insert_insert_eq. reflexivity.
  - rewrite !lookup_insert_ne by congruence. now apply insert_insert_ne.
Qed.

Lemma portfolioColumns_ids `{Runtime} ledger :
  NoDup (PortfolioColumn.id <$> portfolioColumns ledger).
Proof. apply (bool_decide_unpack _). vm_compute. exact I. Qed.

Lemma fundHoldingColumns_ids `{Runtime} :
  NoDup (FundHoldingColumn.id <$> fundHoldingColumns).
Proof. apply (bool_decide_unpack _). vm_compute. exact I. Qed.

(** X10. Showing or hiding a column and resizing a column do not touch
    each other: a resize changes no column's visibility, so the visible
    columns stay; a change of visibility changes the width of no column of
    the table; and the two can be done in either order, on the same column
    or on two, with the same settings in the end. This holds for the
    portfolio table and for the holdings table. *)
Theorem visibility_and_width_are_independent :
  forall `{Runtime} (ledger : gmap string float) (config : gmap string ColumnConfig.t)
         (columnId otherId : string) (visible : bool) (width : float),
    let columns := portfolioColumns ledger in
    (forall key,
        isVisible (handlePortfolioColumnWidthChange otherId width config) key
        = isVisible config key)
    /\ visiblePortfolioColumns columns (handlePortfolioColumnWidthChange otherId width config)
       = visiblePortfolioColumns columns config
    /\ (forall column,
           column ∈ columns ->
           portfolioColumnWidth
             (handlePortfolioColumnVisibilityChange columns columnId visible config) column
           = portfolioColumnWidth config column)
    /\ handlePortfolioColumnVisibilityChange columns columnId visible
         (handlePortfolioColumnWidthChange otherId width config)
       = handlePortfolioColumnWidthChange otherId width
           (handlePortfolioColumnVisibilityChange columns columnId visible config)
    /\ (forall key,
           isVisible (handleFundColumnWidthChange otherId width config) key
           = isVisible config key)
    /\ visibleFundHoldingColumns fundHoldingColumns
         (handleFundColumnWidthChange otherId width config)
       = visibleFundHoldingColumns fundHoldingColumns config
    /\ (forall column,
           column ∈ fundHoldingColumns ->
           fundHoldingColumnWidth
             (handleFundColumnVisibilityChange fundHoldingColumns columnId visible config)
             column
           = fundHoldingColumnWidth config column)
    /\ handleFundColumnVisibilityChange fundHoldingColumns columnId visible
         (handleFundColumnWidthChange otherId width config)
       = handleFundColumnWidthChange otherId width
           (handleFundColumnVisibilityChange fundHoldingColumns columnId visible config).
Proof.
  intros runtime ledger config columnId otherId visible width columns.
  unfold handlePortfolioColumnWidthChange, handleFundColumnWidthChange,
    handlePortfolioColumnVisibilityChange, handleFundColumnVisibilityChange,
    visiblePortfolioColumns, visibleFundHoldingColumns,
    portfolioColumnWidth, fundHoldingColumnWidth.
  split; [intros key; apply isVisible_after_resize|].
  split; [apply List.filter_ext; intros column; apply isVisible_after_resize|].
  split; [intros column Hin;
          apply (width_after_toggle PortfolioColumn.id PortfolioColumn.defaultWidth);
          [apply portfolioColumns_ids|exact Hin]|].
  split; [apply toggle_resize_commute|].
  split; [intros key; apply isVisible_after_resize|].
  split; [apply List.filter_ext; intros column; apply isVisible_after_resize|].
  split; [intros column Hin;
          apply (width_after_toggle FundHoldingColumn.id FundHoldingColumn.defaultWidth);
          [apply fundHoldingColumns_ids|exact Hin]|].
  apply toggle_resize_commute.
Qed.

Lemma visibility_and_width_are_independent_witness :
  match @portfolioColumns referenceRuntime ∅ with
  | column :: _ =>
      portfolioColumnWidth
        (handlePortfolioColumnVisibilityChange (@portfolioColumns referenceRuntime ∅)
           "ticker" false ∅) column
      = portfolioColumnWidth ∅ column
  | [] => True
  end.
Proof.
  pose proof (@visibility_and_width_are_independent referenceRuntime ∅ ∅
                "ticker" "name" false 200%float) as (_ & _ & Hw & _).
  cbv zeta in Hw.
  exact (Hw _ (list_elem_of_here _ _)).
Defined.

(** X11. The settings a table starts with have an entry for each of its
    columns, visible and of the column's default width, so that every
    column is shown. The effect that completes the settings keeps every
    entry there is, gives each column an entry, changes neither what is
    visible nor any width, does nothing to the initial settings and
    nothing when run a second time. *)
Theorem completing_the_settings_changes_nothing_shown :
  forall `{Runtime} (ledger : gmap string float) (config : gmap string ColumnConfig.t),
    let columns := portfolioColumns ledger in
    (forall column,
        column ∈ columns ->
        initialPortfolioColumnConfig columns !! PortfolioColumn.id column
        = Some (defaultColumnConfig (PortfolioColumn.defaultWidth column)))
    /\ visiblePortfolioColumns columns (initialPortfolioColumnConfig columns) = columns
    /\ (forall key entry,
           config !! key = Some entry ->
           healPortfolioColumnConfig columns config !! key = Some entry)
    /\ (forall column,
           column ∈ columns ->
           is_Some (healPortfolioColumnConfig columns config !! PortfolioColumn.id column))
    /\ (forall key,
           isVisible (healPortfolioColumnConfig columns config) key = isVisible config key)
    /\ (forall column,
           column ∈ columns ->
           portfolioColumnWidth (healPortfolioColumnConfig columns config) column
           = portfolioColumnWidth config column)
    /\ healPortfolioColumnConfig columns (initialPortfolioColumnConfig columns)
       = initialPortfolioColumnConfig columns
    /\ healPortfolioColumnConfig columns (healPortfolioColumnConfig columns config)
       = healPortfolioColumnConfig columns config
    /\ (forall column,
           column ∈ fundHoldingColumns ->
           initialFundHoldingColumnConfig fundHoldingColumns !! FundHoldingColumn.id column
           = Some (defaultColumnConfig (FundHoldingColumn.defaultWidth column)))
    /\ visibleFundHoldingColumns fundHoldingColumns
         (initialFundHoldingColumnConfig fundHoldingColumns) = fundHoldingColumns
    /\ (forall key,
           isVisible (healFundHoldingColumnConfig fundHoldingColumns config) key
           = isVisible config key)
    /\ (forall column,
           column ∈ fundHoldingColumns ->
           fundHoldingColumnWidth (healFundHoldingColumnConfig fundHoldingColumns config) column
           = fundHoldingColumnWidth config column)
    /\ healFundHoldingColumnConfig fundHoldingColumns
         (initialFundHoldingColumnConfig fundHoldingColumns)
       = initialFundHoldingColumnConfig fundHoldingColumns
    /\ healFundHoldingColumnConfig fundHoldingColumns
         (healFundHoldingColumnConfig fundHoldingColumns config)
       = healFundHoldingColumnConfig fundHoldingColumns config.
Proof.
  intros runtime ledger config columns.
  pose proof (portfolioColumns_ids ledger) as Hp. fold columns in Hp.
  pose proof fundHoldingColumns_ids as Hf.
  assert (Hall : forall {C} (l : list C) (f : C -> bool),
             (forall x, x ∈ l -> f x = true) -> List.filter f l = l).
  { intros C l f. induction l as [|x l IH]; intros H; [reflexivity|].
    cbn [List.filter]. rewrite (H x) by left. f_equal. apply IH.
    intros y Hy. apply H. now right. }
  assert (HhealP : forall column prev,
             column ∈ columns ->
             is_Some (healPortfolioColumnConfig columns prev !! PortfolioColumn.id column)).
  { intros column prev Hin. unfold healPortfolioColumnConfig.
    destruct (prev !! PortfolioColumn.id column) as [entry|] eqn:E.
    - rewrite (heal_lookup_some PortfolioColumn.id PortfolioColumn.defaultWidth
                 columns prev _ _ E). eauto.
    - rewrite (heal_lookup_none PortfolioColumn.id PortfolioColumn.defaultWidth
                 columns prev _ E),
        (find_unique_id PortfolioColumn.id columns column Hp Hin). cbn. eauto. }
  assert (HhealF : forall column prev,
             column ∈ fundHoldingColumns ->
             is_Some (healFundHoldingColumnConfig fundHoldingColumns prev
                      !! FundHoldingColumn.id column)).
  { intros column prev Hin. unfold healFundHoldingColumnConfig.
    destruct (prev !! FundHoldingColumn.id column) as [entry|] eqn:E.
    - rewrite (heal_lookup_some FundHoldingColumn.id FundHoldingColumn.defaultWidth
                 fundHoldingColumns prev _ _ E). eauto.
    - rewrite (heal_lookup_none FundHoldingColumn.id FundHoldingColumn.defaultWidth
                 fundHoldingColumns prev _ E),
        (find_unique_id FundHoldingColumn.id fundHoldingColumns column Hf Hin). cbn. eauto. }
  split; [intros column Hin;
          apply (initial_entry PortfolioColumn.id PortfolioColumn.defaultWidth); assumption|].
  split.
  { unfold visiblePortfolioColumns. apply Hall. intros column Hin. unfold isVisible.
    unfold initialPortfolioColumnConfig.
    now rewrite (initial_entry PortfolioColumn.id PortfolioColumn.defaultWidth
                   columns column Hp Hin). }
  split; [intros key entry;
          apply (heal_lookup_some PortfolioColumn.id PortfolioColumn.defaultWidth)|].
  split; [intros column Hin; now apply HhealP|].
  split; [intros key;
          apply (visible_after_heal PortfolioColumn.id PortfolioColumn.defaultWidth)|].
  split; [intros column Hin;
          apply (width_after_heal PortfolioColumn.id PortfolioColumn.defaultWidth);
          assumption|].
  split; [apply (heal_complete PortfolioColumn.id PortfolioColumn.defaultWidth);
          intros column Hin;
          apply (initial_has_every_column PortfolioColumn.id PortfolioColumn.defaultWidth);
          exact Hin|].
  split; [apply (heal_complete PortfolioColumn.id PortfolioColumn.defaultWidth);
          intros column Hin; now apply HhealP|].
  split; [intros column Hin;
          apply (initial_entry FundHoldingColumn.id FundHoldingColumn.defaultWidth);
          assumption|].
  split.
  { unfold visibleFundHoldingColumns. apply Hall. intros column Hin. unfold isVisible.
    unfold initialFundHoldingColumnConfig.
    now rewrite (initial_entry FundHoldingColumn.id FundHoldingColumn.defaultWidth
                   fundHoldingColumns column Hf Hin). }
  split; [intros key;
          apply (visible_after_heal FundHoldingColumn.id FundHoldingColumn.defaultWidth)|].
  split; [intros column Hin;
          apply (width_after_heal FundHoldingColumn.id FundHoldingColumn.defaultWidth);
          assumption|].
  split; [apply (heal_complete FundHoldingColumn.id FundHoldingColumn.defaultWidth);
          intros column Hin;
          apply (initial_has_every_column FundHoldingColumn.id
                   FundHoldingColumn.defaultWidth);
          exact Hin|].
  apply (heal_complete FundHoldingColumn.id FundHoldingColumn.defaultWidth).
  intros column Hin. now apply HhealF.
Qed.

Lemma completing_the_settings_changes_nothing_shown_witness :
  match @portfolioColumns referenceRuntime ∅ with
  | column :: _ =>
      portfolioColumnWidth
        (healPortfolioColumnConfig (@portfolioColumns referenceRuntime ∅) ∅) column
      = portfolioColumnWidth ∅ column
  | [] => True
  end.
Proof.
  pose proof (@completing_the_settings_changes_nothing_shown referenceRuntime ∅ ∅)
    as (_ & _ & _ & _ & _ & Hw & _).
  cbv zeta in Hw.
  exact (Hw _ (list_elem_of_here _ _)).
Defined.

(** ** Reading back what the exporter writes *)

Section ReadBack.

Lemma append_cons c s t : String c s +:+ t = String c (s +:+ t).
Proof. reflexivity. Qed.

Lemma append_empty_l t : EmptyString +:+ t = t.
Proof. reflexivity. Qed.

Lemma append_empty_r s : s +:+ EmptyString = s.
Proof. induction s as [|c s IH]; [reflexivity|]. now rewrite append_cons, IH. Qed.

Lemma append_assoc s t u : (s +:+ t) +:+ u = s +:+ (t +:+ u).
Proof. induction s as [|c s IH]; [reflexivity|]. now rewrite !append_cons, IH. Qed.

Lemma read_plain_field value : forall tail field fields records,
  JsString.includes QUOTE value = false ->
  JsString.includes COMMA value = false ->
  JsString.includes LF value = false ->
  CsvReader.read false tail = (field :: fields) :: records ->
  CsvReader.read false (value +:+ tail) = ((value +:+ field) :: fields) :: records.
Proof.
  induction value as [|c value IH]; intros tail field fields records Hq Hc Hl Htail;
    [exact Htail|].
  cbn [JsString.includes] in Hq, Hc, Hl.
  apply Bool.orb_false_elim in Hq as [Hq1 Hq], Hc as [Hc1 Hc], Hl as [Hl1 Hl].
  rewrite !append_cons. cbn [CsvReader.read].
  rewrite (Ascii.eqb_sym c QUOTE), Hq1, (Ascii.eqb_sym c COMMA), Hc1,
    (Ascii.eqb_sym c LF), Hl1.
  now rewrite (IH tail field fields records Hq Hc Hl Htail).
Qed.

Lemma read_quoted_field value : forall tail field fields records,
  CsvReader.afterField tail ->
  CsvReader.read false tail = (field :: fields) :: records ->
  CsvReader.read true
    (JsString.replaceAll QUOTE (String QUOTE (String QUOTE EmptyString)) value
     +:+ String QUOTE tail)
  = ((value +:+ field) :: fields) :: records.
Proof.
  induction value as [|c value IH]; intros tail field fields records Hafter Htail.
  - cbn [JsString.replaceAll]. rewrite append_empty_l. cbn [CsvReader.read].
    rewrite Ascii.eqb_refl. destruct tail as [|d rest]; [exact Htail|].
    cbn [CsvReader.afterField] in Hafter.
    destruct (Ascii.eqb_spec d QUOTE) as [E|_]; [contradiction|exact Htail].
  - cbn [JsString.replaceAll]. destruct (Ascii.eqb_spec QUOTE c) as [<-|Hne].
    + rewrite !append_cons, append_empty_l. cbn [CsvReader.read].
      rewrite Ascii.eqb_refl.
      now rewrite (IH tail field fields records Hafter Htail).
    + rewrite !append_cons. cbn [CsvReader.read].
      destruct (Ascii.eqb_spec c QUOTE) as [E|_]; [congruence|].
      now rewrite (IH tail field fields records Hafter Htail).
Qed.

Lemma read_field value tail field fields records :
  CsvReader.afterField tail ->
  CsvReader.read false tail = (field :: fields) :: records ->
  CsvReader.read false (sanitizeCsvValue (Some value) +:+ tail)
  = ((value +:+ field) :: fields) :: records.
Proof.
  intros Hafter Htail. unfold sanitizeCsvValue. rewrite !includes_escaped.
  destruct (JsString.includes QUOTE value) eqn:Hq; cbn [orb].
  - rewrite !append_cons, append_assoc, append_cons, append_empty_l.
    cbn [CsvReader.read]. rewrite Ascii.eqb_refl.
    now apply read_quoted_field.
  - destruct (JsString.includes COMMA value) eqn:Hc; cbn [orb].
    + rewrite !append_cons, append_assoc, append_cons, append_empty_l.
      cbn [CsvReader.read]. rewrite Ascii.eqb_refl.
      now apply read_quoted_field.
    + destruct (JsString.includes LF value) eqn:Hl.
      * rewrite !append_cons, append_assoc, append_cons, append_empty_l.
        cbn [CsvReader.read]. rewrite Ascii.eqb_refl.
        now apply read_quoted_field.
      * rewrite (replaceAll_absent _ _ _ Hq). now apply read_plain_field.
Qed.

Lemma read_row row : forall tail records,
  row <> [] ->
  CsvReader.afterField tail ->
  CsvReader.read false tail = [EmptyString] :: records ->
  CsvReader.read false
    (JsString.join "," ((fun v => sanitizeCsvValue (Some v)) <$> row) +:+ tail)
  = row :: records.
Proof.
  induction row as [|value row IH]; intros tail records Hne Hafter Htail; [congruence|].
  destruct row as [|value2 row].
  - cbn [fmap list_fmap JsString.join String.concat].
    rewrite (read_field value tail EmptyString [] records Hafter Htail).
    now rewrite append_empty_r.
  - change (JsString.join "," ((fun v => sanitizeCsvValue (Some v)) <$> value :: value2 :: row))
      with (sanitizeCsvValue (Some value)
            +:+ String COMMA EmptyString
            +:+ JsString.join "," ((fun v => sanitizeCsvValue (Some v)) <$> value2 :: row)).
    rewrite !append_assoc, append_cons, append_empty_l.
    rewrite (read_field value _ EmptyString (value2 :: row) records).
    + now rewrite append_empty_r.
    + cbn. unfold COMMA, QUOTE. discriminate.
    + cbn [CsvReader.read]. change (Ascii.eqb COMMA QUOTE) with false.
      rewrite Ascii.eqb_refl. cbv iota.
      rewrite (IH tail records ltac:(discriminate) Hafter Htail). reflexivity.
Qed.

Lemma read_table table :
  table <> [] ->
  Forall (fun row => row <> []) table ->
  CsvReader.read false
    (JsString.join (String LF EmptyString)
       ((fun row => JsString.join "," ((fun v => sanitizeCsvValue (Some v)) <$> row))
        <$> table))
  = table.
Proof.
  induction table as [|row table IH]; intros Hne Hrows; [congruence|].
  apply Forall_cons in Hrows as [Hrow Hrows].
  destruct table as [|row2 table].
  - cbn [fmap list_fmap JsString.join String.concat].
    rewrite <- (append_empty_r (String.concat _ _)).
    now apply (read_row row EmptyString []).
  - match goal with
    | |- CsvReader.read false ?text = _ =>
        change text with
          (JsString.join "," ((fun v => sanitizeCsvValue (Some v)) <$> row)
           +:+ String LF EmptyString
           +:+ JsString.join (String LF EmptyString)
                 ((fun row => JsString.join "," ((fun v => sanitizeCsvValue (Some v)) <$> row))
                  <$> row2 :: table))
    end.
    rewrite append_cons, append_empty_l.
    apply read_row; [exact Hrow| cbn; unfold LF, QUOTE; discriminate |].
    cbn [CsvReader.read]. change (Ascii.eqb LF QUOTE) with false.
    change (Ascii.eqb LF COMMA) with false. rewrite Ascii.eqb_refl. cbv iota.
    rewrite (IH ltac:(discriminate) Hrows). reflexivity.
Qed.

Lemma csv_table_reads_back (headers : list string) (rows : list (list string)) :
  headers <> [] ->
  Forall (fun row => row <> []) rows ->
  CsvReader.read false (createCsvContent headers rows) = headers :: rows.
Proof.
  intros Hh Hr. unfold createCsvContent.
  apply read_table; [discriminate|]. now apply Forall_cons.
Qed.

End ReadBack.

(** X12. Nothing is lost in the CSV text: a reader that splits records at
    line feeds and fields at commas, and takes a field between quotation
    marks with doubled marks for single ones, reads back the header and
    the rows that were written, whatever characters the fields hold,
    provided no row is without fields. Hence two tables of that kind with
    the same CSV text are the same table. *)
Theorem csv_content_reads_back :
  forall (headers : list string) (rows : list (list string)),
    headers <> [] ->
    Forall (fun row => row <> []) rows ->
    CsvReader.read false (createCsvContent headers rows) = headers :: rows
    /\ (forall headers' rows',
           headers' <> [] ->
           Forall (fun row => row <> []) rows' ->
           createCsvContent headers rows = createCsvContent headers' rows' ->
           headers = headers' /\ rows = rows').
Proof.
  intros headers rows Hh Hrows.
  assert (Hread : forall h r,
             h <> [] -> Forall (fun row : list string => row <> []) r ->
             CsvReader.read false (createCsvContent h r) = h :: r).
  { intros h r Hh' Hr. unfold createCsvContent.
    apply read_table; [discriminate|]. now apply Forall_cons. }
  split; [now apply Hread|].
  intros headers' rows' Hh' Hrows' Heq.
  pose proof (Hread headers rows Hh Hrows) as R1.
  pose proof (Hread headers' rows' Hh' Hrows') as R2.
  rewrite Heq, R2 in R1. now simplify_eq.
Qed.

Lemma csv_content_reads_back_witness :
  CsvReader.read false
    (createCsvContent [Sample.acme; "plain"%string]
       [[String LF "x,y"; EmptyString]; [EmptyString]])
  = [[Sample.acme; "plain"%string]; [String LF "x,y"; EmptyString]; [EmptyString]].
Proof.
  refine (proj1 (csv_content_reads_back [Sample.acme; "plain"%string]
                   [[String LF "x,y"; EmptyString]; [EmptyString]] _ _)).
  - discriminate.
  - repeat constructor; discriminate.
Defined.

(** ** The downloaded files *)

Section Downloads.

Lemma lowerChar_idempotent c : JsString.lowerChar (JsString.lowerChar c) = JsString.lowerChar c.
Proof. destruct c as [[] [] [] [] [] [] [] []]; reflexivity. Qed.

Lemma toLowerCase_idempotent s :
  JsString.toLowerCase (JsString.toLowerCase s) = JsString.toLowerCase s.
Proof.
  unfold JsString.toLowerCase.
  induction s as [|c s IH]; cbn [JsString.mapChars]; [reflexivity|].
  now rewrite lowerChar_idempotent, IH.
Qed.

Lemma toLowerCase_append s t :
  JsString.toLowerCase (s +:+ t) = JsString.toLowerCase s +:+ JsString.toLowerCase t.
Proof.
  unfold JsString.toLowerCase.
  induction s as [|c s IH]; [reflexivity|].
  rewrite !append_cons. cbn [JsString.mapChars]. now rewrite IH, append_cons.
Qed.

Lemma zip_with_fmap_same {A B C} (f : A -> B) (g : B -> A -> C) (l : list A) :
  zip_with g (f <$> l) l = (fun x => g (f x) x) <$> l.
Proof. induction l as [|x l IH]; cbn; [reflexivity|]. now rewrite IH. Qed.

Lemma fundHoldingsExportRow_length `{Runtime} holding :
  length (fundHoldingsExportRow holding) = length fundHoldingsExportHeaders.
Proof. reflexivity. Qed.

Lemma holding_cell_in_export_row `{Runtime} holding column :
  column ∈ fundHoldingColumns ->
  FundHoldingColumn.renderCell column holding ∈ fundHoldingsExportRow holding.
Proof.
  intros Hin.
  assert (Hcell : FundHoldingColumn.getExportValue column holding
                  ∈ (fun column => FundHoldingColumn.getExportValue column holding)
                    <$> fundHoldingColumns)
    by (apply list_elem_of_fmap; eauto).
  pose proof holding_cells_same_in_table_and_export as Hsame.
  rewrite Forall_forall in Hsame. rewrite (Hsame column Hin holding).
  rewrite holdings_export_row_has_table_columns in Hcell.
  apply elem_of_app in Hcell as [Hcell|Hcell].
  - apply list_elem_of_lookup in Hcell as [i Hi].
    apply lookup_take_Some in Hi as [Hi _]. now apply list_elem_of_lookup_2 in Hi.
  - apply list_elem_of_lookup in Hcell as [i Hi].
    rewrite lookup_drop in Hi. apply lookup_take_Some in Hi as [Hi _].
    now apply list_elem_of_lookup_2 in Hi.
Qed.

End Downloads.

(** X13. The portfolio file, read back, is the table as shown with one
    more column: its first record is the head of the table followed by
    Warnings, and the record of a company is the company's row of the
    table followed by its warnings joined by spaces. There is a file
    exactly when there is a company, and every record of it has one field
    more than there are visible columns. *)
Theorem portfolio_file_is_the_table_with_warnings :
  forall `{Runtime} (ledger : gmap string float) (result : list CompanyValuation.t)
         (config : gmap string ColumnConfig.t) (generatedAt : option string),
    let columns := portfolioColumns ledger in
    let visible := visiblePortfolioColumns columns config in
    (handleDownloadPortfolio result columns config generatedAt = None <-> result = [])
    /\ (result <> [] ->
        exists download,
          handleDownloadPortfolio result columns config generatedAt = Some download
          /\ filename download
             = "portfolio-valuations-" +:+ filenameTimestamp generatedAt +:+ ".csv"
          /\ length (CsvReader.read false (csvContent download)) = S (length result)
          /\ Forall (fun record => length record = S (length visible))
               (CsvReader.read false (csvContent download))
          /\ (forall head body,
                 portfolioTable visible result = Table head body ->
                 CsvReader.read false (csvContent download)
                 = (head ++ ["Warnings"%string])
                   :: zip_with (fun cells company =>
                                  cells ++ [JsString.join " " (CompanyValuation.warnings company)])
                        body result)).
Proof.
  intros runtime ledger result config generatedAt columns visible.
  split.
  { unfold handleDownloadPortfolio. destruct result; cbn; split; congruence. }
  intros Hne.
  rewrite (portfolio_export_follows_visible_columns result columns config generatedAt Hne).
  fold visible. eexists. split; [reflexivity|]. cbn [filename csvContent].
  split; [reflexivity|].
  match goal with
  | |- context [createCsvContent ?h ?r] =>
      assert (Hread : CsvReader.read false (createCsvContent h r) = h :: r);
        [apply csv_table_reads_back|]
  end.
  - intros E. apply (f_equal length) in E. rewrite length_app in E. cbn in E. lia.
  - apply Forall_fmap, Forall_true. intros company. cbn.
    intros E. apply (f_equal length) in E. rewrite length_app in E. cbn in E. lia.
  - rewrite Hread. split; [cbn [length]; now rewrite length_fmap|].
    split.
    + apply Forall_cons. split.
      * rewrite length_app, length_fmap. cbn. lia.
      * apply Forall_fmap, Forall_true. intros company. cbn.
        rewrite length_app, length_fmap. cbn. lia.
    + intros head body Htable. unfold portfolioTable in Htable.
      destruct (0 <? length visible)%nat; [|discriminate].
      injection Htable as <- <-. f_equal.
      rewrite zip_with_fmap_same. apply list_fmap_ext. intros i company Hi.
      f_equal. apply list_fmap_ext. intros j column Hcol.
      symmetry.
      pose proof (portfolio_cells_same_in_table_and_export ledger) as Hsame.
      rewrite Forall_forall in Hsame. apply Hsame.
      apply list_elem_of_lookup_2 in Hcol.
      unfold visible, visiblePortfolioColumns in Hcol.
      apply elem_of_List_filter in Hcol as [Hcol _]. exact Hcol.
Qed.

Lemma portfolio_file_is_the_table_with_warnings_witness :
  exists download,
    @handleDownloadPortfolio referenceRuntime [Sample.AAPL] (@portfolioColumns referenceRuntime ∅)
      ∅ Sample.generatedAt = Some download
    /\ length (CsvReader.read false (csvContent download)) = 2%nat.
Proof.
  destruct (proj2 (@portfolio_file_is_the_table_with_warnings referenceRuntime ∅
                     [Sample.AAPL] ∅ Sample.generatedAt) ltac:(discriminate))
    as (download & Hd & _ & Hlen & _).
  exists download. split; [exact Hd | exact Hlen].
Defined.

(** X14. The holdings file of a fund, read back, has the fifteen headers
    and one record of fifteen fields for each holding, in the order of the
    response (not in the order of weight the table shows). Every cell the
    table can show for a holding is a field of the holding's record. There
    is a file exactly when the fund has a holding, and its name is in
    lower case throughout, the timestamp included: the fund's ticker, or
    fund when it has none, then -holdings- and the timestamp. *)
Theorem holdings_file_has_a_record_for_each_holding :
  forall `{Runtime} (fund : FundValuation.t) (generatedAt : option string),
    (handleDownloadFundHoldings fund generatedAt = None <-> FundValuation.holdings fund = [])
    /\ (FundValuation.holdings fund <> [] ->
        exists download,
          handleDownloadFundHoldings fund generatedAt = Some download
          /\ CsvReader.read false (csvContent download)
             = fundHoldingsExportHeaders
               :: (fundHoldingsExportRow <$> FundValuation.holdings fund)
          /\ Forall (fun record => length record = 15%nat)
               (CsvReader.read false (csvContent download))
          /\ JsString.toLowerCase (filename download) = filename download
          /\ filename download
             = JsString.toLowerCase
                 (if JsString.truthy (FundValuation.ticker fund)
                  then FundValuation.ticker fund else "fund")
               +:+ "-holdings-"
               +:+ JsString.toLowerCase (filenameTimestamp generatedAt)
               +:+ ".csv")
    /\ (forall holding column,
           column ∈ fundHoldingColumns ->
           FundHoldingColumn.renderCell column holding ∈ fundHoldingsExportRow holding).
Proof.
  intros runtime fund generatedAt.
  split.
  { unfold handleDownloadFundHoldings.
    destruct (FundValuation.holdings fund); cbn; split; congruence. }
  split; [|intros holding column; apply holding_cell_in_export_row].
  intros Hne. unfold handleDownloadFundHoldings.
  destruct (FundValuation.holdings fund) as [|holding holdings] eqn:E; [congruence|].
  cbn [length Nat.eqb]. eexists. split; [reflexivity|]. cbn [filename csvContent].
  assert (Hread : CsvReader.read false
                    (createCsvContent fundHoldingsExportHeaders
                       (fundHoldingsExportRow <$> holding :: holdings))
                  = fundHoldingsExportHeaders
                    :: (fundHoldingsExportRow <$> holding :: holdings)).
  { apply csv_table_reads_back; [discriminate|].
    apply Forall_fmap, Forall_true. intros h. cbn. discriminate. }
  rewrite Hread. split; [reflexivity|].
  split.
  { apply Forall_cons. split; [reflexivity|].
    apply Forall_fmap, Forall_true. intros h. reflexivity. }
  split; [apply toLowerCase_idempotent|].
  rewrite !toLowerCase_append. reflexivity.
Qed.

Lemma holdings_file_has_a_record_for_each_holding_witness :
  exists download,
    @handleDownloadFundHoldings referenceRuntime Sample.VOO Sample.generatedAt = Some download
    /\ filename download = "voo-holdings-2025-01-02t03-04-05.000z.csv"%string.
Proof.
  destruct (proj1 (proj2 (@holdings_file_has_a_record_for_each_holding referenceRuntime
                            Sample.VOO Sample.generatedAt)) ltac:(discriminate))
    as (download & Hd & _ & _ & _ & Hname).
  exists download. split; [exact Hd | exact Hname].
Defined.

(** ** Holdings of equal weight *)

Section Stability.

Implicit Types (holding : FundHoldingValuation.t) (holdings : list FundHoldingValuation.t).

Lemma Ext_compare_antisym a b : Ext_compare b a = CompOpp (Ext_compare a b).
Proof.
  destruct a as [|x|], b as [|y|]; cbn [Ext_compare CompOpp]; try reflexivity.
  apply Z.compare_antisym.
Qed.

Lemma ltb_not_leb a b :
  notNaN a -> notNaN b -> (a <? b)%float = true -> (b <=? a)%float = false.
Proof.
  intros Na Nb. rewrite Binary64.ltb_position, Binary64.leb_position by assumption.
  rewrite (Ext_compare_antisym (position (Prim2SF a)) (position (Prim2SF b))).
  now destruct (Ext_compare (position (Prim2SF a)) (position (Prim2SF b))).
Qed.

Lemma sameRank_not_behind x a b :
  notNaN (weightKey x) -> notNaN (weightKey a) -> notNaN (weightKey b) ->
  sameRank x a = true -> sameRank x b = true ->
  JsNumber.positive (compareHoldings a b) = false.
Proof.
  intros Nx Na Nb Ha Hb. unfold sameRank in Ha, Hb.
  apply andb_prop in Ha as [Ha1 Ha2], Hb as [Hb1 Hb2].
  unfold compareHoldings. fold (weightKey a) (weightKey b).
  rewrite Binary64.sub_positive by assumption.
  destruct (weightKey a <? weightKey b)%float eqn:E; [|reflexivity].
  apply ltb_not_leb in E; [|assumption..].
  rewrite (Binary64.leb_trans _ (weightKey x) _ Nb Nx Na Hb1 Ha2) in E. discriminate.
Qed.

Lemma sortInsert_keeps_rank_order x holding holdings :
  notNaN (weightKey x) -> notNaN (weightKey holding) ->
  Forall (fun h => notNaN (weightKey h)) holdings ->
  List.filter (sameRank x) (sortInsert compareHoldings holding holdings)
  = List.filter (sameRank x) (holding :: holdings).
Proof.
  intros Nx Nh. induction 1 as [|y rest Ny Hrest IH]; [reflexivity|].
  cbn [sortInsert]. destruct (JsNumber.positive (compareHoldings holding y)) eqn:Hpos;
    [|reflexivity].
  cbn [List.filter]. rewrite IH. cbn [List.filter].
  destruct (sameRank x y) eqn:Ey, (sameRank x holding) eqn:Eh; try reflexivity.
  rewrite (sameRank_not_behind x holding y Nx Nh Ny Eh Ey) in Hpos. discriminate.
Qed.

Lemma sorted_keeps_rank_order x holdings :
  notNaN (weightKey x) ->
  Forall (fun h => notNaN (weightKey h)) holdings ->
  List.filter (sameRank x) (sorted compareHoldings holdings)
  = List.filter (sameRank x) holdings.
Proof.
  intros Nx. induction 1 as [|holding holdings Nh Hrest IH]; [reflexivity|].
  cbn [sorted foldr]. fold (sorted compareHoldings holdings).
  rewrite sortInsert_keeps_rank_order; [|assumption..|].
  - cbn [List.filter]. now rewrite IH.
  - now rewrite sorted_Permutation.
Qed.

Lemma sameRank_withoutWeight x holding :
  withoutWeight x = true ->
  match FundHoldingValuation.weight holding with
  | Some w => PrimFloat.is_finite w = true
  | None => True
  end ->
  sameRank x holding = withoutWeight holding.
Proof.
  unfold sameRank, withoutWeight, weightKey.
  destruct (FundHoldingValuation.weight x); [discriminate|]. intros _.
  destruct (FundHoldingValuation.weight holding) as [w|]; cbn [default]; [|reflexivity].
  intros Hw. now rewrite Binary64.finite_above_neg_infinity.
Qed.

End Stability.

(** X15. The sort of the holdings table is stable: holdings of the same
    weight are shown in the order of the response, and so are the holdings
    without a weight, which come last. (The weights present are taken to
    be finite.) *)
Theorem holdings_of_equal_weight_keep_response_order :
  forall (holdings : list FundHoldingValuation.t) (x : FundHoldingValuation.t),
    knownWeightsFinite holdings = true ->
    (x ∈ holdings ->
     List.filter (sameRank x) (sorted compareHoldings holdings)
     = List.filter (sameRank x) holdings)
    /\ List.filter withoutWeight (sorted compareHoldings holdings)
       = List.filter withoutWeight holdings.
Proof.
  intros holdings x Hfinite.
  pose proof (knownWeightsFinite_notNaN holdings Hfinite) as Hnan.
  split.
  - intros Hin. apply sorted_keeps_rank_order; [|exact Hnan].
    rewrite Forall_forall in Hnan. now apply Hnan.
  - destruct (List.filter withoutWeight holdings) as [|y rest] eqn:E.
    + assert (Hnone : forall h, h ∈ holdings -> withoutWeight h = false).
      { intros h Hh. destruct (withoutWeight h) eqn:Eh; [|reflexivity].
        assert (Hf : h ∈ List.filter withoutWeight holdings)
          by now apply elem_of_List_filter.
        rewrite E in Hf. now apply not_elem_of_nil in Hf. }
      assert (Hnil : forall l, (forall h, h ∈ l -> withoutWeight h = false) ->
                               List.filter withoutWeight l = []).
      { induction l as [|h l IH]; intros H; [reflexivity|]. cbn [List.filter].
        rewrite (H h) by left. apply IH. intros h' Hh'. apply H. now right. }
      apply Hnil. intros h Hh. apply Hnone.
      now rewrite <- (sorted_Permutation compareHoldings holdings).
    + rewrite <- E.
      assert (Hy : y ∈ holdings /\ withoutWeight y = true).
      { apply elem_of_List_filter. rewrite E. left. }
      destruct Hy as [Hy Hyw].
      assert (Hsame : forall l, (forall h, h ∈ l -> h ∈ holdings) ->
                                List.filter withoutWeight l = List.filter (sameRank y) l).
      { intros l Hl. apply List.filter_ext_in. intros h Hh. symmetry.
        apply sameRank_withoutWeight; [exact Hyw|].
        apply list_elem_of_In, Hl in Hh.
        unfold knownWeightsFinite in Hfinite. rewrite forallb_forall in Hfinite.
        apply list_elem_of_In, Hfinite in Hh.
        destruct (FundHoldingValuation.weight h); [exact Hh|exact I]. }
      rewrite (Hsame (sorted compareHoldings holdings)), (Hsame holdings).
      * apply sorted_keeps_rank_order; [|exact Hnan].
        rewrite Forall_forall in Hnan. now apply Hnan.
      * auto.
      * intros h Hh. now rewrite <- (sorted_Permutation compareHoldings holdings).
Qed.

Lemma holdings_of_equal_weight_keep_response_order_witness :
  List.filter withoutWeight
    (sorted compareHoldings
       [Sample.holdingCash; Sample.holdingMSFT; Sample.holdingCash; Sample.holdingAAPL])
  = [Sample.holdingCash; Sample.holdingCash].
Proof.
  exact (proj2 (holdings_of_equal_weight_keep_response_order
                  [Sample.holdingCash; Sample.holdingMSFT; Sample.holdingCash;
                   Sample.holdingAAPL] Sample.holdingCash eq_refl)).
Defined.

(** ** The theme provider *)

Section Themes.

Import ThemeProvider.

Lemma known_name theme : known (name theme) = Some theme.
Proof. now destruct theme. Qed.

Lemma toggleTheme_next theme :
  toggleTheme theme
  = Some match theme with light => mid | mid => dark | dark => light end.
Proof. now destruct theme. Qed.

Lemma commit_synced theme : synced (commit theme).
Proof. split; reflexivity. Qed.

Lemma setThemeState_synced next s : synced s -> synced (setThemeState next s).
Proof.
  intros H. unfold setThemeState. destruct (Theme_eqb next (theme s)); [exact H|].
  apply commit_synced.
Qed.

Lemma setThemeState_theme next s : synced s -> setThemeState next s = commit next.
Proof.
  intros [Hs Ha]. unfold setThemeState, commit.
  destruct s as [t st at_]. cbn in *. subst.
  now destruct next, t.
Qed.

Lemma step_synced s e : synced s -> synced (step s e).
Proof.
  intros H. destruct e as [next| |matchesDark]; cbn [step].
  - now apply setThemeState_synced.
  - rewrite toggleTheme_next. now apply setThemeState_synced.
  - destruct H as [Hs Ha]. rewrite Hs.
    assert (Ht : JsString.truthy (name (theme s)) = true) by now destruct (theme s).
    rewrite Ht, known_name. now split.
Qed.

Lemma step_scheme_changed s matchesDark : synced s -> step s (SchemeChanged matchesDark) = s.
Proof.
  intros [Hs Ha]. cbn [step]. rewrite Hs.
  assert (Ht : JsString.truthy (name (theme s)) = true) by now destruct (theme s).
  now rewrite Ht, known_name.
Qed.

Lemma mount_synced window : synced (mount window).
Proof. unfold mount. apply setThemeState_synced, commit_synced. Qed.

Lemma run_synced events : forall s, synced s -> synced (run events s).
Proof.
  induction events as [|e events IH]; intros s H; [exact H|].
  cbn [run foldl]. apply IH. now apply step_synced.
Qed.

Lemma run_without_scheme_changes events : forall s,
  synced s ->
  run events s = run (List.filter (fun e => negb (isSchemeChanged e)) events) s.
Proof.
  induction events as [|e events IH]; intros s Hsync; [reflexivity|].
  cbn [run foldl List.filter]. fold (run events (step s e)).
  destruct e as [next| |matchesDark]; cbn [isSchemeChanged negb].
  - cbn [foldl]. apply IH. now apply step_synced.
  - cbn [foldl]. apply IH. now apply step_synced.
  - rewrite (step_scheme_changed s matchesDark Hsync). now apply IH.
Qed.

End Themes.


(** X17. A toggle always yields a theme: the next of light, mid and dark,
    in a cycle. It never leaves the theme as it is, and three toggles in a
    row bring a mounted provider back to the state it was in. *)
Theorem toggle_cycles_through_the_themes :
  forall (window : ThemeProvider.Window) (events : list ThemeProvider.Event)
         (theme : ThemeProvider.Theme),
    let s := ThemeProvider.run events (ThemeProvider.mount window) in
    (exists next,
        ThemeProvider.toggleTheme theme = Some next
        /\ next <> theme
        /\ ThemeProvider.indexOf next ThemeProvider.KNOWN_THEMES
           = (ThemeProvider.indexOf theme ThemeProvider.KNOWN_THEMES + 1) mod 3)
    /\ ThemeProvider.theme (ThemeProvider.step s ThemeProvider.ToggleTheme)
       <> ThemeProvider.theme s
    /\ ThemeProvider.run
         [ThemeProvider.ToggleTheme; ThemeProvider.ToggleTheme; ThemeProvider.ToggleTheme] s
       = s.
Proof.
  intros window events theme s.
  pose proof (run_synced events _ (mount_synced window)) as Hsync. fold s in Hsync.
  split.
  { rewrite toggleTheme_next. eexists. split; [reflexivity|]. now destruct theme. }
  destruct Hsync as [Hs Ha]. destruct s as [t st at_]. cbn in Hs, Ha. subst.
  split; now destruct t.
Qed.

(** ** The timestamp in file names *)

Lemma includes_replaced c d s :
  c <> d ->
  JsString.includes c (JsString.replaceAll c (String d EmptyString) s) = false.
Proof.
  intros Hne. induction s as [|e s IH]; [reflexivity|].
  cbn [JsString.replaceAll]. destruct (Ascii.eqb_spec c e) as [<-|Hce].
  - rewrite append_cons, append_empty_l. cbn [JsString.includes].
    rewrite IH. now destruct (Ascii.eqb_spec c d).
  - cbn [JsString.includes]. rewrite IH. now destruct (Ascii.eqb_spec c e).
Qed.

Lemma length_replaced c d s :
  String.length (JsString.replaceAll c (String d EmptyString) s) = String.length s.
Proof.
  induction s as [|e s IH]; [reflexivity|].
  cbn [JsString.replaceAll]. destruct (Ascii.eqb c e).
  - rewrite append_cons, append_empty_l. cbn [String.length]. now rewrite IH.
  - cbn [String.length]. now rewrite IH.
Qed.



(** ** The sign of zakat *)

Section ZakatSign.

Lemma leb_zero_nonNegative x :
  (PrimFloat.zero <=? x)%float = true <-> nonNegative (Prim2SF x).
Proof.
  rewrite FloatAxioms.leb_spec, Binary64.Prim2SF_zero.
  destruct (Prim2SF x) as [s|s| |s m e]; cbn; try destruct s; split;
    congruence || tauto || discriminate.
Qed.

Lemma shr_fexp_nonneg m e l :
  0 <= m -> 0 <= shr_m (fst (shr_fexp prec emax m e l)).
Proof.
  intros Hm. unfold shr_fexp, shr.
  assert (Hrec : shr_m (shr_record_of_loc m l) = m) by (destruct l as [|[]]; reflexivity).
  destruct (fexp prec emax (Zdigits2 m + e) - e) as [|k|k]; cbn [fst];
    [now rewrite Hrec| |now rewrite Hrec].
  apply Binary64.shr_m_nonneg. now rewrite Hrec.
Qed.

Lemma round_nearest_even_nonneg m l : 0 <= m -> 0 <= round_nearest_even m l.
Proof.
  intros Hm. unfold round_nearest_even.
  destruct l as [|[]]; try lia. destruct (Z.even m); lia.
Qed.

Lemma binary_round_aux_nonNegative p e :
  nonNegative (binary_round_aux prec emax false (Z.pos p) e loc_Exact).
Proof.
  unfold binary_round_aux.
  pose proof (shr_fexp_nonneg (Z.pos p) e loc_Exact ltac:(lia)) as H1.
  destruct (shr_fexp prec emax (Z.pos p) e loc_Exact) as [mrs' e']. cbn [fst] in H1.
  pose proof (round_nearest_even_nonneg _ (loc_of_shr_record mrs') H1) as H2.
  pose proof (shr_fexp_nonneg _ e' loc_Exact H2) as H3.
  destruct (shr_fexp prec emax (round_nearest_even (shr_m mrs') (loc_of_shr_record mrs'))
              e' loc_Exact) as [mrs2 e2].
  cbn [fst] in H3.
  destruct (shr_m mrs2) as [|m|m]; [exact I| |lia].
  destruct (e2 <=? emax - prec); reflexivity.
Qed.

Lemma SFmul_nonNegative x y :
  nonNegative x -> nonNegative y ->
  (forall s, x <> S754_infinity s) ->
  (forall s, y = S754_infinity s -> forall s', x <> S754_zero s') ->
  nonNegative (SFmul prec emax x y).
Proof.
  destruct x as [sx|sx| |sx mx ex], y as [sy|sy| |sy my ey]; cbn [nonNegative SFmul];
    intros Hx Hy Hfx Hzero; subst;
    try exact I; try contradiction; try reflexivity;
    try apply binary_round_aux_nonNegative;
    try (exfalso; exact (Hfx _ eq_refl));
    exfalso; exact (Hzero _ eq_refl _ eq_refl).
Qed.

Lemma mul_nonNegative_finite a b :
  PrimFloat.is_finite a = true -> PrimFloat.is_finite b = true ->
  (PrimFloat.zero <=? a)%float = true -> (PrimFloat.zero <=? b)%float = true ->
  (PrimFloat.zero <=? a * b)%float = true.
Proof.
  intros Fa Fb Ha Hb. apply leb_zero_nonNegative in Ha, Hb. apply leb_zero_nonNegative.
  rewrite FloatAxioms.mul_spec.
  apply Binary64.is_finite_shape in Fa, Fb.
  apply SFmul_nonNegative; try assumption.
  - intros s E. now rewrite E in Fa.
  - intros s E. now rewrite E in Fb.
Qed.

Lemma mul_rate_nonNegative z :
  (PrimFloat.zero <=? z)%float = true -> (PrimFloat.zero <=? z * ZAKAT_RATE)%float = true.
Proof.
  intros Hz. apply leb_zero_nonNegative in Hz. apply leb_zero_nonNegative.
  rewrite FloatAxioms.mul_spec.
  assert (Hrate : exists m e, Prim2SF ZAKAT_RATE = S754_finite false m e)
    by (vm_compute; eauto).
  destruct Hrate as (m & e & Hrate). rewrite Hrate.
  destruct (Prim2SF z) as [s|s| |s mz ez]; cbn [nonNegative SFmul] in *; subst;
    try exact I; try contradiction; try reflexivity.
  apply binary_round_aux_nonNegative.
Qed.

End ZakatSign.

(** X19. For a company whose invested amount and ratio are finite and not
    below zero, the zakatable amount and the zakat due are defined and are
    neither NaN nor below zero (they may be infinite, when a product
    overflows). *)
Theorem zakat_is_never_negative :
  forall (ledger : gmap string float) (company : CompanyValuation.t)
         (invested ratio : float),
    CompanyValuation.ticker company <> EmptyString ->
    ledger !! JsString.toUpperCase (CompanyValuation.ticker company) = Some invested ->
    CompanyValuation.cri_to_market_price_ratio company = Some ratio ->
    PrimFloat.is_finite invested = true ->
    PrimFloat.is_finite ratio = true ->
    (PrimFloat.zero <=? invested)%float = true ->
    (PrimFloat.zero <=? ratio)%float = true ->
    exists zakatable due,
      computePortfolioZakatableAmount ledger company = Some zakatable
      /\ computePortfolioZakatDue ledger company = Some due
      /\ zakatable = (invested * ratio)%float
      /\ due = (zakatable * ZAKAT_RATE)%float
      /\ (PrimFloat.zero <=? zakatable)%float = true
      /\ (PrimFloat.zero <=? due)%float = true
      /\ JsNumber.isNaN zakatable = false
      /\ JsNumber.isNaN due = false.
Proof.
  intros ledger company invested ratio Hticker Hledger Hratio Fi Fr Hi Hr.
  assert (Hz : computePortfolioZakatableAmount ledger company = Some (invested * ratio)%float).
  { unfold computePortfolioZakatableAmount.
    apply truthy_true in Hticker. rewrite Hticker. cbn [negb].
    now rewrite Hledger, Hratio. }
  pose proof (mul_nonNegative_finite invested ratio Fi Fr Hi Hr) as Hzn.
  pose proof (mul_rate_nonNegative _ Hzn) as Hdn.
  assert (Hnan : forall v, (PrimFloat.zero <=? v)%float = true -> JsNumber.isNaN v = false).
  { intros v Hv. apply isNaN_false. intros E.
    apply leb_zero_nonNegative in Hv. now rewrite E in Hv. }
  exists (invested * ratio)%float, (invested * ratio * ZAKAT_RATE)%float.
  unfold computePortfolioZakatDue. rewrite Hz. auto 10.
Qed.

Lemma zakat_is_never_negative_witness :
  exists zakatable due,
    computePortfolioZakatableAmount (portfolioAmountMap Sample.portfolioRows) Sample.AAPL
    = Some zakatable
    /\ computePortfolioZakatDue (portfolioAmountMap Sample.portfolioRows) Sample.AAPL
       = Some due
    /\ (PrimFloat.zero <=? due)%float = true.
Proof.
  destruct (zakat_is_never_negative (portfolioAmountMap Sample.portfolioRows) Sample.AAPL
              (JsNumber.Number "100000") (JsNumber.Number "0.01")
              ltac:(discriminate) eq_refl eq_refl eq_refl eq_refl eq_refl eq_refl)
    as (zakatable & due & Hz & Hd & _ & _ & _ & Hdue & _).
  exists zakatable, due. auto.
Defined.

(** ** From the rows to the zakat shown *)

Section RowsToZakat.

Lemma amountsFor_some key entries entry :
  entry ∈ entries -> ledgerKey entry.1 = key -> is_Some (usableAmount entry.2) ->
  amountsFor key entries <> [].
Proof.
  induction entries as [|[t x] entries IH]; intros Hin Hk Hu;
    [now apply not_elem_of_nil in Hin|].
  cbn [amountsFor]. apply elem_of_cons in Hin as [->|Hin].
  - cbn [fst snd] in Hk, Hu. rewrite Hk, String.eqb_refl.
    destruct Hu as [a ->]. discriminate.
  - specialize (IH Hin Hk Hu).
    destruct (String.eqb (ledgerKey t) key); [|exact IH].
    destruct (usableAmount x); [discriminate|exact IH].
Qed.

Lemma ledger_has_key entries key :
  is_Some (foldl ledgerStep ∅ entries !! key)
  <-> key <> EmptyString
      /\ exists entry, entry ∈ entries /\ ledgerKey entry.1 = key
                       /\ is_Some (usableAmount entry.2).
Proof.
  rewrite ledger_of_entries. split.
  - intros [v Hv]. apply ledgerEntry_some in Hv as (Ht & _ & Hne).
    split; [now apply truthy_true|]. now apply amountsFor_source.
  - intros (Hkey & entry & Hin & Hk & Hu). unfold ledgerEntry.
    apply truthy_true in Hkey. rewrite Hkey.
    pose proof (amountsFor_some key entries entry Hin Hk Hu) as Hne.
    destruct (amountsFor key entries); [congruence|eauto].
Qed.

End RowsToZakat.

(** X20. From the rows to the figures shown. A company has a zakat due
    exactly when it has a zakatable amount, and that is exactly when its
    ticker is not empty, a ratio came with it, and some row of the
    portfolio form with a usable amount names it: the row's ticker,
    trimmed and in upper case, is the company's ticker in upper case. A
    fund has the two figures exactly when its ticker is not empty, some
    row of the fund form with a usable amount names it in that way, and
    its aggregate ratio and a coverage above zero are present. *)
Theorem zakat_is_shown_for_the_tickers_entered :
  forall `{Runtime} (portfolioRows : list PortfolioInputRow.t) (fundRows : list FundInputRow.t)
         (company : CompanyValuation.t) (fund : FundValuation.t),
    let figures := fundFigures (fundAmountMap fundRows) fund in
    (is_Some (computePortfolioZakatDue (portfolioAmountMap portfolioRows) company)
     <-> is_Some (computePortfolioZakatableAmount (portfolioAmountMap portfolioRows) company))
    /\ (is_Some (computePortfolioZakatableAmount (portfolioAmountMap portfolioRows) company)
        <-> CompanyValuation.ticker company <> EmptyString
            /\ is_Some (CompanyValuation.cri_to_market_price_ratio company)
            /\ exists row,
                row ∈ portfolioRows
                /\ ledgerKey (PortfolioInputRow.ticker row)
                   = JsString.toUpperCase (CompanyValuation.ticker company)
                /\ is_Some (usableAmount (PortfolioInputRow.amount row)))
    /\ (is_Some (zakatDue figures) <-> is_Some (zakatableAmount figures))
    /\ (is_Some (zakatableAmount figures)
        <-> FundValuation.ticker fund <> EmptyString
            /\ (exists aggregate covered,
                   FundValuation.aggregate_cri_to_market_price_ratio fund = Some aggregate
                   /\ FundValuation.total_weight_covered fund = Some covered
                   /\ (PrimFloat.zero <? covered)%float = true)
            /\ exists row,
                row ∈ fundRows
                /\ ledgerKey (FundInputRow.ticker row)
                   = JsString.toUpperCase (FundValuation.ticker fund)
                /\ is_Some (usableAmount (FundInputRow.amount row))).
Proof.
  intros runtime portfolioRows fundRows company fund figures.
  assert (Hupper : forall s, JsString.toUpperCase s <> EmptyString <-> s <> EmptyString).
  { intros s. rewrite <- !truthy_true. now rewrite truthy_toUpperCase. }
  assert (Hp : is_Some (portfolioAmountMap portfolioRows
                        !! JsString.toUpperCase (CompanyValuation.ticker company))
               <-> CompanyValuation.ticker company <> EmptyString
                   /\ exists row,
                       row ∈ portfolioRows
                       /\ ledgerKey (PortfolioInputRow.ticker row)
                          = JsString.toUpperCase (CompanyValuation.ticker company)
                       /\ is_Some (usableAmount (PortfolioInputRow.amount row))).
  { rewrite portfolioAmountMap_steps, ledger_has_key, Hupper. unfold portfolioEntries.
    split; intros (Ht & x & Hx); (split; [exact Ht|]).
    - destruct Hx as (Hin & Hk & Hu).
      apply list_elem_of_fmap in Hin as (row & -> & Hin). eauto.
    - destruct Hx as (Hin & Hk & Hu).
      exists (PortfolioInputRow.ticker x, PortfolioInputRow.amount x).
      split; [|split; [exact Hk|exact Hu]].
      apply list_elem_of_fmap. eauto. }
  assert (Hf : is_Some (fundAmountMap fundRows
                        !! JsString.toUpperCase (FundValuation.ticker fund))
               <-> FundValuation.ticker fund <> EmptyString
                   /\ exists row,
                       row ∈ fundRows
                       /\ ledgerKey (FundInputRow.ticker row)
                          = JsString.toUpperCase (FundValuation.ticker fund)
                       /\ is_Some (usableAmount (FundInputRow.amount row))).
  { rewrite fundAmountMap_steps, ledger_has_key, Hupper. unfold fundEntries.
    split; intros (Ht & x & Hx); (split; [exact Ht|]).
    - destruct Hx as (Hin & Hk & Hu).
      apply list_elem_of_fmap in Hin as (row & -> & Hin). eauto.
    - destruct Hx as (Hin & Hk & Hu).
      exists (FundInputRow.ticker x, FundInputRow.amount x).
      split; [|split; [exact Hk|exact Hu]].
      apply list_elem_of_fmap. eauto. }
  split.
  { unfold computePortfolioZakatDue.
    destruct (computePortfolioZakatableAmount _ company); split; intros [v Hv];
      eauto; discriminate. }
  split.
  { unfold computePortfolioZakatableAmount.
    destruct (JsString.truthy (CompanyValuation.ticker company)) eqn:Et; cbn [negb].
    - destruct (portfolioAmountMap portfolioRows !! _) as [invested|] eqn:El.
      + destruct (proj1 Hp ltac:(eauto)) as (Ht & Hrow).
        destruct (CompanyValuation.cri_to_market_price_ratio company) as [ratio|].
        * split; [intros _; eauto|eauto].
        * split; [intros [v Hv]; discriminate|intros (_ & [v Hv] & _); discriminate].
      + split; [intros [v Hv]; discriminate|].
        intros (Ht & _ & Hrow). destruct (proj2 Hp (conj Ht Hrow)) as [v Hv]. discriminate.
    - split; [intros [v Hv]; discriminate|].
      intros (Ht & _). apply truthy_true in Ht. congruence. }
  split.
  { subst figures. unfold fundFigures. cbn [zakatDue zakatableAmount].
    match goal with
    | |- is_Some (match ?z with _ => _ end) <-> _ =>
        destruct z; split; intros [v Hv]; eauto; discriminate
    end. }
  subst figures. unfold fundFigures. cbn [zakatableAmount].
  destruct (fundAmountMap fundRows !! _) as [invested|] eqn:El.
  - destruct (proj1 Hf ltac:(eauto)) as (Ht & Hrow).
    destruct (FundValuation.aggregate_cri_to_market_price_ratio fund) as [aggregate|];
      [destruct (FundValuation.total_weight_covered fund) as [covered|];
       [destruct (PrimFloat.zero <? covered)%float eqn:Ec|]|].
    + split; [intros _|eauto]. split; [exact Ht|]. split; [|exact Hrow]. eauto.
    + split; [intros [v Hv]; discriminate|].
      intros (_ & (a & c & _ & [= <-] & Hc) & _). congruence.
    + split; [intros [v Hv]; discriminate|].
      intros (_ & (a & c & _ & Hc & _) & _). discriminate.
    + split; [intros [v Hv]; discriminate|].
      intros (_ & (a & c & Ha & _) & _). discriminate.
  - split; [intros [v Hv]; discriminate|].
    intros (Ht & _ & Hrow). destruct (proj2 Hf (conj Ht Hrow)) as [v Hv]. discriminate.
Qed.

Lemma zakat_is_shown_for_the_tickers_entered_witness :
  is_Some (computePortfolioZakatableAmount
             (portfolioAmountMap [PortfolioInputRow.mk " aapl " EmptyString "12.5"])
             Sample.AAPL).
Proof.
  apply (proj2 (proj1 (proj2 (@zakat_is_shown_for_the_tickers_entered referenceRuntime
                  [PortfolioInputRow.mk " aapl " EmptyString "12.5"] [] Sample.AAPL
                  Sample.VOO)))).
  split; [discriminate|]. split; [eexists; reflexivity|].
  exists (PortfolioInputRow.mk " aapl " EmptyString "12.5").
  split; [left|]. split; [reflexivity|eexists; reflexivity].
Defined.
